(** * Penn events calendar: normalisation, merge and storage of scraped events

    A shallow embedding of [backend/fetch_events.py]: the field normalisers
    ([clean_date_format], [clean_starttime], [clean_endtime],
    [find_startend_time]), the corpus files ([read_json], [save_json]), the
    body of [__main__] that normalises a scraped batch and merges it into the
    stored corpus, the conversion of the calendar export
    ([convert_event_to_dict], [fetch_events]), the helpers
    [stringify_children] and [extract_mindcore_event_detail], the text
    preparation [preprocess] and the computation of the topic vectors.

    Conventions.
    - A Python [str] is a Rocq [string]; a character is a code point below
      256.  On that range [\d] is [0-9], [\s] and [str.strip] use the
      white-space set of [str.isspace], and the em dash of the seventh date
      pattern (U+2014) cannot occur.
    - A Python [dict] with string keys is a [gmap string value].
    - An identifier is an integer; in a column of type [float64] it is the
      double nearest to it, written as the integer it is equal to.
    - A call that may raise returns a [result]; [Raise e] is the exception
      leaving the function. *)

From stdpp Require Import base option list strings gmap pretty.
From Stdlib Require Import ZArith Lia Ascii String.

Local Open Scope string_scope.
Local Open Scope Z_scope.

(** ** Exceptions and the error monad *)

Inductive exn :=
| KeyError (k : string)
| AttributeError
| TypeError
| ValueError
| OverflowError
| JSONDecodeError.

Inductive result (A : Type) :=
| Ok (a : A)
| Raise (e : exn).
Arguments Ok {A} a.
Arguments Raise {A} e.

Global Instance result_ret : MRet result := λ A a, Ok a.
Global Instance result_bind : MBind result := λ A B k m,
  match m with
  | Ok a => k a
  | Raise e => Raise e
  end.

Fixpoint rmapM {A B} (f : A → result B) (l : list A) : result (list B) :=
  match l with
  | [] => Ok []
  | x :: l' => y ← f x; ys ← rmapM f l'; Ok (y :: ys)
  end.

(** ** Python string methods *)

Module Py.

Definition chr (n : N) : ascii := Ascii.ascii_of_N n.
Definition ord (a : ascii) : N := Ascii.N_of_ascii a.

Definition eqc (a b : ascii) : bool := Ascii.eqb a b.

(** [str.isspace] on code points below 256. *)
Definition isspace (a : ascii) : bool :=
  let n := ord a in
  ((9 <=? n) && (n <=? 13) || (28 <=? n) && (n <=? 32)
   || (n =? 133) || (n =? 160))%N.

Definition isdigit (a : ascii) : bool :=
  let n := ord a in ((48 <=? n) && (n <=? 57))%N.

Definition isalpha_ascii (a : ascii) : bool :=
  let n := ord a in
  ((65 <=? n) && (n <=? 90) || (97 <=? n) && (n <=? 122))%N.

(** [c in s] for a one-character [c]. *)
Fixpoint contains (c : ascii) (s : string) : bool :=
  match s with
  | EmptyString => false
  | String a s' => eqc a c || contains c s'
  end.

(** [s.split(c)]: the segments between the occurrences of [c]; never
    empty. *)
Fixpoint split (c : ascii) (s : string) : list string :=
  match s with
  | EmptyString => [EmptyString]
  | String a s' =>
      if eqc a c then EmptyString :: split c s'
      else match split c s' with
           | seg :: segs => String a seg :: segs
           | [] => [String a EmptyString]
           end
  end.

(** [l[0]] and [l[-1]] on the result of [split]. *)
Definition first (l : list string) : string := hd EmptyString l.
Definition last (l : list string) : string := List.last l EmptyString.

Fixpoint lstrip (s : string) : string :=
  match s with
  | EmptyString => EmptyString
  | String a s' => if isspace a then lstrip s' else s
  end.

Fixpoint rstrip (s : string) : string :=
  match s with
  | EmptyString => EmptyString
  | String a s' =>
      match rstrip s' with
      | EmptyString => if isspace a then EmptyString else String a EmptyString
      | r => String a r
      end
  end.

Definition strip (s : string) : string := rstrip (lstrip s).

Fixpoint startswith (p s : string) : bool :=
  match p, s with
  | EmptyString, _ => true
  | String a p', String b s' => eqc a b && startswith p' s'
  | String _ _, EmptyString => false
  end.

(** [s.replace(old, new)] for a non-empty [old]: leftmost occurrences,
    not overlapping.  [skip] counts the characters of an occurrence that
    are still to be dropped. *)
Fixpoint replace_go (old new : string) (skip : nat) (s : string) : string :=
  match s with
  | EmptyString => EmptyString
  | String a s' =>
      match skip with
      | S k => replace_go old new k s'
      | O =>
          if startswith old s
          then new +:+ replace_go old new (String.length old - 1)%nat s'
          else String a (replace_go old new 0 s')
      end
  end.

Definition replace (old new s : string) : string := replace_go old new 0 s.

(** [sep.join(l)] *)
Fixpoint join (sep : string) (l : list string) : string :=
  match l with
  | [] => EmptyString
  | [x] => x
  | x :: l' => x +:+ sep +:+ join sep l'
  end.

Definition eqs (a b : string) : bool := bool_decide (a = b).

End Py.

(** ** Regular expressions of the [re] module

    The patterns of the file repeat single characters only, so the syntax
    has a repetition of a character class instead of a general star.  The
    matcher is the backtracking one of [re]: alternatives are tried from
    left to right, repetitions are greedy, and the first successful path
    wins. *)

Module Re.

Definition cls := ascii → bool.

Inductive re :=
| Eps
| Cls (p : cls)
| Rep (p : cls) (lo : nat) (hi : option nat)
| Seq (r1 r2 : re)
| Alt (r1 r2 : re)
| Grp (r : re).

(** The text of [s] in front of its suffix [rest]. *)
Definition consumed (s rest : string) : string :=
  String.substring 0 (String.length s - String.length rest) s.

(** Greedy [p{lo,hi}]: take one more character when allowed, and come
    back to stopping here when the rest of the pattern fails. *)
Fixpoint rep {A} (p : cls) (lo : nat) (hi : option nat) (s : string)
    (k : string → option A) : option A :=
  let stop := match lo with O => k s | S _ => None end in
  match s with
  | String a s' =>
      if p a && negb (bool_decide (hi = Some O))
      then match rep p (pred lo) (pred <$> hi) s' k with
           | Some x => Some x
           | None => stop
           end
      else stop
  | EmptyString => stop
  end.

(** [exec r s g k]: match [r] at the front of [s]; [g] is the text of
    group 1 so far, [k] the rest of the pattern. *)
Fixpoint exec {A} (r : re) (s : string) (g : option string)
    (k : string → option string → option A) : option A :=
  match r with
  | Eps => k s g
  | Cls p =>
      match s with
      | String a s' => if p a then k s' g else None
      | EmptyString => None
      end
  | Rep p lo hi => rep p lo hi s (λ s', k s' g)
  | Seq r1 r2 => exec r1 s g (λ s' g', exec r2 s' g' k)
  | Alt r1 r2 =>
      match exec r1 s g k with
      | Some x => Some x
      | None => exec r2 s g k
      end
  | Grp r1 => exec r1 s g (λ s' _, k s' (Some (consumed s s')))
  end.

(** A match at the front of [s]: the text of group 1 and what follows
    the match. *)
Definition match_at (r : re) (s : string) : option (string * string) :=
  exec r s None (λ rest g, Some (default EmptyString g, rest)).

(** Left-to-right scan for the matches that do not overlap. *)
Inductive piece :=
| Lit (a : ascii)
| Hit (g : string).

Fixpoint scan (r : re) (skip : nat) (s : string) : list piece :=
  match skip, s with
  | S k, String _ s' => scan r k s'
  | S _, EmptyString => []
  | O, _ =>
      match match_at r s with
      | Some (g, rest) =>
          Hit g ::
          match s with
          | String a s' =>
              match (String.length s - String.length rest)%nat with
              | O => Lit a :: scan r 0 s'
              | S n => scan r n s'
              end
          | EmptyString => []
          end
      | None =>
          match s with
          | String a s' => Lit a :: scan r 0 s'
          | EmptyString => []
          end
      end
  end.

(** [re.findall(r, s)] for a pattern with one group. *)
Definition findall (r : re) (s : string) : list string :=
  omap (λ p, match p with Hit g => Some g | Lit _ => None end) (scan r 0 s).

(** [re.sub(r, repl, s)] for a replacement without back-references. *)
Definition sub (r : re) (repl : string) (s : string) : string :=
  foldr (λ p acc, match p with
                  | Hit _ => repl +:+ acc
                  | Lit a => String a acc
                  end) EmptyString (scan r 0 s).

(** For a pattern that starts with [^]: [pat.match(s)] and
    [pat.sub(r"\1", s)].  Such a pattern matches at the start of the
    string only. *)
Definition matches (r : re) (s : string) : bool :=
  bool_decide (is_Some (match_at r s)).

Definition sub_group1 (r : re) (s : string) : string :=
  match match_at r s with
  | Some (g, rest) => g +:+ rest
  | None => s
  end.

(** Pattern syntax. *)
Definition ch (c : ascii) : re := Cls (Py.eqc c).
Fixpoint lit (s : string) : re :=
  match s with
  | EmptyString => Eps
  | String a EmptyString => ch a
  | String a s' => Seq (ch a) (lit s')
  end.
Fixpoint seqs (l : list re) : re :=
  match l with
  | [] => Eps
  | [r] => r
  | r :: l' => Seq r (seqs l')
  end.
Fixpoint alts (l : list re) : re :=
  match l with
  | [] => Eps
  | [r] => r
  | r :: l' => Alt r (alts l')
  end.

Definition dot : cls := λ a, negb (Py.eqc a (Py.chr 10)).
Definition any : re := Cls dot.
Definition digit : cls := Py.isdigit.
Definition space : cls := Py.isspace.
Definition alpha : cls := Py.isalpha_ascii.
Definition plus (p : cls) : re := Rep p 1 None.
Definition star (p : cls) : re := Rep p 0 None.
Definition opt (p : cls) : re := Rep p 0 (Some 1%nat).
Definition times (p : cls) (n : nat) : re := Rep p n (Some n).
Definition range (p : cls) (lo hi : nat) : re := Rep p lo (Some hi).

End Re.

(** [(\d+\:\d+\s?(?:AM|PM|am|pm|A.M.|P.M.|a.m.|p.m.))] *)
Definition CLOCK : Re.re :=
  Re.Grp (Re.seqs
    [Re.plus Re.digit; Re.ch ":"; Re.plus Re.digit; Re.opt Re.space;
     Re.alts
       [Re.lit "AM"; Re.lit "PM"; Re.lit "am"; Re.lit "pm";
        Re.seqs [Re.ch "A"; Re.any; Re.ch "M"; Re.any];
        Re.seqs [Re.ch "P"; Re.any; Re.ch "M"; Re.any];
        Re.seqs [Re.ch "a"; Re.any; Re.ch "m"; Re.any];
        Re.seqs [Re.ch "p"; Re.any; Re.ch "m"; Re.any]]]).

(** [PATTERNS], each without its leading [^]: the patterns are used with
    [pat.match] and [pat.sub] only, which [Re.matches] and [Re.sub_group1]
    anchor at the start of the string.  [[0-9]] is [Re.digit]; the class
    of the seventh pattern holds a blank and an em dash, and only the blank
    is a character of the model. *)
Definition a_date_comma_year : list Re.re :=
  [Re.plus Re.alpha; Re.ch " "; Re.range Re.digit 1 2; Re.lit ", ";
   Re.times Re.digit 4].

Definition PATTERNS : list Re.re :=
  [ (* ^[a-zA-Z]+, ([a-zA-Z]+ [0-9]{1,2}, [0-9]{4}).* *)
    Re.seqs [Re.plus Re.alpha; Re.lit ", ";
             Re.Grp (Re.seqs a_date_comma_year); Re.star Re.dot];
    (* ^([a-zA-Z]+ [0-9]{1,2}, [0-9]{4}) .* *)
    Re.seqs [Re.Grp (Re.seqs a_date_comma_year); Re.ch " "; Re.star Re.dot];
    (* ^([a-zA-Z]+ [0-9]{1,2}) @.* *)
    Re.seqs [Re.Grp (Re.seqs [Re.plus Re.alpha; Re.ch " ";
                              Re.range Re.digit 1 2]);
             Re.lit " @"; Re.star Re.dot];
    (* ^([a-zA-Z]{3}\.? [0-9]{1,2}, [0-9]{4}) .* *)
    Re.seqs [Re.Grp (Re.seqs [Re.times Re.alpha 3; Re.opt (Py.eqc ".");
                              Re.ch " "; Re.range Re.digit 1 2; Re.lit ", ";
                              Re.times Re.digit 4]);
             Re.ch " "; Re.star Re.dot];
    (* ^([a-zA-Z]{3} [0-9]{1,2} [0-9]{4})[0-9]{1,2}:[0-9]{2}.* *)
    Re.seqs [Re.Grp (Re.seqs [Re.times Re.alpha 3; Re.ch " ";
                              Re.range Re.digit 1 2; Re.ch " ";
                              Re.times Re.digit 4]);
             Re.range Re.digit 1 2; Re.ch ":"; Re.times Re.digit 2;
             Re.star Re.dot];
    (* ^[a-zA-Z]{3}, ([0-9\/]{10}) .* *)
    Re.seqs [Re.times Re.alpha 3; Re.lit ", ";
             Re.Grp (Re.times (λ a, Re.digit a || Py.eqc a "/") 10);
             Re.ch " "; Re.star Re.dot];
    (* ^[a-zA-Z]+, ([0-9]{1,2} [a-zA-Z]+ [0-9]{4})[— ]-?.* *)
    Re.seqs [Re.plus Re.alpha; Re.lit ", ";
             Re.Grp (Re.seqs [Re.range Re.digit 1 2; Re.ch " ";
                              Re.plus Re.alpha; Re.ch " ";
                              Re.times Re.digit 4]);
             Re.ch " "; Re.opt (Py.eqc "-"); Re.star Re.dot];
    (* ^([0-9]{1,2} [a-zA-Z]{3} [0-9]{4}) .* *)
    Re.seqs [Re.Grp (Re.seqs [Re.range Re.digit 1 2; Re.ch " ";
                              Re.times Re.alpha 3; Re.ch " ";
                              Re.times Re.digit 4]);
             Re.ch " "; Re.star Re.dot] ].

Definition PATS : list Re.re := PATTERNS.

(** ** [datetime] *)

Record datetime := mk_datetime {
  year : Z; month : Z; day : Z; hour : Z; minute : Z
}.

Module Datetime.

Definition is_leap (y : Z) : bool :=
  (y mod 4 =? 0) && (negb (y mod 100 =? 0) || (y mod 400 =? 0)).

Definition days_in_month (y m : Z) : Z :=
  if m =? 2 then (if is_leap y then 29 else 28)
  else if (m =? 4) || (m =? 6) || (m =? 9) || (m =? 11) then 30
  else 31.

Definition MAXYEAR : Z := 9999.

(** [t + timedelta(hours=1)]; [None] is the [OverflowError] past the last
    day of [MAXYEAR]. *)
Definition add_hour (t : datetime) : option datetime :=
  if hour t <? 23 then
    Some (mk_datetime (year t) (month t) (day t) (hour t + 1) (minute t))
  else if day t <? days_in_month (year t) (month t) then
    Some (mk_datetime (year t) (month t) (day t + 1) 0 (minute t))
  else if month t <? 12 then
    Some (mk_datetime (year t) (month t + 1) 1 0 (minute t))
  else if year t <? MAXYEAR then
    Some (mk_datetime (year t + 1) 1 1 0 (minute t))
  else None.

Definition pad2 (n : Z) : string :=
  if n <? 10 then "0" +:+ pretty n else pretty n.

Definition pad4 (n : Z) : string :=
  if n <? 10 then "000" +:+ pretty n
  else if n <? 100 then "00" +:+ pretty n
  else if n <? 1000 then "0" +:+ pretty n
  else pretty n.

(** [t.strftime('%d-%m-%Y')] *)
Definition strftime_dmY (t : datetime) : string :=
  pad2 (day t) +:+ "-" +:+ pad2 (month t) +:+ "-" +:+ pad4 (year t).

(** [t.strftime("%I:%M %p")]: the hour on the 12-hour clock as two
    digits, the minute as two digits, and AM or PM. *)
Definition hour12 (h : Z) : Z :=
  if h mod 12 =? 0 then 12 else h mod 12.

Definition strftime_IMp (t : datetime) : string :=
  pad2 (hour12 (hour t)) +:+ ":" +:+ pad2 (minute t) +:+ " "
    +:+ (if hour t <? 12 then "AM" else "PM").

End Datetime.

(** ** Values, records and the general parser

    A cell of a record or of a data frame is a string, an integer or
    missing ([NaN], [None]). *)

Inductive value :=
| VStr (s : string)
| VInt (n : Z)
| VNaN.

Global Instance value_eq_dec : EqDecision value.
Proof. solve_decision. Defined.

Abbreviation dict := (gmap string value).

(** [r[c]] where a missing key reads as missing data. *)
Definition cell (r : dict) (c : string) : value := default VNaN (r !! c).

(** [dateutil.parser.parse] is a library outside the repository: the
    normalisers take it as a parameter, [None] standing for its
    [ValueError].  [Dateutil.parse_clock] is its reading of the 12-hour
    clock times [H:MM AM] and [H:MM PM] (hour 1 to 12, minute 00 to 59,
    date of the day of the run); no other string belongs to that fragment.
    It is there to evaluate the normalisers on clock times. *)
Module Dateutil.

Fixpoint digits (s : string) : string * string :=
  match s with
  | String a s' =>
      if Py.isdigit a then let '(d, r) := digits s' in (String a d, r)
      else (EmptyString, s)
  | EmptyString => (EmptyString, EmptyString)
  end.

Fixpoint num_go (acc : Z) (s : string) : Z :=
  match s with
  | String a s' => num_go (10 * acc + (Z.of_N (Py.ord a) - 48)) s'
  | EmptyString => acc
  end.
Definition num (s : string) : Z := num_go 0 s.

Definition meridiem (s : string) : option bool :=
  if Py.eqs s "AM" || Py.eqs s "am" then Some false
  else if Py.eqs s "PM" || Py.eqs s "pm" then Some true
  else None.

Definition parse_clock (today : Z * Z * Z) (s : string) : option datetime :=
  let '(y, m, d) := today in
  let '(hh, r1) := digits s in
  match r1 with
  | String ":" r2 =>
      let '(mm, r3) := digits r2 in
      let r4 := match r3 with String " " r => r | _ => r3 end in
      let h := num hh in
      if bool_decide (1 ≤ String.length hh ≤ 2)%nat
         && bool_decide (String.length mm = 2%nat)
         && (1 <=? h) && (h <=? 12) && (num mm <=? 59)
      then pm ← meridiem r4;
           Some (mk_datetime y m d (h mod 12 + (if pm : bool then 12 else 0))
                   (num mm))
      else None
  | _ => None
  end.

End Dateutil.

(** ** The field normalisers *)

Section Normalizer.

Variable parse : string → option datetime.

(** The clean-up of the [except] branch of [clean_date_format]. *)
Definition cleanup (d : string) : string :=
  let d := Py.replace "Date TBD" "" d in
  let d := Py.replace "Special time:" "" (Py.replace "EDT" "" d) in
  let d := Py.replace "Wu & Chen Auditorium" "" d in
  let d := Py.replace "-" "" d in
  let d := Py.replace (String (Py.chr 10) EmptyString) " " d in
  let d := Re.sub CLOCK "" d in
  Py.strip (Py.replace "-" "" d).

(** [dateutil.parser.parse(d).strftime('%d-%m-%Y')] *)
Definition parse_dmY (d : string) : result string :=
  match parse d with
  | Some t => Ok (Datetime.strftime_dmY t)
  | None => Raise ValueError
  end.

(** The [for pat in PATS] loop with the [return] after it. *)
Fixpoint try_patterns (pats : list Re.re) (d : string) : result string :=
  match pats with
  | pat :: pats' =>
      if Re.matches pat d then parse_dmY (Re.sub_group1 pat d)
      else try_patterns pats' d
  | [] => parse_dmY d
  end.

(** [d is not ''] is a test on the text: CPython keeps one empty string.
    On a value that is no string the parser raises and then [d.replace]
    does. *)
Definition clean_date_format (d : value) : result string :=
  match d with
  | VStr d =>
      match parse d with
      | Some t => Ok (Datetime.strftime_dmY t)
      | None =>
          let d := cleanup d in
          if bool_decide (d ≠ "") then try_patterns PATS d
          else Ok ""
      end
  | _ => Raise AttributeError
  end.

Definition clean_starttime (r : dict) : result value :=
  match r !! "starttime" with
  | None => Raise (KeyError "starttime")
  | Some (VStr s) =>
      if Py.contains "-" s
      then Ok (VStr (Py.strip (Py.first (Py.split "-" s))))
      else Ok (VStr s)
  | Some _ => Raise TypeError
  end.

(** The [try] of [clean_endtime]: [None] when [parse] or the addition
    raises. *)
Definition one_hour_later (s : string) : option string :=
  t ← parse s; t' ← Datetime.add_hour t; Some (Datetime.strftime_IMp t').

Definition clean_endtime (r : dict) : result value :=
  match r !! "starttime" with
  | None => Raise (KeyError "starttime")
  | Some (VStr s) =>
      if Py.contains "-" s
      then Ok (VStr (Py.strip (Py.last (Py.split "-" s))))
      else match one_hour_later s with
           | Some e => Ok (VStr e)
           | None =>
               match r !! "endtime" with
               | Some v => Ok v
               | None => Raise (KeyError "endtime")
               end
           end
  | Some _ => Raise TypeError
  end.

End Normalizer.

Definition find_startend_time (s : string) : string * string :=
  match Re.findall CLOCK s with
  | [t0] => (t0, "")
  | [t0; t1] => (t0, t1)
  | _ => ("", "")
  end.

(** ** Data frames

    A [pandas.DataFrame] is its list of column labels and its rows; a cell
    that a row does not hold is missing data.  The order of the column
    labels only shows in the order of the keys of the saved records. *)

Record DataFrame := mk_frame {
  columns : list string;
  rows : list dict
}.

Module Pd.

Definition keys (r : dict) : list string := (map_to_list r).*1.

(** [pd.DataFrame(events)] for a list of dictionaries. *)
Definition of_records (events : list dict) : DataFrame :=
  mk_frame (remove_dups (events ≫= keys)) events.

(** The row as the [Series] that [apply(f, axis=1)] and [to_dict] hand
    out: one entry per column. *)
Definition series (cols : list string) (r : dict) : dict :=
  list_to_map ((λ c, (c, cell r c)) <$> cols).

(** [df.fillna(v)] *)
Definition fill (v x : value) : value :=
  match x with
  | VNaN => v
  | _ => x
  end.

Definition fillna (v : value) (df : DataFrame) : DataFrame :=
  mk_frame (columns df)
    ((λ r, fill v <$> series (columns df) r) <$> rows df).

(** [df[c]] *)
Definition col (df : DataFrame) (c : string) : result (list value) :=
  if bool_decide (c ∈ columns df) then Ok ((λ r, cell r c) <$> rows df)
  else Raise (KeyError c).

(** [df[c] = vals], for as many values as rows. *)
Definition set_col (c : string) (vals : list value) (df : DataFrame)
    : DataFrame :=
  mk_frame (if bool_decide (c ∈ columns df) then columns df
            else columns df ++ [c])
           (zip_with (λ r v, <[c := v]> r) (rows df) vals).

(** [df.apply(f, axis=1)] *)
Definition apply (f : dict → result value) (df : DataFrame)
    : result (list value) :=
  rmapM (λ r, f (series (columns df) r)) (rows df).

(** [pd.concat((a, b), axis=0, sort=False)] *)
Definition concat (a b : DataFrame) : DataFrame :=
  mk_frame (columns a ++ filter (λ c, c ∉ columns a) (columns b))
           (rows a ++ rows b).

(** The rows whose key was not seen before, in their order. *)
Fixpoint first_seen {K} `{EqDecision K} (key : dict → K) (seen : list K)
    (l : list dict) : list dict :=
  match l with
  | [] => []
  | r :: l' =>
      if decide (key r ∈ seen) then first_seen key seen l'
      else r :: first_seen key (key r :: seen) l'
  end.

(** [df.drop_duplicates(subset=cs, keep='first')] *)
Definition drop_duplicates (cs : list string) (df : DataFrame)
    : result DataFrame :=
  match filter (λ c, c ∉ columns df) cs with
  | c :: _ => Raise (KeyError c)
  | [] => Ok (mk_frame (columns df)
                (first_seen (λ r, cell r <$> cs) [] (rows df)))
  end.

(** [df.to_dict(orient='records')] *)
Definition to_dict (df : DataFrame) : list dict :=
  series (columns df) <$> rows df.

(** [s.max()] of a column of integers; missing cells are skipped, and
    a column without any number has the maximum [NaN], on which
    [np.arange] raises. *)
Fixpoint ints (l : list value) : result (list Z) :=
  match l with
  | [] => Ok []
  | VInt n :: l' => ns ← ints l'; Ok (n :: ns)
  | VNaN :: l' => ints l'
  | VStr _ :: _ => Raise TypeError
  end.

Definition col_max (l : list value) : result Z :=
  ns ← ints l;
  match ns with
  | [] => Raise ValueError
  | n :: ns' => Ok (foldr Z.max n ns')
  end.

(** [df.loc[pd.isnull(df[c]), c] = np.arange(next, ...)] when the numbers
    are integers: the rows with a missing [c] take the successive numbers
    from [next]. *)
Fixpoint fill_null (c : string) (next : Z) (l : list dict) : list dict :=
  match l with
  | [] => []
  | r :: l' =>
      match cell r c with
      | VNaN => <[c := VInt next]> r :: fill_null c (next + 1) l'
      | _ => r :: fill_null c next l'
      end
  end.

(** [df[c] = df[c].astype(int)] on a column of numbers.  A string raises
    here, although [int] reads the text of a number: the scrapers write no
    identifier, and the properties of the merge are stated for batches
    without one. *)
Definition astype_int (c : string) (r : dict) : result dict :=
  match cell r c with
  | VInt _ => Ok r
  | _ => Raise ValueError
  end.

(** [np.arange(n)] *)
Definition arange (n : nat) : list Z := Z.of_nat <$> seq 0 n.

(** The double nearest to an integer, with ties going to the even
    significand of 53 bits: what an integer becomes in a column of type
    [float64], and what [astype(int)] reads back from it.  The integers up
    to 2^53 in magnitude stay as they are. *)
Definition float64 (n : Z) : Z :=
  let a := Z.abs n in
  if a <=? 2 ^ 53 then n
  else
    let ulp := 2 ^ (Z.log2 a - 52) in
    let q := a / ulp in
    let r := a mod ulp in
    let q' := if 2 * r <? ulp then q
              else if ulp <? 2 * r then q + 1
              else if Z.even q then q else q + 1 in
    Z.sgn n * (q' * ulp).

(** The type pandas gives a column of identifiers: [object] when a cell is
    a string, else [float64] when a cell is missing, else [int64]. *)
Inductive dtype := Int64 | Float64 | Object.

Definition is_str (v : value) : bool :=
  match v with VStr _ => true | _ => false end.
Definition is_nan (v : value) : bool :=
  match v with VNaN => true | _ => false end.

Definition dtype_of (l : list value) : dtype :=
  if existsb is_str l then Object
  else if existsb is_nan l then Float64
  else Int64.

(** A cell as a column of type [t] holds it. *)
Definition as_dtype (t : dtype) (v : value) : value :=
  match t with
  | Float64 => match v with VInt n => VInt (float64 n) | _ => v end
  | _ => v
  end.

(** The frame with the cells of its column [c] held in the type of that
    column. *)
Definition retype (c : string) (df : DataFrame) : DataFrame :=
  let t := dtype_of ((λ r, cell r c) <$> rows df) in
  mk_frame (columns df) (alter (as_dtype t) c <$> rows df).

(** [df[c].isnull().sum()] *)
Definition count_null (c : string) (l : list dict) : nat :=
  List.length (filter (λ r, cell r c = VNaN) l).

(** [np.arange(top + 1, top + 1 + count)], where [top] comes from a column
    of type [t].  From an [int64] column the numbers are integers.  From a
    [float64] column they are doubles: the length is the difference of the
    two ends computed in doubles, the assignment of line 2277 raises when it
    is not the number of rows to fill, and the element [i] is
    [start + i * delta] in doubles, [delta] being the double step from
    [start] to [start + 1]. *)
Definition numbers (t : dtype) (top : Z) (count : nat) : result (list Z) :=
  match t with
  | Float64 =>
      let start := float64 (top + 1) in
      let stop := float64 (start + Z.of_nat count) in
      if float64 (stop - start) =? Z.of_nat count then
        let delta := float64 (float64 (start + 1) - start) in
        Ok ((λ i, float64 (start + float64 (Z.of_nat i * delta)))
              <$> seq 0 count)
      else Raise ValueError
  | _ => Ok ((λ i, top + 1 + Z.of_nat i) <$> seq 0 count)
  end.

(** [df.loc[pd.isnull(df[c]), c] = vals]: the rows with a missing [c] take
    the values in their order. *)
Fixpoint fill_from (c : string) (vals : list Z) (l : list dict) : list dict :=
  match l with
  | [] => []
  | r :: l' =>
      match cell r c, vals with
      | VNaN, v :: vals' => <[c := VInt v]> r :: fill_from c vals' l'
      | _, _ => r :: fill_from c vals l'
      end
  end.

End Pd.

(** ** The body of [__main__] *)

(** The collector loop: a scraper that raises is printed and adds
    nothing. *)
Fixpoint collect (fetched : list (result (list dict))) : list dict :=
  match fetched with
  | [] => []
  | Ok evs :: rest => evs ++ collect rest
  | Raise _ :: rest => collect rest
  end.

Definition KEY : list string :=
  ["starttime"; "owner"; "location"; "title"; "description"; "url"].

Definition key_of (r : dict) : list value := cell r <$> KEY.

Section Main.

Variable parse : string → option datetime.

(** Line 2260 selects the rows with an empty end time.  When there is none,
    [apply] returns an empty frame instead of a column, and the versions of
    pandas differ on the assignment of that frame: the older ones raise
    [ValueError] (incompatible indexer), the others change nothing.
    [strict] is [true] for the former. *)
Variable strict : bool.

(** The assignment of line 2260 on one row: a row with an empty end time
    takes the result of [clean_endtime]. *)
Definition set_endtime (cols : list string) (r : dict) : result dict :=
  if bool_decide (cell r "endtime" = VStr "")
  then e ← clean_endtime parse (Pd.series cols r); Ok (<["endtime" := e]> r)
  else Ok r.

(** Lines 2256 to 2260: the frame of the new batch with its normalised
    date and times.  [events_df.endtime] is an attribute of the frame only
    when the column exists. *)
Definition normalize (events : list dict) : result DataFrame :=
  let events_df := Pd.fillna (VStr "") (Pd.of_records events) in
  dates ← Pd.col events_df "date";
  date_dt ← rmapM (clean_date_format parse) dates;
  let events_df := Pd.set_col "date_dt" (VStr <$> date_dt) events_df in
  starttime ← Pd.apply clean_starttime events_df;
  let events_df := Pd.set_col "starttime" starttime events_df in
  if bool_decide ("endtime" ∈ columns events_df) then
    if strict && forallb (λ r, negb (bool_decide (cell r "endtime" = VStr "")))
                   (rows events_df)
    then Raise ValueError
    else
      rows' ← rmapM (set_endtime (columns events_df)) (rows events_df);
      Ok (mk_frame (columns events_df) rows')
  else Raise AttributeError.

(** Lines 2263 to 2280.  [former] is the content of the corpus file as
    [json.loads] reads it, [None] when the file does not exist; the
    result is the list of records handed to [save_json].  The identifiers
    are taken in the range of [int64].  A frame holds the identifiers in a
    column of type [float64] as soon as one of its rows has none: that is
    the case of the frame of the old corpus when a record lacks its
    identifier, and of the concatenated frame when the batch brings no
    identifier; the identifiers in such a column are doubles.  No step
    before the last reads an identifier other than to see whether it is
    missing, so the cells are written in the type [t] of their column in
    one place, after the new numbers are assigned. *)
Definition merge (former : option (list dict)) (events_df : DataFrame)
    : result (list dict) :=
  match former with
  | None =>
      events_df ← Pd.drop_duplicates KEY events_df;
      let index := Pd.arange (List.length (rows events_df)) in
      Ok (Pd.to_dict (Pd.set_col "event_index" (VInt <$> index) events_df))
  | Some records =>
      let events_former_df := Pd.retype "event_index" (Pd.of_records records) in
      let events_df := Pd.concat events_former_df events_df in
      let t := Pd.dtype_of ((λ r, cell r "event_index") <$> rows events_df) in
      events_df ← Pd.drop_duplicates KEY events_df;
      former_index ← Pd.col events_former_df "event_index";
      top ← Pd.col_max former_index;
      numbers ← Pd.numbers (Pd.dtype_of former_index) top
                  (Pd.count_null "event_index" (rows events_df));
      let rows' := Pd.fill_from "event_index" numbers (rows events_df) in
      let rows' := alter (Pd.as_dtype t) "event_index" <$> rows' in
      rows'' ← rmapM (Pd.astype_int "event_index") rows';
      Ok (Pd.to_dict (mk_frame (columns events_df) rows''))
  end.

Definition run (former : option (list dict)) (events : list dict)
    : result (list dict) :=
  events_df ← normalize events; merge former events_df.

Definition main (former : option (list dict))
    (fetched : list (result (list dict))) : result (list dict) :=
  run former (collect fetched).

End Main.

(** ** The corpus files

    [json.dumps] and [json.loads] are library code.  [Json.dumps] writes a
    record the way [json.dumps] does with its defaults, up to the order of
    the keys; [Json.loads] reads the JSON texts made of objects, arrays,
    strings, integers, [NaN], [null], [true] and [false], which is the
    fragment [save_json] writes.  [read_json] takes the reader as a
    parameter. *)

Module Json.

#[warnings="-register-all"] Inductive json :=
| JStr (s : string)
| JInt (n : Z)
| JNaN
| JNull
| JBool (b : bool)
| JArr (l : list json)
| JObj (l : list (string * json)).

Definition dq : ascii := Py.chr 34.
Definition bs : ascii := Py.chr 92.
Definition str1 (a : ascii) : string := String a EmptyString.

Definition hex_digit (n : N) : ascii :=
  if (n <? 10)%N then Py.chr (48 + n) else Py.chr (87 + n).

(** The escapes of [ensure_ascii=True]. *)
Definition escape (a : ascii) : string :=
  let n := Py.ord a in
  if Py.eqc a dq then String bs (str1 dq)
  else if Py.eqc a bs then String bs (str1 bs)
  else if (n =? 10)%N then String bs "n"
  else if (n =? 13)%N then String bs "r"
  else if (n =? 9)%N then String bs "t"
  else if (n =? 8)%N then String bs "b"
  else if (n =? 12)%N then String bs "f"
  else if (32 <=? n)%N && (n <=? 126)%N then str1 a
  else String bs ("u00" +:+ String (hex_digit (n / 16)) (str1 (hex_digit (n mod 16)))).

Fixpoint escape_all (s : string) : string :=
  match s with
  | EmptyString => EmptyString
  | String a s' => escape a +:+ escape_all s'
  end.

Definition quote (s : string) : string :=
  String dq (escape_all s +:+ str1 dq).

Definition dumps_value (v : value) : string :=
  match v with
  | VStr s => quote s
  | VInt n => pretty n
  | VNaN => "NaN"
  end.

(** [json.dumps(r)] *)
Definition dumps (r : dict) : string :=
  "{" +:+ Py.join ", "
            ((λ kv, quote kv.1 +:+ ": " +:+ dumps_value kv.2)
               <$> map_to_list r)
      +:+ "}".

(** The reader. *)
Definition is_ws (a : ascii) : bool :=
  let n := Py.ord a in ((n =? 32) || (n =? 9) || (n =? 10) || (n =? 13))%N.

Fixpoint skip_ws (s : string) : string :=
  match s with
  | String a s' => if is_ws a then skip_ws s' else s
  | EmptyString => EmptyString
  end.

Definition hex_value (a : ascii) : option N :=
  let n := Py.ord a in
  if Py.isdigit a then Some (n - 48)%N
  else if (97 <=? n)%N && (n <=? 102)%N then Some (n - 87)%N
  else if (65 <=? n)%N && (n <=? 70)%N then Some (n - 55)%N
  else None.

(** The text of a string after its opening quote, up to the closing
    one. *)
Fixpoint string_body (s : string) : option (string * string) :=
  match s with
  | EmptyString => None
  | String a s' =>
      if Py.eqc a dq then Some (EmptyString, s')
      else if Py.eqc a bs then
        match s' with
        | String e s'' =>
            let simple (c : ascii) :=
              '(t, r) ← string_body s''; Some (String c t, r) in
            if Py.eqc e dq then simple dq
            else if Py.eqc e bs then simple bs
            else if Py.eqc e "/" then simple "/"%char
            else if Py.eqc e "n" then simple (Py.chr 10)
            else if Py.eqc e "r" then simple (Py.chr 13)
            else if Py.eqc e "t" then simple (Py.chr 9)
            else if Py.eqc e "b" then simple (Py.chr 8)
            else if Py.eqc e "f" then simple (Py.chr 12)
            else if Py.eqc e "u" then
              match s'' with
              | String h1 (String h2 (String h3 (String h4 s4))) =>
                  a1 ← hex_value h1; a2 ← hex_value h2;
                  a3 ← hex_value h3; a4 ← hex_value h4;
                  if ((a1 =? 0) && (a2 =? 0))%N then
                    '(t, r) ← string_body s4;
                    Some (String (Py.chr (16 * a3 + a4)) t, r)
                  else None
              | _ => None
              end
            else None
        | EmptyString => None
        end
      else if (Py.ord a <? 32)%N then None
      else '(t, r) ← string_body s'; Some (String a t, r)
  end.

(** An integer: [0] or a digit from 1 to 9 followed by digits. *)
Definition natural (s : string) : option (Z * string) :=
  match s with
  | String "0" r => Some (0, r)
  | _ =>
      let '(ds, r) := Dateutil.digits s in
      match ds with
      | EmptyString => None
      | _ => Some (Dateutil.num ds, r)
      end
  end.

Fixpoint drop_chars (n : nat) (s : string) : string :=
  match n, s with
  | S n', String _ s' => drop_chars n' s'
  | _, _ => s
  end.

(** A value at the front of the text and the text behind it; [fuel]
    bounds the nesting and the number of elements. *)
Fixpoint value_of (fuel : nat) (s : string) : option (json * string) :=
  match fuel with
  | O => None
  | S fuel' =>
      if Py.startswith "NaN" s then Some (JNaN, drop_chars 3 s)
      else if Py.startswith "null" s then Some (JNull, drop_chars 4 s)
      else if Py.startswith "true" s then Some (JBool true, drop_chars 4 s)
      else if Py.startswith "false" s then Some (JBool false, drop_chars 5 s)
      else
      match s with
      | EmptyString => None
      | String a r =>
          if Py.eqc a dq then '(t, r') ← string_body r; Some (JStr t, r')
          else if Py.eqc a "-" then '(n, r') ← natural r; Some (JInt (- n), r')
          else if Py.isdigit a then '(n, r') ← natural s; Some (JInt n, r')
          else if Py.eqc a "[" then
            match skip_ws r with
            | String "]" r' => Some (JArr [], r')
            | r1 => '(l, r') ← elements fuel' r1; Some (JArr l, r')
            end
          else if Py.eqc a "{" then
            match skip_ws r with
            | String "}" r' => Some (JObj [], r')
            | r1 => '(l, r') ← members fuel' r1; Some (JObj l, r')
            end
          else None
      end
  end
with elements (fuel : nat) (s : string) : option (list json * string) :=
  match fuel with
  | O => None
  | S fuel' =>
      '(v, r) ← value_of fuel' s;
      match skip_ws r with
      | String "," r1 =>
          '(l, r') ← elements fuel' (skip_ws r1); Some (v :: l, r')
      | String "]" r1 => Some ([v], r1)
      | _ => None
      end
  end
with members (fuel : nat) (s : string) : option (list (string * json) * string) :=
  match fuel with
  | O => None
  | S fuel' =>
      match s with
      | String a r0 =>
          if Py.eqc a dq then
            '(k, r) ← string_body r0;
            match skip_ws r with
            | String ":" r1 =>
                '(v, r2) ← value_of fuel' (skip_ws r1);
                match skip_ws r2 with
                | String "," r3 =>
                    '(l, r') ← members fuel' (skip_ws r3);
                    Some ((k, v) :: l, r')
                | String "}" r3 => Some ([(k, v)], r3)
                | _ => None
                end
            | _ => None
            end
          else None
      | EmptyString => None
      end
  end.

(** [json.loads(s)]; [None] is its [JSONDecodeError]. *)
Definition loads (s : string) : option json :=
  let s := skip_ws s in
  '(v, r) ← value_of (S (String.length s)) s;
  if bool_decide (skip_ws r = EmptyString) then Some v else None.

(** A JSON object read as a record, when its members are strings,
    integers or missing. *)
Definition as_value (j : json) : option value :=
  match j with
  | JStr s => Some (VStr s)
  | JInt n => Some (VInt n)
  | JNaN | JNull => Some VNaN
  | _ => None
  end.

Definition as_record (j : json) : option dict :=
  match j with
  | JObj l =>
      kvs ← mapM (λ kv : string * json, v ← as_value kv.2; Some (kv.1, v)) l;
      Some (list_to_map (reverse kvs))
  | _ => None
  end.

Definition as_records (j : json) : option (list dict) :=
  match j with
  | JArr l => mapM as_record l
  | _ => None
  end.

End Json.

(** The file at a path: [None] when it does not exist, else its text. *)
Definition file := option string.

(** Iterating over a file opened for reading in text mode: the lines with
    their line ends. *)
Fixpoint readlines (s : string) : list string :=
  match s with
  | EmptyString => []
  | String a s' =>
      if Py.eqc a (Py.chr 10) then String a EmptyString :: readlines s'
      else match readlines s' with
           | l :: ls => String a l :: ls
           | [] => [String a EmptyString]
           end
  end.

Section Store.

Variable loads : string → option Json.json.

Definition json_loads (s : string) : result Json.json :=
  match loads s with
  | Some j => Ok j
  | None => Raise JSONDecodeError
  end.

Definition read_json (f : file) : result (list Json.json) :=
  match f with
  | None => Ok []
  | Some text => rmapM json_loads (readlines text)
  end.

(** [json.loads(open(PATH_DATA, 'r').read())] of [__main__]. *)
Definition read_whole (text : string) : result Json.json :=
  json_loads text.

End Store.

(** The text [save_json] leaves in the file. *)
Definition nl : string := String (Py.chr 10) EmptyString.

Definition save_json (ls : list dict) : string :=
  "[" +:+ nl +:+ "  " +:+ Py.join ("," +:+ nl +:+ "  ") (Json.dumps <$> ls)
      +:+ nl +:+ "]".

(** A scraped record with the nine fields every scraper fills. *)
Definition event (title date starttime endtime : string) : dict :=
  list_to_map
    [("title", VStr title); ("date", VStr date);
     ("starttime", VStr starttime); ("endtime", VStr endtime);
     ("location", VStr "Levine Hall"); ("description", VStr "");
     ("url", VStr "https://www.cis.upenn.edu/events/");
     ("speaker", VStr ""); ("owner", VStr "CIS")].

Definition today : Z * Z * Z := (2019, 2, 6).
Definition clock := Dateutil.parse_clock today.

(** A stored corpus of one event and a scraped batch with a time range
    and a record that comes twice. *)
Definition stored : list dict :=
  [<["event_index" := VInt 7]> (<["date_dt" := VStr ""]>
     (event "Seminar" "" "10:00 AM" "11:00 AM"))].

Definition scraped : list dict :=
  [event "Colloquium" "" "3:00 PM" "";
   event "Seminar" "" "10:00 AM - 12:00 PM" "";
   event "Colloquium" "" "3:00 PM" ""].

(** The two time columns of a normalised frame. *)
Definition times_of (m : result DataFrame) : result (list (value * value)) :=
  match m with
  | Ok df => Ok ((λ r, (cell r "starttime", cell r "endtime")) <$> rows df)
  | Raise e => Raise e
  end.

Definition failed {A} (m : result A) : bool :=
  match m with
  | Ok _ => false
  | Raise _ => true
  end.

(** A call that returns. *)
Definition returns {A} (m : result A) : Prop := ∃ a, m = Ok a.

(** The fields every scraper fills, as text. *)
Definition FIELDS : list string := "date" :: "endtime" :: KEY.

Definition has_fields (r : dict) : Prop :=
  ∀ c, c ∈ FIELDS → ∃ s, cell r c = VStr s.

(** [t] is an end of [s]. *)
Definition ends_with (s t : string) : Prop := ∃ pre, s = pre +:+ t.

(** The identifier of a record, the records that agree in everything but
    the identifier, and the records of the corpus file. *)
Definition index_of (r : dict) : value := cell r "event_index".

(** An identifier that a column of doubles holds as it is, with room for
    [count] more behind it: the doubles are exact up to 2^53. *)
Definition has_room (count : nat) (e : dict) : Prop :=
  ∃ n, index_of e = VInt n ∧ - 2 ^ 53 ≤ n ∧ n + Z.of_nat count ≤ 2 ^ 53.

Definition same_data (o r : dict) : Prop :=
  ∀ c, c ≠ "event_index" → cell o c = cell r c.

Definition existing (former : option (list dict)) : list dict :=
  default [] former.

(** The row [r] holds nothing outside the columns [cols]. *)
Definition covers (cols : list string) (r : dict) : Prop :=
  ∀ c, c ∉ cols → cell r c = VNaN.

(** What lines 2256 to 2260 make of the row [r0] of the filled frame: the
    row [r] differs in [date_dt], [starttime] and [endtime] only, which hold
    the results of the three normalisers. *)
Definition normalized (parse : string → option datetime) (r0 r : dict) : Prop :=
  (∀ c, c ∉ ["date_dt"; "starttime"; "endtime"] → r !! c = r0 !! c)
  ∧ (∃ d, clean_date_format parse (cell r0 "date") = Ok d
          ∧ cell r "date_dt" = VStr d)
  ∧ clean_starttime {["starttime" := cell r0 "starttime"]}
    = Ok (cell r "starttime")
  ∧ (if decide (cell r0 "endtime" = VStr "")
     then clean_endtime parse
            (<["starttime" := cell r "starttime"]> {["endtime" := VStr ""]})
          = Ok (cell r "endtime")
     else cell r "endtime" = cell r0 "endtime").

(** ** The calendar export: [convert_event_to_dict] and [fetch_events]

    An [event] element of the export is the list of its children in
    document order, each with its tag and its text ([None] for a child
    without text).  [BeautifulSoup(value, 'html.parser').text], [unidecode]
    and the built-in [int] are parameters; [None] stands for the
    [ValueError] of [int]. *)

Definition element := list (string * option string).

(** [event.find(key)]: the first child with that tag. *)
Fixpoint find (key : string) (e : element) : option (option string) :=
  match e with
  | [] => None
  | (tag, text) :: e' => if Py.eqs tag key then Some text else find key e'
  end.

(** [datetime.strptime(value, "%H:%M:%S")].  The library turns the format
    into the pattern
    [(?P<H>2[0-3]|[0-1]\d|\d):(?P<M>[0-5]\d|\d):(?P<S>6[0-1]|[0-5]\d|\d)],
    matches it at the start of the text, and raises when the pattern fails,
    when text remains behind the match, and when the second is 60 or 61.
    The matcher of [Re] records one group: [HMS i] is the pattern with the
    group around its field [i], and the three matches follow the same
    path. *)
Module Strptime.

Definition between (lo hi : ascii) : Re.cls :=
  λ a, ((Py.ord lo <=? Py.ord a) && (Py.ord a <=? Py.ord hi))%N.

Definition H : Re.re :=
  Re.alts [Re.Seq (Re.ch "2") (Re.Cls (between "0" "3"));
           Re.Seq (Re.Cls (between "0" "1")) (Re.Cls Re.digit);
           Re.Cls Re.digit].

Definition M : Re.re :=
  Re.alts [Re.Seq (Re.Cls (between "0" "5")) (Re.Cls Re.digit);
           Re.Cls Re.digit].

Definition S : Re.re :=
  Re.alts [Re.Seq (Re.ch "6") (Re.Cls (between "0" "1"));
           Re.Seq (Re.Cls (between "0" "5")) (Re.Cls Re.digit);
           Re.Cls Re.digit].

Definition HMS (i : nat) : Re.re :=
  let field (j : nat) (r : Re.re) := if Nat.eqb i j then Re.Grp r else r in
  Re.seqs [field 0%nat H; Re.ch ":"; field 1%nat M; Re.ch ":"; field 2%nat S].

Definition strptime (value : string) : result datetime :=
  match Re.match_at (HMS 0) value, Re.match_at (HMS 1) value,
        Re.match_at (HMS 2) value with
  | Some (h, rest), Some (m, _), Some (s, _) =>
      if bool_decide (rest = "") && (Dateutil.num s <? 60)
      then Ok (mk_datetime 1900 1 1 (Dateutil.num h) (Dateutil.num m))
      else Raise ValueError
  | _, _, _ => Raise ValueError
  end.

End Strptime.

Definition EXPORT_KEYS : list string :=
  ["date"; "starttime"; "endtime"; "title"; "description"; "location";
   "room"; "url"; "student"; "privacy"; "category"; "school"; "owner"].

Section CalendarExport.

Variable soup_text : string → string.
Variable unidecode : string → string.
Variable int : string → option Z.

(** One turn of the loop over the keys. *)
Definition convert_field (event : element) (event_dict : dict) (key : string)
    : result dict :=
  match find key event with
  | None => Raise AttributeError
  | Some text =>
      let value := default "" text in
      if Py.eqs key "description" then
        Ok (<[key := VStr (soup_text value)]> event_dict)
      else if Py.eqs key "starttime" || Py.eqs key "endtime" then
        t ← Strptime.strptime value;
        Ok (<[key := VStr (Datetime.strftime_IMp t)]> event_dict)
      else if Py.eqs key "url" then
        event_dict ←
          (if bool_decide (value ≠ "") then
             match int (Py.last (Py.split "/" value)) with
             | Some n => Ok (<["event_id" := VStr (pretty n)]> event_dict)
             | None => Raise ValueError
             end
           else Ok (<["event_id" := VStr ""]> event_dict));
        Ok (<[key := VStr value]> event_dict)
      else Ok (<[key := VStr (unidecode value)]> event_dict)
  end.

Fixpoint convert_fields (event : element) (event_dict : dict)
    (keys : list string) : result dict :=
  match keys with
  | [] => Ok event_dict
  | key :: keys' =>
      event_dict ← convert_field event event_dict key;
      convert_fields event event_dict keys'
  end.

Definition convert_event_to_dict (event : element) : result dict :=
  convert_fields event ∅ EXPORT_KEYS.

(** The loop of [fetch_events] over the events of the export: an event on
    which the conversion raises is passed over. *)
Fixpoint fetch_events (events : list element) : list dict :=
  match events with
  | [] => []
  | event :: events' =>
      match convert_event_to_dict event with
      | Ok event_dict => event_dict :: fetch_events events'
      | Raise _ => fetch_events events'
      end
  end.

End CalendarExport.

(** The reading of [int] on the decimal numerals made of digits only; no
    other string belongs to that fragment.  It is there to evaluate the
    conversion. *)
Definition int_decimal (s : string) : option Z :=
  match Dateutil.digits s with
  | (String a d, EmptyString) => Some (Dateutil.num (String a d))
  | _ => None
  end.

(** An event of the export with the thirteen children. *)
Definition export_event (starttime endtime url : string) : element :=
  [("date", Some "2019-02-06"); ("starttime", Some starttime);
   ("endtime", Some endtime); ("title", Some "Colloquium");
   ("description", Some "A talk"); ("location", Some "Levine Hall");
   ("room", None); ("url", Some url); ("student", Some "0");
   ("privacy", Some "0"); ("category", Some "Talk");
   ("school", Some "SEAS"); ("owner", Some "CIS")].

(** ** Text of an element: [stringify_children]

    An element of an [lxml] tree: its text, its children and its tail, the
    text between its end and the next element. *)

#[warnings="-register-all"] Inductive node :=
| Node (text : option string) (children : list node) (tail : option string).

Definition node_text (n : node) : option string :=
  match n with Node text _ _ => text end.
Definition getchildren (n : node) : list node :=
  match n with Node _ children _ => children end.
Definition node_tail (n : node) : option string :=
  match n with Node _ _ tail => tail end.

(** [filter(None, parts)] keeps the strings that are not empty. *)
Definition truthy (p : option string) : option string :=
  match p with
  | Some (String a s) => Some (String a s)
  | _ => None
  end.

Definition stringify_children (n : node) : string :=
  let parts :=
    ([node_text n] ++ (getchildren n ≫= λ c, [node_text c; node_tail c])
       ++ [node_tail n])%list in
  Py.join "" (omap truthy parts).

(** ** An article of MindCORE: [extract_mindcore_event_detail]

    The function looks five things up in the article: the text of the
    title, of the first meta item, of the content and of the time, [None]
    when the element is not there, and the first link with its [href]. *)

Record article := mk_article {
  article_title : option string;
  article_date : option string;
  article_content : option string;
  article_time : option string;
  article_link : option (option string)
}.

Definition extract_mindcore_event_detail (event : article) : result dict :=
  let title := default "" (Py.strip <$> article_title event) in
  let date := default "" (article_date event) in
  let description := default "" (Py.strip <$> article_content event) in
  let event_time := default "" (Py.strip <$> article_time event) in
  '(starttime, endtime) ←
    (if Py.contains "-" event_time then
       match Py.split "-" event_time with
       | [starttime; endtime] => Ok (starttime, endtime)
       | _ => Raise ValueError
       end
     else Ok (event_time, ""));
  match article_link event with
  | None => Raise AttributeError
  | Some href =>
      let event_url := default "" href in
      let speaker :=
        if Py.contains ":" title
        then Py.strip (Py.last (Py.split ":" title)) else "" in
      Ok (list_to_map
            [("title", VStr title); ("date", VStr date);
             ("location", VStr ""); ("description", VStr description);
             ("starttime", VStr starttime); ("endtime", VStr endtime);
             ("url", VStr event_url); ("speaker", VStr speaker);
             ("owner", VStr "MindCORE")])
  end.

(** ** The text of an event for the topic vectors: [preprocess]

    [unidecode] and the Porter stemmer are parameters.  [str.lower] on the
    code points below 256 moves the letters [A-Z] and the capital letters
    of Latin-1 by 32; [punct_re] is the class of the 32 characters of
    [string.punctuation]; the tokenizer of NLTK is a parameter as well. *)

Module Text.

Definition lower (a : ascii) : ascii :=
  let n := Py.ord a in
  if ((65 <=? n) && (n <=? 90)
      || (192 <=? n) && (n <=? 222) && negb (n =? 215))%N
  then Py.chr (n + 32) else a.

Definition isupper_ascii (a : ascii) : bool :=
  let n := Py.ord a in ((65 <=? n) && (n <=? 90))%N.

Definition punctuation (a : ascii) : bool :=
  let n := Py.ord a in
  ((33 <=? n) && (n <=? 47) || (58 <=? n) && (n <=? 64)
   || (91 <=? n) && (n <=? 96) || (123 <=? n) && (n <=? 126))%N.

Fixpoint map (f : ascii → ascii) (s : string) : string :=
  match s with
  | EmptyString => EmptyString
  | String a s' => String (f a) (map f s')
  end.

End Text.

Section Preprocess.

Variable unidecode : string → string.
Variable stem : string → string.

(** [w_tokenizer.tokenize] *)
Variable tokenize : string → list string.

Definition preprocess (text : option string) (stemming : bool) : string :=
  let text := default "" text in
  let text := Text.map Text.lower (unidecode text) in
  let text := Text.map (λ a, if Text.punctuation a then " "%char else a) text in
  if stemming then
    let words := tokenize text in
    Py.join " " (stem <$> words)
  else
    let words := tokenize text in
    Py.join " " (stem <$> words).

End Preprocess.

(** ** The topic vectors: lines 2283 to 2300

    The two models of scikit-learn are parameters: [tfidf] is
    [TfidfVectorizer(...).fit_transform], from the texts to a matrix, and
    [svd K] is [TruncatedSVD(n_components=K, ...).fit_transform], from that
    matrix to its rows of numbers; either may raise.  [corpus] is the
    content of the corpus file as [json.loads] reads it, and the result is
    the list of records handed to [save_json]: an identifier and a vector
    each. *)

Record entry (F : Type) := mk_entry {
  entry_index : value;
  entry_vector : list F
}.

Arguments mk_entry {F}.
Arguments entry_index {F}.
Arguments entry_vector {F}.

Definition TEXT : list string := ["title"; "description"; "location"; "starttime"].

Definition N_COMPONENTS : nat := 30.

(** [' '.join([e[1] for e in r.items()])] on the four cells of a row;
    [join] raises on a cell that is no string. *)
Definition join_items (r : dict) : result string :=
  items ← rmapM (λ c, match cell r c with
                      | VStr s => Ok s
                      | _ => Raise TypeError
                      end) TEXT;
  Ok (Py.join " " items).

Section Vectors.

Variable unidecode : string → string.
Variable stem : string → string.
Variable tokenize : string → list string.
Variables matrix F : Type.
Variable tfidf : list string → result matrix.
Variable svd : nat → matrix → result (list (list F)).

(** The frame has its identifiers in a column of doubles when a record
    lacks its identifier.  The assignment of the column [event_vector]
    raises unless there are as many vectors as rows. *)
Definition vectorize (corpus : list dict) : result (list (entry F)) :=
  let events_df := Pd.retype "event_index" (Pd.of_records corpus) in
  text_columns ← rmapM (Pd.col events_df) TEXT;
  events_text ← rmapM join_items (rows events_df);
  let events_preprocessed_text :=
    (λ text, preprocess unidecode stem tokenize (Some text) true)
      <$> events_text in
  X_tfidf ← tfidf events_preprocessed_text;
  lsa_vectors ← svd N_COMPONENTS X_tfidf;
  if bool_decide (List.length lsa_vectors = List.length (rows events_df)) then
    event_index ← Pd.col events_df "event_index";
    Ok (zip_with mk_entry event_index lsa_vectors)
  else Raise ValueError.

End Vectors.

Arguments vectorize _ _ _ {matrix F}.

(** Stand-ins of the right shape for the libraries of the topic vectors:
    a tokenizer that finds one word, a matrix that is its number of rows,
    and vectors of zeros. *)
Definition one_word (s : string) : list string := [s].

Definition unit_tfidf (texts : list string) : result nat :=
  Ok (List.length texts).

Definition zero_svd (K : nat) (X : nat) : result (list (list Z)) :=
  Ok (replicate X (replicate K 0)).

(** The JSON value and the JSON object that [Json.dumps] writes for a cell
    and for a record, and one member of the text of a record. *)
Definition to_json (v : value) : Json.json :=
  match v with
  | VStr s => Json.JStr s
  | VInt n => Json.JInt n
  | VNaN => Json.JNaN
  end.

Definition to_members (kvs : list (string * value)) : list (string * Json.json) :=
  (λ kv, (kv.1, to_json kv.2)) <$> kvs.

Definition member (kv : string * value) : string :=
  Json.quote kv.1 +:+ ": " +:+ Json.dumps_value kv.2.

(** The text that a scan went through: its characters and its matches, for a
    pattern that is one group. *)
Definition pieces_text (l : list Re.piece) : string :=
  foldr (λ p acc, match p with
                  | Re.Hit g => g +:+ acc
                  | Re.Lit a => String a acc
                  end) EmptyString l.

(** The patterns that end in [.*]. *)
Inductive ends_in_dot_star : Re.re → Prop :=
| dot_star_last : ends_in_dot_star (Re.star Re.dot)
| dot_star_seq (r1 r2 : Re.re) :
    ends_in_dot_star r2 → ends_in_dot_star (Re.Seq r1 r2).

(** * Properties *)

(** ** Evaluations of the model *)

Example split_range :
  Py.split "-" "10:00 AM - 11:00 AM" = ["10:00 AM "; " 11:00 AM"].
Proof. reflexivity. Qed.

Example strip_both : Py.strip "  a b  " = "a b".
Proof. reflexivity. Qed.

Example replace_tokens :
  Py.replace "EDT" "" "3pm EDT, EDT" = "3pm , ".
Proof. reflexivity. Qed.

Example clock_findall :
  Re.findall CLOCK "Talk from 2:00 PM to 3:00 PM" = ["2:00 PM"; "3:00 PM"].
Proof. reflexivity. Qed.

Example clock_sub :
  Re.sub CLOCK "" "Oct 3, 2018 11:30am" = "Oct 3, 2018 ".
Proof. reflexivity. Qed.

Example clock_dotted :
  Re.findall CLOCK "at 10:15 a.m. sharp, 12:00P.M." = ["10:15 a.m."; "12:00P.M."].
Proof. reflexivity. Qed.

Example pattern_weekday :
  Re.sub_group1 (Re.seqs [Re.plus Re.alpha; Re.lit ", ";
                          Re.Grp (Re.seqs a_date_comma_year); Re.star Re.dot])
    "Tuesday, October 30, 2018 at noon" = "October 30, 2018".
Proof. reflexivity. Qed.

Example four_pm :
  Datetime.strftime_IMp (mk_datetime 2019 2 6 16 0) = "04:00 PM".
Proof. vm_compute. reflexivity. Qed.

Example midnight_rollover :
  Datetime.add_hour (mk_datetime 2019 2 28 23 30)
  = Some (mk_datetime 2019 3 1 0 30).
Proof. reflexivity. Qed.

Example parse_three_pm :
  Dateutil.parse_clock (2019, 2, 6) "3:00 PM" = Some (mk_datetime 2019 2 6 15 0).
Proof. reflexivity. Qed.

Example parse_noon_midnight :
  hour <$> Dateutil.parse_clock (2019, 2, 6) "12:15 PM" = Some 12
  ∧ hour <$> Dateutil.parse_clock (2019, 2, 6) "12:15am" = Some 0.
Proof. split; reflexivity. Qed.

(** ** The error monad *)

Lemma rmapM_cons_raise {A B} (f : A → result B) (x : A) (l : list A) (e : exn) :
  f x = Raise e → rmapM f (x :: l) = Raise e.
Proof. intros H. simpl. by rewrite H. Qed.

Lemma Ok_inj {A} (a b : A) : Ok a = Ok b → a = b.
Proof. by intros [= ->]. Qed.

Lemma bind_ok {A B} (m : result A) (k : A → result B) (b : B) :
  m ≫= k = Ok b → ∃ a, m = Ok a ∧ k a = Ok b.
Proof. destruct m; [eauto|done]. Qed.

Lemma rmapM_ok {A B} (f : A → result B) (l : list A) (l' : list B) :
  rmapM f l = Ok l' → Forall2 (λ x y, f x = Ok y) l l'.
Proof.
  revert l'. induction l as [|x l IH]; intros l' H; simpl in H.
  - injection H as <-. constructor.
  - apply bind_ok in H as (y & Hy & H). apply bind_ok in H as (ys & Hys & H).
    injection H as <-. constructor; auto.
Qed.

(** ** Strings *)

Lemma sapp_cons (a : ascii) (s t : string) : String a s +:+ t = String a (s +:+ t).
Proof. reflexivity. Qed.

Lemma sapp_nil_l (t : string) : "" +:+ t = t.
Proof. reflexivity. Qed.

Lemma sapp_assoc (s t u : string) : (s +:+ t) +:+ u = s +:+ t +:+ u.
Proof.
  induction s as [|a s IH]; [reflexivity|].
  rewrite !sapp_cons. by rewrite IH.
Qed.

Lemma eqc_true (a b : ascii) : Py.eqc a b = true ↔ a = b.
Proof. apply Ascii.eqb_eq. Qed.

Lemma contains_app (c : ascii) (s t : string) :
  Py.contains c (s +:+ t) = Py.contains c s || Py.contains c t.
Proof.
  induction s as [|a s IH]; [reflexivity|].
  rewrite sapp_cons. simpl. rewrite IH. by rewrite orb_assoc.
Qed.

Lemma split_nonempty (c : ascii) (s : string) : ∃ h t, Py.split c s = h :: t.
Proof.
  induction s as [|a s (h & t & IH)]; simpl; [eauto|].
  destruct (Py.eqc a c); [eauto|]. rewrite IH. eauto.
Qed.

Lemma split_no_sep (c : ascii) (s : string) :
  Py.contains c s = false → Py.split c s = [s].
Proof.
  induction s as [|a s IH]; simpl; [done|].
  intros [Ha Hs]%orb_false_iff. rewrite Ha. by rewrite IH.
Qed.

(** The segments around one separator are the segments of the two sides. *)
Lemma split_app_sep (c : ascii) (x y : string) :
  Py.split c (x +:+ String c y) = (Py.split c x ++ Py.split c y)%list.
Proof.
  induction x as [|a x IH].
  - rewrite sapp_nil_l. simpl. assert (Py.eqc c c = true) as -> by by apply eqc_true.
    done.
  - rewrite sapp_cons. simpl. rewrite IH.
    destruct (Py.eqc a c); [done|].
    destruct (split_nonempty c x) as (h & t & ->). done.
Qed.

Lemma first_split (c : ascii) (pre rest : string) :
  Py.contains c pre = false →
  Py.first (Py.split c (pre +:+ String c rest)) = pre.
Proof.
  intros Hpre. rewrite split_app_sep. by rewrite split_no_sep.
Qed.

Lemma last_split (c : ascii) (rest post : string) :
  Py.contains c post = false →
  Py.last (Py.split c (rest +:+ String c post)) = post.
Proof.
  intros Hpost. rewrite split_app_sep. rewrite (split_no_sep c post) by done.
  unfold Py.last. apply last_last.
Qed.

(** No separator is left in the first segment of a split, trimmed or
    not. *)
Lemma contains_lstrip (c : ascii) (s : string) :
  Py.contains c s = false → Py.contains c (Py.lstrip s) = false.
Proof.
  induction s as [|a s IH]; simpl; [done|].
  intros H. destruct (Py.isspace a); [|done].
  apply IH. by apply orb_false_iff in H as [_ ?].
Qed.

Lemma contains_rstrip (c : ascii) (s : string) :
  Py.contains c s = false → Py.contains c (Py.rstrip s) = false.
Proof.
  induction s as [|a s IH]; simpl; [done|].
  intros [Ha Hs]%orb_false_iff. specialize (IH Hs).
  destruct (Py.rstrip s) eqn:E.
  - destruct (Py.isspace a); simpl; [done|]. by rewrite Ha.
  - simpl in *. by rewrite Ha, IH.
Qed.

Lemma contains_strip (c : ascii) (s : string) :
  Py.contains c s = false → Py.contains c (Py.strip s) = false.
Proof. intros. by apply contains_rstrip, contains_lstrip. Qed.

Lemma contains_first_split (c : ascii) (s : string) :
  Py.contains c (Py.first (Py.split c s)) = false.
Proof.
  induction s as [|a s IH]; simpl; [done|].
  destruct (Py.eqc a c) eqn:E; [done|].
  destruct (split_nonempty c s) as (h & t & Hs). rewrite Hs in *.
  simpl in *. by rewrite E, IH.
Qed.

(** ** Start and end of a time range: [clean_starttime], [clean_endtime] *)

(** C10.  When [starttime] holds more than one ['-'], [clean_starttime]
    returns the trimmed text in front of the first one and the range branch
    of [clean_endtime] the trimmed text behind the last one; whatever stands
    between the two, dashes included, is dropped. *)
Theorem range_with_several_dashes
    (parse : string → option datetime) (r : dict) (pre mid post : string) :
  r !! "starttime" = Some (VStr (pre +:+ "-" +:+ mid +:+ "-" +:+ post)) →
  Py.contains "-" pre = false →
  Py.contains "-" post = false →
  clean_starttime r = Ok (VStr (Py.strip pre))
  ∧ clean_endtime parse r = Ok (VStr (Py.strip post)).
Proof.
  intros Hr Hpre Hpost. unfold clean_starttime, clean_endtime. rewrite Hr.
  assert (Py.contains "-" (pre +:+ "-" +:+ mid +:+ "-" +:+ post) = true) as ->.
  { rewrite contains_app. apply orb_true_iff. right. reflexivity. }
  split.
  - change (pre +:+ "-" +:+ mid +:+ "-" +:+ post)
      with (pre +:+ String "-" (mid +:+ "-" +:+ post)).
    by rewrite first_split.
  - replace (pre +:+ "-" +:+ mid +:+ "-" +:+ post)
      with ((pre +:+ "-" +:+ mid) +:+ String "-" post).
    + by rewrite last_split.
    + by rewrite !sapp_assoc.
Qed.

Lemma range_with_several_dashes_witness :
  clean_starttime (event "Colloquium" "" "10:00 AM - 11:00 AM - 12:00 PM" "")
    = Ok (VStr "10:00 AM")
  ∧ clean_endtime clock
      (event "Colloquium" "" "10:00 AM - 11:00 AM - 12:00 PM" "")
    = Ok (VStr "12:00 PM").
Proof.
  apply (range_with_several_dashes clock _ "10:00 AM " " 11:00 AM " " 12:00 PM");
    reflexivity.
Defined.

(** The start time that [clean_starttime] returns holds no ['-']. *)
Lemma clean_starttime_no_dash (r : dict) (s : string) :
  r !! "starttime" = Some (VStr s) →
  ∃ s', clean_starttime r = Ok (VStr s') ∧ Py.contains "-" s' = false.
Proof.
  intros Hr. unfold clean_starttime. rewrite Hr.
  destruct (Py.contains "-" s) eqn:E; [|by eauto].
  eexists. split; [done|]. apply contains_strip, contains_first_split.
Qed.

(** On a start time without ['-'], [clean_endtime] is the hour after it,
    or else the end time of the record. *)
Lemma clean_endtime_no_dash
    (parse : string → option datetime) (r : dict) (s : string) :
  r !! "starttime" = Some (VStr s) →
  Py.contains "-" s = false →
  clean_endtime parse r =
    match one_hour_later parse s with
    | Some e => Ok (VStr e)
    | None => match r !! "endtime" with
              | Some v => Ok v
              | None => Raise (KeyError "endtime")
              end
    end.
Proof. intros Hr Hs. unfold clean_endtime. by rewrite Hr, Hs. Qed.

(** C5, as the code has it.  For a start time without ['-'] that the
    general parser reads as the clock time [t] of a day before the last
    year, [clean_endtime] returns the hour after [t] on the 12-hour clock,
    hour and minute both written with two digits, followed by AM or PM.  For
    ["3:00 PM"] that is ["04:00 PM"]. *)
Theorem endtime_one_hour_later
    (parse : string → option datetime) (r : dict) (s : string) (t : datetime) :
  r !! "starttime" = Some (VStr s) →
  Py.contains "-" s = false →
  parse s = Some t →
  year t < Datetime.MAXYEAR →
  0 ≤ hour t < 24 →
  let h := (hour t + 1) mod 24 in
  clean_endtime parse r =
    Ok (VStr (Datetime.pad2 (Datetime.hour12 h) +:+ ":"
              +:+ Datetime.pad2 (minute t) +:+ " "
              +:+ (if h <? 12 then "AM" else "PM")))
  ∧ (hour t = 15 → minute t = 0 →
     clean_endtime parse r = Ok (VStr "04:00 PM")).
Proof.
  intros Hr Hs Hp Hy Hh h.
  assert (clean_endtime parse r =
    Ok (VStr (Datetime.pad2 (Datetime.hour12 h) +:+ ":"
              +:+ Datetime.pad2 (minute t) +:+ " "
              +:+ (if h <? 12 then "AM" else "PM")))) as Hgen.
  { rewrite (clean_endtime_no_dash parse r s Hr Hs).
    unfold one_hour_later. rewrite Hp. simpl.
    unfold Datetime.add_hour, h.
    destruct (hour t <? 23) eqn:E23.
    - apply Z.ltb_lt in E23. simpl. unfold Datetime.strftime_IMp. simpl.
      rewrite (Z.mod_small (hour t + 1) 24) by lia. done.
    - apply Z.ltb_ge in E23. assert (hour t = 23) as E by lia.
      rewrite E. change ((23 + 1) mod 24) with 0.
      destruct (day t <? _); [done|].
      destruct (month t <? 12); [done|].
      assert ((year t <? Datetime.MAXYEAR) = true) as -> by (by apply Z.ltb_lt).
      done. }
  split; [done|].
  intros H15 H0. rewrite Hgen. unfold h. rewrite H15, H0. reflexivity.
Qed.

Lemma endtime_one_hour_later_witness :
  clean_endtime clock (event "Colloquium" "" "3:00 PM" "") = Ok (VStr "04:00 PM")
  ∧ clean_endtime clock (event "Colloquium" "" "11:30 PM" "") = Ok (VStr "12:30 AM").
Proof.
  split.
  - apply (endtime_one_hour_later clock _ "3:00 PM" (mk_datetime 2019 2 6 15 0));
      try reflexivity; vm_compute; try split; congruence.
  - apply (endtime_one_hour_later clock _ "11:30 PM" (mk_datetime 2019 2 6 23 30));
      try reflexivity; vm_compute; try split; congruence.
Defined.

(** C5, as the specification words it, fails: the hour is padded, so the
    end time of ["3:00 PM"] is not ["4:00 PM"]. *)
Lemma endtime_three_pm_is_padded :
  clean_endtime clock (event "Colloquium" "" "3:00 PM" "") ≠ Ok (VStr "4:00 PM").
Proof. vm_compute. congruence. Qed.

(** ** Clock times in free text: [find_startend_time] *)

(** C7.  With one match of the clock pattern the result is that match and
    the empty string, with two matches the two of them in order, and with
    none or more than two the pair of empty strings. *)
Theorem find_startend_time_cases (s : string) :
  (∀ t0, Re.findall CLOCK s = [t0] → find_startend_time s = (t0, ""))
  ∧ (∀ t0 t1, Re.findall CLOCK s = [t0; t1] → find_startend_time s = (t0, t1))
  ∧ (List.length (Re.findall CLOCK s) = 0%nat
     ∨ (2 < List.length (Re.findall CLOCK s))%nat →
     find_startend_time s = ("", ""))
  ∧ find_startend_time "Talk from 2:00 PM to 3:00 PM" = ("2:00 PM", "3:00 PM")
  ∧ find_startend_time "no times here" = ("", "").
Proof.
  unfold find_startend_time. repeat split.
  - by intros t0 ->.
  - by intros t0 t1 ->.
  - destruct (Re.findall CLOCK s) as [|t0 [|t1 [|t2 ts]]]; simpl; [done| | |done].
    + intros [?|?]; [done|lia].
    + intros [?|?]; [done|lia].
Qed.

Lemma find_startend_time_cases_witness :
  find_startend_time "Doors open at 9:30 AM" = ("9:30 AM", "")
  ∧ find_startend_time "9:00 am, 10:15 am and 1:00 pm sessions" = ("", "").
Proof.
  split.
  - apply (proj1 (find_startend_time_cases _)). reflexivity.
  - apply (proj1 (proj2 (proj2 (find_startend_time_cases _)))).
    right. vm_compute. lia.
Defined.

(** ** Dates: [clean_date_format] *)

Lemma try_patterns_none
    (parse : string → option datetime) (pats : list Re.re) (d : string) :
  existsb (λ pat, Re.matches pat d) pats = false →
  try_patterns parse pats d = parse_dmY parse d.
Proof.
  induction pats as [|pat pats IH]; simpl; [done|].
  intros [Hpat Hpats]%orb_false_iff. rewrite Hpat. auto.
Qed.

(** A date that is empty after the clean-up is the empty string. *)
Lemma clean_date_format_empty (parse : string → option datetime) (d : string) :
  parse d = None → cleanup d = "" →
  clean_date_format parse (VStr d) = Ok "".
Proof. intros Hp Hc. unfold clean_date_format. by rewrite Hp, Hc. Qed.

(** C4 on the code.  When the general parser rejects the date, the
    cleaned text is not empty, no pattern matches it and the parser rejects
    it again, [clean_date_format] raises: the second call of the parser
    stands in the [except] branch, outside any [try]. *)
Theorem clean_date_format_raises
    (parse : string → option datetime) (d : string) :
  parse d = None →
  cleanup d ≠ "" →
  existsb (λ pat, Re.matches pat (cleanup d)) PATS = false →
  parse (cleanup d) = None →
  clean_date_format parse (VStr d) = Raise ValueError.
Proof.
  intros Hp Hne Hpats Hp'. unfold clean_date_format. rewrite Hp.
  rewrite bool_decide_eq_true_2 by done.
  rewrite try_patterns_none by done.
  unfold parse_dmY. by rewrite Hp'.
Qed.

Lemma clean_date_format_raises_witness :
  clean_date_format clock (VStr "TBA") = Raise ValueError.
Proof.
  apply clean_date_format_raises.
  - reflexivity.
  - vm_compute. congruence.
  - vm_compute. reflexivity.
  - reflexivity.
Defined.

(** ** The order of the two time steps in [__main__] *)

(** C6 on the code.  [__main__] rewrites the [starttime] column before it
    fills the empty end times, so [clean_endtime] never sees the range: for
    the range ["10:00 AM - 12:00 PM"] the end time becomes the hour after the
    start, ["11:00 AM"], and the text behind the dash is lost. *)
Theorem range_end_lost_in_pipeline :
  times_of (normalize clock true [event "Seminar" "" "10:00 AM - 12:00 PM" ""])
  = Ok [(VStr "10:00 AM", VStr "11:00 AM")].
Proof. vm_compute. reflexivity. Qed.

(** Whatever the parser, the row that [__main__] hands to [clean_endtime]
    carries the start time [clean_starttime] returned, and so takes the
    branch without a range. *)
Lemma clean_endtime_after_clean_starttime
    (parse : string → option datetime) (r : dict) (s : string) :
  r !! "starttime" = Some (VStr s) →
  ∃ s', clean_starttime r = Ok (VStr s')
    ∧ clean_endtime parse (<["starttime" := VStr s']> r) =
        match one_hour_later parse s' with
        | Some e => Ok (VStr e)
        | None => match r !! "endtime" with
                  | Some v => Ok v
                  | None => Raise (KeyError "endtime")
                  end
        end.
Proof.
  intros Hr. destruct (clean_starttime_no_dash r s Hr) as (s' & Hs' & Hno).
  exists s'. split; [done|].
  rewrite (clean_endtime_no_dash parse _ s'); [|by rewrite lookup_insert_eq|done].
  by rewrite lookup_insert_ne.
Qed.

(** ** The corpus files: [read_json] and [save_json] *)

Lemma readlines_save_json (ls : list dict) :
  ∃ rest, readlines (save_json ls) = ("[" +:+ nl) :: rest.
Proof.
  unfold save_json. set (body := "  " +:+ _).
  change ("[" +:+ nl +:+ body) with (String "[" (String (Py.chr 10) body)).
  cbn [readlines]. change (Py.eqc "[" (Py.chr 10)) with false.
  change (Py.eqc (Py.chr 10) (Py.chr 10)) with true. cbv iota. eauto.
Qed.

(** C8 on the code.  Without a file [read_json] returns the empty list.
    On the file that [save_json] wrote it raises, whatever the saved list:
    it reads the file line by line, and the first line is the opening
    bracket alone, which is no JSON text. *)
Theorem read_json_of_saved_file (loads : string → option Json.json) :
  read_json loads None = Ok []
  ∧ (loads ("[" +:+ nl) = None →
     ∀ ls, read_json loads (Some (save_json ls)) = Raise JSONDecodeError).
Proof.
  split; [done|]. intros Hloads ls. unfold read_json.
  destruct (readlines_save_json ls) as (rest & ->).
  apply rmapM_cons_raise. unfold json_loads. by rewrite Hloads.
Qed.

Lemma read_json_of_saved_file_witness :
  read_json Json.loads
    (Some (save_json [<["event_index" := VInt 0]> (event "Colloquium" "" "3:00 PM" "04:00 PM")]))
  = Raise JSONDecodeError.
Proof.
  apply (proj2 (read_json_of_saved_file Json.loads)). vm_compute. reflexivity.
Defined.

(** The way [__main__] itself reads the file, the whole text at once,
    gives the saved records back. *)
Example read_whole_of_saved_file :
  let corpus :=
    [<["event_index" := VInt 0]> (event "Colloquium" "" "3:00 PM" "04:00 PM");
     <["event_index" := VInt 1]> (event "Seminar" "" "10:00 AM" "11:00 AM")] in
  match read_whole Json.loads (save_json corpus) with
  | Ok j => Json.as_records j
  | Raise _ => None
  end = Some corpus.
Proof. apply (bool_decide_unpack _). vm_compute. exact I. Qed.

Example loads_missing_cell :
  Json.loads (Json.dumps {["event_id" := VNaN]})
  = Some (Json.JObj [("event_id", Json.JNaN)]).
Proof. vm_compute. reflexivity. Qed.

(** ** A run without new records *)

Lemma collect_all_failed (fetched : list (result (list dict))) :
  forallb failed fetched = true → collect fetched = [].
Proof.
  induction fetched as [|[evs|e] fetched IH]; simpl; [done|done|auto].
Qed.

(** C3 on the code.  With an empty batch the frame of the new records
    has no column, and the run stops with [KeyError] at
    [events_df['date']], before the merge, whatever the corpus; so does a
    run in which every scraper fails. *)
Theorem empty_batch_raises
    (parse : string → option datetime) (strict : bool) (former : option (list dict)) :
  run parse strict former [] = Raise (KeyError "date")
  ∧ (∀ fetched, forallb failed fetched = true →
     main parse strict former fetched = Raise (KeyError "date")).
Proof.
  assert (run parse strict former [] = Raise (KeyError "date")) as H by done.
  split; [done|]. intros fetched Hf. unfold main.
  by rewrite collect_all_failed.
Qed.

Lemma empty_batch_raises_witness :
  main clock true
    (Some [<["event_index" := VInt 0]> (event "Colloquium" "" "3:00 PM" "04:00 PM")])
    [Raise ValueError; Raise AttributeError]
  = Raise (KeyError "date").
Proof.
  apply (proj2 (empty_batch_raises clock true _)). reflexivity.
Defined.

(** ** Data frames *)

Lemma lookup_series (cols : list string) (r : dict) (c : string) :
  Pd.series cols r !! c = if bool_decide (c ∈ cols) then Some (cell r c) else None.
Proof.
  unfold Pd.series. induction cols as [|c' cols IH].
  - simpl. by rewrite lookup_empty.
  - rewrite fmap_cons, list_to_map_cons. destruct (decide (c' = c)) as [->|Hne].
    + rewrite lookup_insert_eq. rewrite bool_decide_eq_true_2; [done|by left].
    + rewrite lookup_insert_ne by done. rewrite IH.
      assert (c ∈ c' :: cols ↔ c ∈ cols) as Hiff.
      { rewrite elem_of_cons. split; [by intros [->|?]|by right]. }
      by rewrite (bool_decide_ext _ _ Hiff).
Qed.

Lemma cell_series (cols : list string) (r : dict) (c : string) :
  cell (Pd.series cols r) c = if bool_decide (c ∈ cols) then cell r c else VNaN.
Proof. unfold cell at 1. rewrite lookup_series. by case_bool_decide. Qed.

Lemma cell_insert (r : dict) (c c' : string) (v : value) :
  cell (<[c := v]> r) c' = if decide (c = c') then v else cell r c'.
Proof. unfold cell. rewrite lookup_insert. by case_decide. Qed.

Lemma elem_of_set_col_columns (c c' : string) (vals : list value) (df : DataFrame) :
  c' ∈ columns (Pd.set_col c vals df) ↔ c' ∈ columns df ∨ c' = c.
Proof.
  unfold Pd.set_col. simpl. case_bool_decide.
  - split; [by left|]. intros [?| ->]; done.
  - rewrite elem_of_app, list_elem_of_singleton. done.
Qed.

Lemma zip_with_Forall2 {A B C} (Q : A → B → Prop) (h : A → B → C)
    (l : list A) (ys : list B) :
  Forall2 Q l ys →
  Forall2 (λ x z, ∃ y, Q x y ∧ z = h x y) l (zip_with h l ys).
Proof. induction 1; simpl; constructor; eauto. Qed.

(** The normalisers read the time fields of the record only. *)
Lemma clean_starttime_ext (x y : dict) :
  x !! "starttime" = y !! "starttime" → clean_starttime x = clean_starttime y.
Proof. intros H. unfold clean_starttime. by rewrite H. Qed.

Lemma clean_endtime_ext (parse : string → option datetime) (x y : dict) :
  x !! "starttime" = y !! "starttime" → x !! "endtime" = y !! "endtime" →
  clean_endtime parse x = clean_endtime parse y.
Proof. intros H1 H2. unfold clean_endtime. by rewrite H1, H2. Qed.

Lemma col_ok (df : DataFrame) (c : string) (vals : list value) :
  Pd.col df c = Ok vals →
  c ∈ columns df ∧ vals = (λ r, cell r c) <$> rows df.
Proof. unfold Pd.col. case_bool_decide; [|done]. by intros [= <-]. Qed.

(** The rows and columns of the frame of the new batch. *)
Lemma normalize_rows
    (parse : string → option datetime) (strict : bool) (events : list dict) (df : DataFrame) :
  normalize parse strict events = Ok df →
  let df0 := Pd.fillna (VStr "") (Pd.of_records events) in
  (∀ c, c ∈ columns df ↔ c ∈ columns df0 ∨ c = "date_dt" ∨ c = "starttime")
  ∧ "endtime" ∈ columns df
  ∧ Forall2 (normalized parse) (rows df0) (rows df).
Proof.
  intros H. unfold normalize in H. cbv zeta in *.
  set (df0 := Pd.fillna (VStr "") (Pd.of_records events)) in *.
  apply bind_ok in H as (dates & Hdates & H).
  apply bind_ok in H as (dts & Hdts & H).
  apply bind_ok in H as (starts & Hst & H).
  case_bool_decide as Hend; [|done].
  destruct (strict && forallb _ _); [done|].
  apply bind_ok in H as (rows' & Hrows & H). apply Ok_inj in H as Hdf.
  apply col_ok in Hdates as [_ ->].
  apply rmapM_ok, Forall2_fmap_l in Hdts.
  apply rmapM_ok in Hst. apply rmapM_ok in Hrows.
  unfold Pd.apply in Hst.
  set (df1 := Pd.set_col "date_dt" (VStr <$> dts) df0) in *.
  set (df2 := Pd.set_col "starttime" starts df1) in *.
  assert (∀ c, c ∈ columns df2 ↔ c ∈ columns df0 ∨ c = "date_dt" ∨ c = "starttime")
    as Hcols.
  { intros c. unfold df2, df1. rewrite !elem_of_set_col_columns. tauto. }
  assert (rows df1 = zip_with (λ r v, <["date_dt" := v]> r) (rows df0) (VStr <$> dts))
    as Hrows1 by done.
  assert (rows df2 = zip_with (λ r v, <["starttime" := v]> r) (rows df1) starts)
    as Hrows2 by done.
  remember (columns df2) as cols2 eqn:Ec2. remember (rows df2) as rows2 eqn:Er2.
  clear Ec2 Er2 df2.
  remember (columns df1) as cols1 eqn:Ec1. remember (rows df1) as rows1 eqn:Er1.
  clear Ec1 Er1 df1. subst rows2 rows1 df. simpl.
  split; [done|]. split; [done|].
  assert (Forall2 (λ r0 r1, ∃ v, (∃ d, clean_date_format parse (cell r0 "date") = Ok d
                                       ∧ v = VStr d)
                                 ∧ r1 = <["date_dt" := v]> r0)
            (rows df0) (zip_with (λ r v, <["date_dt" := v]> r) (rows df0) (VStr <$> dts)))
    as S1.
  { apply zip_with_Forall2, Forall2_fmap_r.
    eapply Forall2_impl; [exact Hdts|]. simpl. eauto. }
  apply (zip_with_Forall2 _ (λ r v, <["starttime" := v]> r)) in Hst.
  assert (Forall2 (λ r1 r', ∃ s, clean_starttime (Pd.series cols1 r1) = Ok s
                    ∧ set_endtime parse cols2 (<["starttime" := s]> r1) = Ok r')
            (zip_with (λ r v, <["date_dt" := v]> r) (rows df0) (VStr <$> dts)) rows')
    as S3.
  { eapply Forall2_trans; [|exact Hst|exact Hrows].
    intros r1 r2 r' (s & Hs & ->) Hr'. eauto. }
  eapply Forall2_trans; [|exact S1|exact S3].
  clear -Hcols Hend. intros r0 r1 r' (v & (d & Hd & ->) & ->) (s & Hs & Hr').
  assert ("starttime" ∈ cols1) as Hin1.
  { unfold clean_starttime in Hs. rewrite lookup_series in Hs.
    by case_bool_decide. }
  assert (clean_starttime {["starttime" := cell r0 "starttime"]} = Ok s) as Hs'.
  { rewrite <- Hs. apply clean_starttime_ext.
    rewrite lookup_singleton_eq, lookup_series.
    rewrite bool_decide_eq_true_2 by done. by rewrite cell_insert. }
  unfold set_endtime in Hr'. rewrite !cell_insert in Hr'. simpl in Hr'.
  unfold normalized. case_decide as He0.
  - rewrite bool_decide_eq_true_2 in Hr' by done.
    apply bind_ok in Hr' as (e & He & [= <-]).
    split; [|split; [|split]].
    + intros c Hc. rewrite !lookup_insert_ne; [done|..];
        intros <-; apply Hc; repeat constructor.
    + exists d. split; [done|]. by rewrite !cell_insert.
    + by rewrite !cell_insert.
    + rewrite !cell_insert. simpl. rewrite <- He. apply clean_endtime_ext.
      * rewrite lookup_insert_eq, lookup_series.
        rewrite bool_decide_eq_true_2 by (apply Hcols; auto).
        by rewrite cell_insert.
      * rewrite lookup_insert_ne by done. rewrite lookup_singleton_eq, lookup_series.
        rewrite bool_decide_eq_true_2 by done.
        rewrite !cell_insert. simpl. by rewrite He0.
  - rewrite bool_decide_eq_false_2 in Hr' by done. injection Hr' as <-.
    split; [|split; [|split]].
    + intros c Hc. rewrite !lookup_insert_ne; [done|..];
        intros <-; apply Hc; repeat constructor.
    + exists d. split; [done|]. by rewrite !cell_insert.
    + by rewrite !cell_insert.
    + by rewrite !cell_insert.
Qed.

Lemma elem_of_keys (r : dict) (c : string) : c ∈ Pd.keys r ↔ is_Some (r !! c).
Proof.
  unfold Pd.keys. rewrite list_elem_of_fmap. split.
  - intros ([k v] & -> & Hkv). apply elem_of_map_to_list in Hkv. simpl. by eexists.
  - intros [v Hv]. exists (c, v). split; [reflexivity|]. by apply elem_of_map_to_list.
Qed.

Lemma elem_of_columns_of_records (events : list dict) (c : string) :
  c ∈ columns (Pd.of_records events) ↔ ∃ e, e ∈ events ∧ is_Some (e !! c).
Proof.
  simpl. rewrite elem_of_remove_dups, list_elem_of_bind.
  split; intros (e & H1 & H2); exists e.
  - by rewrite <- elem_of_keys.
  - by rewrite elem_of_keys.
Qed.

Lemma cell_fillna_row (v : value) (cols : list string) (r : dict) (c : string) :
  cell (Pd.fill v <$> Pd.series cols r) c =
    if bool_decide (c ∈ cols) then Pd.fill v (cell r c) else VNaN.
Proof.
  unfold cell at 1. rewrite lookup_fmap, lookup_series.
  case_bool_decide; reflexivity.
Qed.

(** ** Keeping the first record of every key: [drop_duplicates] *)

Section FirstSeen.

Context {K : Type} `{EqDecision K} (key : dict → K).

Lemma first_seen_fresh (seen : list K) (l : list dict) (o : dict) :
  o ∈ Pd.first_seen key seen l → key o ∉ seen.
Proof.
  revert seen. induction l as [|r l IH]; intros seen; simpl.
  - by intros ?%elem_of_nil.
  - case_decide as Hr; [by apply IH|].
    intros [->|Ho]%elem_of_cons; [done|].
    apply IH in Ho. intros ?. apply Ho. by right.
Qed.

Lemma first_seen_NoDup (seen : list K) (l : list dict) :
  NoDup (key <$> Pd.first_seen key seen l).
Proof.
  revert seen. induction l as [|r l IH]; intros seen; simpl; [constructor|].
  case_decide as Hr; [by apply IH|].
  rewrite fmap_cons. constructor; [|by apply IH].
  intros (o & Hk & Ho)%list_elem_of_fmap.
  apply first_seen_fresh in Ho. apply Ho. rewrite <- Hk. by left.
Qed.

Lemma first_seen_complete (seen : list K) (l : list dict) (r : dict) :
  r ∈ l → key r ∈ seen ∨ key r ∈ key <$> Pd.first_seen key seen l.
Proof.
  revert seen. induction l as [|r' l IH]; intros seen; simpl.
  - by intros ?%elem_of_nil.
  - intros [->|Hr]%elem_of_cons.
    + case_decide; [by left|]. right. rewrite fmap_cons. by left.
    + case_decide as Hr'; [by apply IH|].
      destruct (IH (key r' :: seen) Hr) as [[->|?]%elem_of_cons|?].
      * right. rewrite fmap_cons. by left.
      * by left.
      * right. rewrite fmap_cons. by right.
Qed.

(** A record that is kept is the first one of the list with its key. *)
Lemma first_seen_first (seen : list K) (l : list dict) (o : dict) :
  o ∈ Pd.first_seen key seen l →
  ∃ i, l !! i = Some o
       ∧ ∀ j r, (j < i)%nat → l !! j = Some r → key r ≠ key o.
Proof.
  revert seen. induction l as [|r l IH]; intros seen; simpl.
  - by intros ?%elem_of_nil.
  - case_decide as Hr.
    + intros Ho. pose proof (first_seen_fresh _ _ _ Ho) as Hfresh.
      destruct (IH _ Ho) as (i & Hi & Hfirst). exists (S i). split; [done|].
      intros [|j] r' Hj Hr'; simpl in Hr'.
      * injection Hr' as <-. congruence.
      * apply (Hfirst j); [lia|done].
    + intros [->|Ho]%elem_of_cons.
      * exists 0%nat. split; [done|]. intros j r' Hj. lia.
      * pose proof (first_seen_fresh _ _ _ Ho) as Hfresh.
        destruct (IH _ Ho) as (i & Hi & Hfirst). exists (S i). split; [done|].
        intros [|j] r' Hj Hr'; simpl in Hr'.
        -- injection Hr' as <-. intros E. apply Hfresh. rewrite <- E. by left.
        -- apply (Hfirst j); [lia|done].
Qed.

Lemma first_seen_subset (seen : list K) (l : list dict) (o : dict) :
  o ∈ Pd.first_seen key seen l → o ∈ l.
Proof.
  intros (i & Hi & _)%first_seen_first. apply list_elem_of_lookup. eauto.
Qed.

(** Over a concatenation: the kept records of the first list, then those
    of the second whose key the first list did not show. *)
Lemma first_seen_app (seen : list K) (l1 l2 : list dict) :
  Pd.first_seen key seen (l1 ++ l2) =
    (Pd.first_seen key seen l1
     ++ Pd.first_seen key
          (reverse (key <$> Pd.first_seen key seen l1) ++ seen) l2)%list.
Proof.
  revert seen. induction l1 as [|r l1 IH]; intros seen; simpl; [done|].
  case_decide as Hr; [by apply IH|].
  rewrite IH. simpl. f_equal. rewrite reverse_cons.
  by rewrite <- List.app_assoc.
Qed.

(** A list without two records of one key is kept whole. *)
Lemma first_seen_id (seen : list K) (l : list dict) :
  NoDup (key <$> l) → (∀ r, r ∈ l → key r ∉ seen) →
  Pd.first_seen key seen l = l.
Proof.
  revert seen. induction l as [|r l IH]; intros seen Hnd Hseen; simpl; [done|].
  rewrite fmap_cons in Hnd. apply NoDup_cons in Hnd as [Hr Hnd].
  rewrite decide_False by (apply Hseen; by left).
  f_equal. apply IH; [done|].
  intros r' Hr' [E|Hin]%elem_of_cons.
  - apply Hr. rewrite <- E. by apply list_elem_of_fmap_2.
  - by apply (Hseen r'); [right|].
Qed.

End FirstSeen.

(** ** The steps of the merge *)

Lemma drop_duplicates_ok (cs : list string) (df df' : DataFrame) :
  Pd.drop_duplicates cs df = Ok df' →
  (∀ c, c ∈ cs → c ∈ columns df)
  ∧ columns df' = columns df
  ∧ rows df' = Pd.first_seen (λ r, cell r <$> cs) [] (rows df).
Proof.
  unfold Pd.drop_duplicates.
  destruct (filter _ cs) as [|c l] eqn:E; [|done]. intros [= <-].
  split; [|done]. intros c Hc.
  destruct (decide (c ∈ columns df)) as [|Hn]; [done|].
  assert (c ∈ filter (λ c, c ∉ columns df) cs) as Hin
    by by apply list_elem_of_filter.
  rewrite E in Hin. by apply elem_of_nil in Hin.
Qed.

Lemma ints_ok (l : list value) (ns : list Z) :
  Pd.ints l = Ok ns →
  (∀ n, VInt n ∈ l ↔ n ∈ ns) ∧ Forall (λ v, ∀ s, v ≠ VStr s) l.
Proof.
  revert ns. induction l as [|[s|n|] l IH]; intros ns H; simpl in H.
  - injection H as <-. split; [|constructor].
    intros n. split; by intros ?%elem_of_nil.
  - done.
  - apply bind_ok in H as (ns' & Hns' & [= <-]).
    destruct (IH _ Hns') as [IH1 IH2]. split; [|by constructor].
    intros m. rewrite !elem_of_cons, IH1. split; intros [E|?]; auto.
    + left. congruence.
    + left. congruence.
  - destruct (IH _ H) as [IH1 IH2]. split; [|by constructor].
    intros m. rewrite elem_of_cons, IH1. split; [|auto]. by intros [?|?].
Qed.

Lemma foldr_max_spec (n : Z) (ns : list Z) :
  foldr Z.max n ns ∈ n :: ns ∧ ∀ m, m ∈ n :: ns → m ≤ foldr Z.max n ns.
Proof.
  induction ns as [|k ns [IH1 IH2]]; simpl.
  - split; [by left|]. intros m [->|?%elem_of_nil]%elem_of_cons; [lia|done].
  - split.
    + destruct (Z.max_spec k (foldr Z.max n ns)) as [[_ ->]|[_ ->]].
      * apply elem_of_cons in IH1 as [->|?]; [by left|]. right. by right.
      * right. by left.
    + intros m [->|[->|Hm]%elem_of_cons]%elem_of_cons.
      * specialize (IH2 n ltac:(by left)). lia.
      * lia.
      * specialize (IH2 m ltac:(by right)). lia.
Qed.

(** The maximum that [col_max] returns is an identifier of the column and
    bounds all of them. *)
Lemma col_max_ok (l : list value) (top : Z) :
  Pd.col_max l = Ok top →
  VInt top ∈ l ∧ ∀ n, VInt n ∈ l → n ≤ top.
Proof.
  unfold Pd.col_max. intros H. apply bind_ok in H as (ns & Hns & H).
  apply ints_ok in Hns as [Hns _]. destruct ns as [|n ns]; [done|].
  injection H as <-. destruct (foldr_max_spec n ns) as [H1 H2].
  split; [by apply Hns|]. intros m Hm. by apply H2, Hns.
Qed.

Lemma astype_int_ok (c : string) (l l' : list dict) :
  rmapM (Pd.astype_int c) l = Ok l' →
  l' = l ∧ Forall (λ r, ∃ n, cell r c = VInt n) l.
Proof.
  intros H%rmapM_ok. induction H as [|r r' l l' Hr _ [-> IH]]; [done|].
  unfold Pd.astype_int in Hr. destruct (cell r c) eqn:E; try done.
  injection Hr as <-. split; [done|]. constructor; eauto.
Qed.

Lemma fill_null_app (c : string) (next : Z) (l1 l2 : list dict) :
  Forall (λ r, ∃ n, cell r c = VInt n) l1 →
  Pd.fill_null c next (l1 ++ l2) = (l1 ++ Pd.fill_null c next l2)%list.
Proof.
  induction 1 as [|r l1 [n Hn] _ IH]; simpl; [done|]. by rewrite Hn, IH.
Qed.

Lemma fill_null_all (c : string) (next : Z) (l : list dict) :
  Forall (λ r, cell r c = VNaN) l →
  (λ r, cell r c) <$> Pd.fill_null c next l
  = (λ i, VInt (next + Z.of_nat i)) <$> seq 0 (List.length l).
Proof.
  intros H. revert next. induction H as [|r l Hr _ IH]; intros next; simpl; [done|].
  rewrite Hr. simpl. rewrite cell_insert, decide_True by done.
  rewrite Z.add_0_r. f_equal. rewrite IH.
  rewrite <- (fmap_S_seq 0), <- list_fmap_compose.
  apply list_fmap_ext. intros _ i _. simpl. f_equal. lia.
Qed.

(** The records that [to_dict] hands out. *)
Lemma series_same_data (cols : list string) (r : dict) :
  covers cols r → ∀ c, cell (Pd.series cols r) c = cell r c.
Proof.
  intros Hr c. rewrite cell_series. case_bool_decide; [done|].
  symmetry. by apply Hr.
Qed.

Lemma same_data_key (o r : dict) : same_data o r → key_of o = key_of r.
Proof.
  intros H. unfold key_of, KEY. simpl. by rewrite !H.
Qed.

Lemma covers_mono (cols cols' : list string) (r : dict) :
  (∀ c, c ∈ cols → c ∈ cols') → covers cols r → covers cols' r.
Proof. intros Hsub Hr c Hc. apply Hr. auto. Qed.

Lemma covers_of_records (events : list dict) :
  Forall (covers (columns (Pd.of_records events))) events.
Proof.
  apply Forall_forall. intros e He c Hc. unfold cell.
  destruct (e !! c) as [v|] eqn:E; [|done].
  exfalso. apply Hc, elem_of_columns_of_records. eauto.
Qed.

Lemma covers_normalize
    (parse : string → option datetime) (strict : bool) (events : list dict) (df : DataFrame) :
  normalize parse strict events = Ok df → Forall (covers (columns df)) (rows df).
Proof.
  intros (Hcols & Hend & Hrows)%normalize_rows.
  eapply Forall2_Forall_r; [exact Hrows|].
  apply Forall_forall. intros r0 Hr0 r (Hsame & _) c Hc.
  assert (c ∉ ["date_dt"; "starttime"; "endtime"]) as Hc3.
  { intros Hin. apply Hc. rewrite !elem_of_cons in Hin.
    destruct Hin as [->|[->|[->|?%elem_of_nil]]]; [| |done|done];
      apply Hcols; auto. }
  assert (cell r c = cell r0 c) as ->.
  { unfold cell. by rewrite (Hsame c Hc3). }
  unfold Pd.fillna in Hr0. simpl in Hr0.
  apply list_elem_of_fmap in Hr0 as (e & -> & He).
  rewrite cell_fillna_row. rewrite bool_decide_eq_false_2; [done|].
  intros Hin. apply Hc, Hcols. by left.
Qed.

Lemma to_dict_indexed (cols : list string) (l : list dict) (a : nat) :
  "event_index" ∈ cols →
  Forall (covers cols) l →
  let out := Pd.series cols <$>
               zip_with (λ r v, <["event_index" := v]> r) l
                 (VInt <$> (Z.of_nat <$> seq a (List.length l))) in
  Forall2 same_data out l
  ∧ index_of <$> out = (λ i, VInt (Z.of_nat i)) <$> seq a (List.length l).
Proof.
  intros Hin Hl. revert a. induction Hl as [|r l Hr _ IH]; intros a; simpl.
  - split; [constructor|done].
  - destruct (IH (S a)) as [IH1 IH2]. split.
    + constructor; [|done]. intros c Hc. rewrite cell_series.
      case_bool_decide as Hcc.
      * rewrite cell_insert. by rewrite decide_False.
      * symmetry. by apply Hr.
    + f_equal; [|done]. unfold index_of. rewrite cell_series.
      rewrite bool_decide_eq_true_2 by done. by rewrite cell_insert, decide_True.
Qed.

(** The column types: a cell in its column, a frame retyped. *)
Lemma cell_alter_dtype (t : Pd.dtype) (c : string) (r : dict) (c' : string) :
  cell (alter (Pd.as_dtype t) c r) c'
  = if decide (c = c') then Pd.as_dtype t (cell r c') else cell r c'.
Proof.
  unfold cell. destruct (decide (c = c')) as [<-|Hne].
  - rewrite lookup_alter_eq. destruct (r !! c); [done|]. by destruct t.
  - by rewrite lookup_alter_ne.
Qed.

Lemma same_data_alter (t : Pd.dtype) (r : dict) :
  same_data (alter (Pd.as_dtype t) "event_index" r) r.
Proof. intros c Hc. rewrite cell_alter_dtype. by rewrite decide_False. Qed.

Lemma covers_alter (cols : list string) (t : Pd.dtype) (c : string) (r : dict) :
  covers cols r → covers cols (alter (Pd.as_dtype t) c r).
Proof.
  intros Hr c' Hc'. rewrite cell_alter_dtype, (Hr c' Hc').
  case_decide; [by destruct t|done].
Qed.

Lemma same_data_trans (a b c : dict) : same_data a b → same_data b c → same_data a c.
Proof. intros H1 H2 k Hk. by rewrite (H1 k Hk), (H2 k Hk). Qed.

Lemma fill_from_same_data (vals : list Z) (l : list dict) :
  Forall2 same_data (Pd.fill_from "event_index" vals l) l.
Proof.
  revert vals. induction l as [|r l IH]; intros vals; simpl; [constructor|].
  destruct (cell r "event_index"), vals; constructor; try done.
  intros c Hc. rewrite cell_insert. by rewrite decide_False.
Qed.

Lemma fill_from_covers (cols : list string) (vals : list Z) (l : list dict) :
  "event_index" ∈ cols → Forall (covers cols) l →
  Forall (covers cols) (Pd.fill_from "event_index" vals l).
Proof.
  intros Hin Hl. revert vals. induction Hl as [|r l Hr _ IH]; intros vals; simpl;
    [constructor|].
  destruct (cell r "event_index"), vals; constructor; try done.
  intros c Hc. rewrite cell_insert. case_decide as E; [by subst c|by apply Hr].
Qed.

(** Rows that agree on their keys are kept and dropped alike. *)
Lemma first_seen_Forall2 {K} `{EqDecision K} (key : dict → K)
    (P : dict → dict → Prop) (seen : list K) (l l' : list dict) :
  Forall2 (λ a b, key a = key b ∧ P a b) l l' →
  Forall2 (λ a b, key a = key b ∧ P a b)
    (Pd.first_seen key seen l) (Pd.first_seen key seen l').
Proof.
  intros H. revert seen. induction H as [|a b l l' [Hk HP] _ IH]; intros seen;
    simpl; [constructor|].
  rewrite Hk. case_decide; [done|]. constructor; [done|]. rewrite <- Hk at 1.
  rewrite Hk. done.
Qed.

(** The rows of the old corpus in their frame. *)
Lemma retype_rows (records : list dict) :
  Forall2 (λ a b, key_of a = key_of b ∧ same_data a b)
    (rows (Pd.retype "event_index" (Pd.of_records records))) records.
Proof.
  unfold Pd.retype. simpl. apply Forall2_fmap_l, Forall_Forall2_diag, Forall_forall.
  intros r _. split; [|apply same_data_alter].
  apply same_data_key, same_data_alter.
Qed.

(** The saved records of a run: the first records of every key, old
    corpus first, each with its identifier.  With [old] the rows of the
    frame of the old corpus and [t] the type of the column of identifiers
    of the concatenated frame, the identifiers saved are those of the first
    rows of every key, once the rows without identifier have taken the
    numbers of [np.arange], as the column holds them. *)
Lemma run_shape
    (parse : string → option datetime) (strict : bool) (former : option (list dict))
    (events out : list dict) :
  run parse strict former events = Ok out →
  ∃ df, normalize parse strict events = Ok df
    ∧ let fs := Pd.first_seen key_of [] (existing former ++ rows df) in
      Forall2 same_data out fs
      ∧ match former with
        | None =>
            index_of <$> out
            = (λ i, VInt (Z.of_nat i)) <$> seq 0 (List.length fs)
        | Some records =>
            let old := rows (Pd.retype "event_index" (Pd.of_records records)) in
            let t := Pd.dtype_of (index_of <$> (old ++ rows df)%list) in
            let fs' := Pd.first_seen key_of [] (old ++ rows df) in
            ∃ top numbers,
              Pd.col_max (index_of <$> old) = Ok top
              ∧ Pd.numbers (Pd.dtype_of (index_of <$> old)) top
                  (Pd.count_null "event_index" fs') = Ok numbers
              ∧ index_of <$> out
                = (λ r, Pd.as_dtype t (index_of r))
                    <$> Pd.fill_from "event_index" numbers fs'
              ∧ Forall (λ o, ∃ n, index_of o = VInt n) out
        end.
Proof.
  unfold run. intros H. apply bind_ok in H as (df & Hdf & H).
  exists df. split; [done|]. pose proof (covers_normalize _ _ _ _ Hdf) as Hcov.
  destruct former as [records|]; simpl in *.
  - apply bind_ok in H as (dd & Hdd & H).
    apply drop_duplicates_ok in Hdd as (Hkey & Hcols & Hrows).
    apply bind_ok in H as (idx & Hidx & H).
    apply col_ok in Hidx as [Hin ->].
    apply bind_ok in H as (top & Htop & H).
    apply bind_ok in H as (numbers & Hnum & H).
    apply bind_ok in H as (rows'' & Hast & H). apply Ok_inj in H as <-.
    apply astype_int_ok in Hast as [-> Hint].
    unfold Pd.to_dict. simpl. simpl in Hrows, Hcols. rewrite Hrows in *.
    rewrite Hcols.
    set (old := alter _ "event_index" <$> records) in *.
    set (t := Pd.dtype_of _) in *.
    set (fs' := Pd.first_seen _ [] (old ++ rows df)) in *.
    set (cols := (remove_dups (records ≫= Pd.keys) ++ _)%list).
    assert ("event_index" ∈ cols) as Hin' by (apply elem_of_app; by left).
    assert (Forall2 (λ a b, key_of a = key_of b ∧ same_data a b)
              (old ++ rows df) (records ++ rows df)) as Hcat.
    { apply Forall2_app; [apply retype_rows|].
      apply Forall_Forall2_diag, Forall_forall. by intros r _. }
    assert (Forall (covers cols) fs') as Hfs.
    { apply Forall_forall. intros r Hr%first_seen_subset.
      apply elem_of_app in Hr as [Hr|Hr].
      - unfold old in Hr. apply list_elem_of_fmap in Hr as (r0 & -> & Hr0).
        apply covers_alter.
        eapply covers_mono;
          [|by eapply Forall_forall; [apply covers_of_records|]].
        intros c Hc. apply elem_of_app. by left.
      - eapply covers_mono; [|by eapply Forall_forall; [apply Hcov|]].
        intros c Hc. apply elem_of_app.
        destruct (decide (c ∈ remove_dups (records ≫= Pd.keys))); [by left|].
        right. by apply list_elem_of_filter. }
    pose proof (fill_from_covers cols numbers fs' Hin' Hfs) as Hfill.
    split; [|exists top, numbers; split; [done|split; [done|split]]].
    + apply (first_seen_Forall2 key_of same_data []) in Hcat. fold fs' in Hcat.
      eapply Forall2_trans; [| |eapply Forall2_impl; [exact Hcat|]];
        [apply same_data_trans| |by intros ?? [_ ?]].
      eapply Forall2_trans; [| |apply fill_from_same_data];
        [apply same_data_trans|].
      rewrite <- list_fmap_compose. apply Forall2_fmap_l, Forall_Forall2_diag.
      eapply Forall_impl; [exact Hfill|]. intros r Hr. simpl.
      eapply same_data_trans; [|apply same_data_alter].
      intros c Hc. apply series_same_data. by apply covers_alter.
    + rewrite <- !list_fmap_compose. apply list_fmap_ext. intros _ r _. simpl.
      unfold index_of. rewrite cell_series, bool_decide_eq_true_2 by done.
      by rewrite cell_alter_dtype, decide_True.
    + apply Forall_fmap. eapply Forall_impl; [exact Hint|].
      intros r [n Hn]. exists n. simpl.
      unfold index_of. by rewrite cell_series, bool_decide_eq_true_2.
  - apply bind_ok in H as (dd & Hdd & H).
    apply drop_duplicates_ok in Hdd as (Hkey & Hcols & Hrows).
    apply Ok_inj in H as <-. unfold Pd.to_dict.
    destruct dd as [ddc ddr]. simpl in Hcols, Hrows. subst ddc ddr.
    set (fs := Pd.first_seen _ [] (rows df)).
    change (Pd.first_seen key_of [] (rows df)) with fs.
    unfold Pd.arange. set (vals := VInt <$> _).
    pose proof (elem_of_set_col_columns "event_index" "event_index" vals
                  (mk_frame (columns df) fs)) as Hidx.
    pose proof (λ c, elem_of_set_col_columns "event_index" c vals
                  (mk_frame (columns df) fs)) as Hsub.
    change (rows (Pd.set_col "event_index" vals (mk_frame (columns df) fs)))
      with (zip_with (λ r v, <["event_index" := v]> r) fs vals).
    remember (columns (Pd.set_col "event_index" vals (mk_frame (columns df) fs)))
      as cols' eqn:E. clear E. subst vals.
    apply to_dict_indexed.
    + apply Hidx. by right.
    + apply Forall_forall. intros r Hr%first_seen_subset.
      eapply covers_mono; [|by eapply Forall_forall; [apply Hcov|]].
      intros c Hc. apply Hsub. by left.
Qed.

Lemma same_data_keys (out fs : list dict) :
  Forall2 same_data out fs → key_of <$> out = key_of <$> fs.
Proof.
  induction 1 as [|o r out fs Hor _ IH]; [done|].
  rewrite !fmap_cons. f_equal; [by apply same_data_key|done].
Qed.

(** The key of a normalised row is decided by the row it comes from. *)
Lemma normalized_key
    (parse : string → option datetime) (r0 r r' : dict) :
  normalized parse r0 r → normalized parse r0 r' → key_of r = key_of r'.
Proof.
  intros (Hs & _ & Hst & _) (Hs' & _ & Hst' & _).
  assert (cell r "starttime" = cell r' "starttime") as E by congruence.
  assert (∀ c, c ∉ ["date_dt"; "starttime"; "endtime"] → cell r c = cell r' c)
    as Hc.
  { intros c Hc. unfold cell. by rewrite Hs, Hs'. }
  unfold key_of, KEY. simpl.
  rewrite E, (Hc "owner"), (Hc "location"), (Hc "title"),
    (Hc "description"), (Hc "url"); [done|..];
    rewrite !elem_of_cons, elem_of_nil; intros [?|[?|[?|[]]]]; discriminate.
Qed.

(** ** Merge: one record per key, the first one *)

(** C1.  After a run, with [cat] the records of the old corpus followed
    by the normalised rows of the new batch: no two saved records have the
    same six-field key; every record of [cat] has its key among the saved
    ones; every saved record is, identifier apart, the first record of
    [cat] with its key; a saved record whose key occurs in the old corpus
    is a record of the old corpus; two equal scraped records get the same
    key, and a batch made of one record fed twice into an absent corpus
    saves exactly one record. *)
Theorem merge_keeps_first_of_each_key
    (parse : string → option datetime) (strict : bool) (former : option (list dict))
    (events out : list dict) :
  run parse strict former events = Ok out →
  ∃ df, normalize parse strict events = Ok df
    ∧ let cat := (existing former ++ rows df)%list in
      NoDup (key_of <$> out)
      ∧ (∀ r, r ∈ cat → key_of r ∈ key_of <$> out)
      ∧ (∀ o, o ∈ out →
           ∃ i r, cat !! i = Some r ∧ same_data o r
             ∧ ∀ j r', (j < i)%nat → cat !! j = Some r' → key_of r' ≠ key_of r)
      ∧ (∀ o e, o ∈ out → e ∈ existing former → key_of o = key_of e →
           ∃ e', e' ∈ existing former ∧ same_data o e')
      ∧ (∀ i j e r r', events !! i = Some e → events !! j = Some e →
           rows df !! i = Some r → rows df !! j = Some r' →
           key_of r = key_of r')
      ∧ (∀ e, former = None → events = [e; e] → ∃ o, out = [o]).
Proof.
  intros Hrun. destruct (run_shape _ _ _ _ _ Hrun) as (df & Hdf & Hout & _).
  exists df. split; [done|]. cbv zeta in *.
  set (cat := (existing former ++ rows df)%list) in *.
  pose proof (same_data_keys _ _ Hout) as Hkeys.
  assert (∀ o, o ∈ out →
            ∃ i r, cat !! i = Some r ∧ same_data o r
              ∧ ∀ j r', (j < i)%nat → cat !! j = Some r' → key_of r' ≠ key_of r)
    as Hfirst.
  { intros o (k & Hk)%list_elem_of_lookup.
    destruct (Forall2_lookup_l _ _ _ _ _ Hout Hk) as (r & Hr & Hor).
    assert (r ∈ Pd.first_seen key_of [] cat) as Hin
      by (apply list_elem_of_lookup; eauto).
    apply first_seen_first in Hin as (i & Hi & Hlt). eauto. }
  destruct (normalize_rows _ _ _ _ Hdf) as (_ & _ & Hrows).
  assert (∀ i j e r r', events !! i = Some e → events !! j = Some e →
            rows df !! i = Some r → rows df !! j = Some r' →
            key_of r = key_of r') as Hsame.
  { intros i j e r r' Hi Hj Hr Hr'. simpl in Hrows.
    destruct (Forall2_lookup_r _ _ _ _ _ Hrows Hr) as (r0 & Hr0 & Hn).
    destruct (Forall2_lookup_r _ _ _ _ _ Hrows Hr') as (r0' & Hr0' & Hn').
    rewrite list_lookup_fmap, Hi in Hr0. rewrite list_lookup_fmap, Hj in Hr0'.
    simpl in Hr0, Hr0'. injection Hr0 as <-. injection Hr0' as <-.
    by eapply normalized_key. }
  split; [|split; [|split; [|split; [|split]]]].
  - rewrite Hkeys. apply first_seen_NoDup.
  - intros r Hr. rewrite Hkeys.
    destruct (first_seen_complete key_of [] cat r Hr) as [?%elem_of_nil|?]; done.
  - done.
  - intros o e Ho He Hk. destruct (Hfirst o Ho) as (i & r & Hi & Hor & Hlt).
    exists r. split; [|done].
    apply list_elem_of_lookup in He as (j & Hj).
    destruct (decide (i < List.length (existing former))%nat) as [Hlen|Hlen].
    + unfold cat in Hi. rewrite lookup_app_l in Hi by done.
      apply list_elem_of_lookup. eauto.
    + exfalso. apply (Hlt j e).
      * apply lookup_lt_Some in Hj. lia.
      * unfold cat. by rewrite lookup_app_l by by eapply lookup_lt_Some.
      * rewrite <- Hk. by apply same_data_key.
  - done.
  - intros e -> ->. simpl in Hrows.
    apply Forall2_cons_inv_l in Hrows as (r1 & rs & Hn1 & Hrows & Erows).
    apply Forall2_cons_inv_l in Hrows as (r2 & rs' & Hn2 & Hrows & ->).
    apply Forall2_nil_inv_l in Hrows as ->.
    assert (key_of r2 = key_of r1) as Hk by by eapply normalized_key.
    unfold cat in Hout. rewrite Erows in Hout. simpl in Hout.
    destruct (decide (key_of r1 ∈ [])) as [?%elem_of_nil|_]; [done|].
    destruct (decide (key_of r2 ∈ [key_of r1])) as [_|Hn];
      [|exfalso; apply Hn; rewrite Hk; by left].
    apply Forall2_cons_inv_r in Hout as (o & os & _ & Hos & ->).
    apply Forall2_nil_inv_r in Hos as ->. eauto.
Qed.

Lemma merge_keeps_first_of_each_key_witness :
  ∃ out, run clock true (Some stored) scraped = Ok out
         ∧ NoDup (key_of <$> out)
         ∧ List.length out = 2%nat.
Proof.
  assert (match run clock true (Some stored) scraped with
          | Ok l => List.length l = 2%nat
          | Raise _ => False
          end) as Hlen by (vm_compute; reflexivity).
  remember (run clock true (Some stored) scraped) as m eqn:Hrun.
  destruct m as [out|e]; [|exact (False_ind _ Hlen)].
  symmetry in Hrun.
  exists out. split; [reflexivity|]. split; [|exact Hlen].
  destruct (merge_keeps_first_of_each_key _ _ _ _ _ Hrun) as (df & _ & Hnd & _).
  exact Hnd.
Defined.

(** ** Merge: the identifiers *)

Lemma rows_without_index
    (parse : string → option datetime) (strict : bool) (events : list dict) (df : DataFrame) :
  normalize parse strict events = Ok df →
  Forall (λ e, e !! "event_index" = None) events →
  Forall (λ r, index_of r = VNaN) (rows df).
Proof.
  intros (_ & _ & Hrows)%normalize_rows Hev.
  eapply Forall2_Forall_r; [exact Hrows|].
  apply Forall_forall. intros r0 Hr0 r (Hsame & _).
  unfold Pd.fillna in Hr0. simpl in Hr0.
  apply list_elem_of_fmap in Hr0 as (e & -> & He).
  unfold index_of, cell. rewrite Hsame.
  - fold (cell (Pd.fill (VStr "") <$>
                  Pd.series (remove_dups (events ≫= Pd.keys)) e) "event_index").
    rewrite cell_fillna_row. rewrite bool_decide_eq_false_2; [done|].
    intros (e' & He' & [v Hv])%(elem_of_columns_of_records events).
    rewrite Forall_forall in Hev. by rewrite (Hev e' He') in Hv.
  - rewrite !elem_of_cons, elem_of_nil. intros [?|[?|[?|[]]]]; discriminate.
Qed.



Lemma first_seen_length {K} `{EqDecision K} (key : dict → K) (seen : list K)
    (l : list dict) :
  (List.length (Pd.first_seen key seen l) ≤ List.length l)%nat.
Proof.
  revert seen. induction l as [|r l IH]; intros seen; simpl; [done|].
  case_decide; simpl; [|apply le_n_S, IH]. etrans; [apply IH|lia].
Qed.

Lemma normalize_length
    (parse : string → option datetime) (strict : bool) (events : list dict)
    (df : DataFrame) :
  normalize parse strict events = Ok df →
  List.length (rows df) = List.length events.
Proof.
  intros (_ & _ & Hrows)%normalize_rows. cbv zeta in Hrows.
  apply Forall2_length in Hrows. rewrite <- Hrows.
  unfold Pd.fillna. simpl. by rewrite length_fmap.
Qed.

(** ** Identifiers in a column of doubles *)

Lemma float64_exact (n : Z) : - 2 ^ 53 ≤ n ≤ 2 ^ 53 → Pd.float64 n = n.
Proof.
  intros H. unfold Pd.float64. rewrite (proj2 (Z.leb_le _ _)); [done|lia].
Qed.

(** A double is a significand of at most 53 bits times a power of two, and
    rounding leaves it as it is. *)
Lemma float64_fixed (s q k : Z) :
  s = 1 ∨ s = -1 → 0 ≤ q ≤ 2 ^ 53 → 0 ≤ k →
  Pd.float64 (s * (q * 2 ^ k)) = s * (q * 2 ^ k).
Proof.
  intros Hs Hq Hk. unfold Pd.float64.
  assert (0 < 2 ^ k) as Hpk by (apply Z.pow_pos_nonneg; lia).
  assert (Z.abs (s * (q * 2 ^ k)) = q * 2 ^ k) as Ha.
  { destruct Hs as [-> | ->]; nia. }
  rewrite Ha. set (a := q * 2 ^ k) in *.
  destruct (a <=? 2 ^ 53) eqn:E; [done|]. apply Z.leb_gt in E. cbv zeta.
  assert (0 < a) as Hpos by lia.
  pose proof (Z.log2_spec a Hpos) as [Hlo Hhi].
  set (e := Z.log2 a) in *.
  assert (53 ≤ e) as He.
  { apply Z.log2_le_pow2; [done|lia]. }
  assert (0 < 2 ^ (e - 52)) as Hulp by (apply Z.pow_pos_nonneg; lia).
  assert (∃ m, a = m * 2 ^ (e - 52)) as [m Hm].
  { destruct (decide (q = 2 ^ 53)) as [Eq|Nq].
    - assert (e = 53 + k) as ->.
      { unfold e. replace a with (2 ^ (53 + k)).
        - apply Z.log2_pow2. lia.
        - unfold a. rewrite Eq. by rewrite Z.pow_add_r by lia. }
      exists (2 ^ 52). unfold a. rewrite Eq.
      rewrite <- !Z.pow_add_r by lia. f_equal. lia.
    - assert (e < 53 + k) as Hlt.
      { apply Z.log2_lt_pow2; [done|]. rewrite Z.pow_add_r by lia.
        unfold a. apply Z.mul_lt_mono_pos_r; lia. }
      exists (q * 2 ^ (k - (e - 52))). rewrite <- Z.mul_assoc.
      rewrite <- Z.pow_add_r by lia. unfold a. do 2 f_equal. lia. }
  rewrite Hm, Z.mod_mul, Z.div_mul by lia.
  rewrite (proj2 (Z.ltb_lt _ _)) by lia.
  rewrite <- Hm. unfold a.
  assert (Z.sgn (s * (q * 2 ^ k)) = s) as ->; [|done].
  fold a. destruct Hs as [-> | ->]; lia.
Qed.

Lemma float64_double (n : Z) :
  ∃ s q k, Pd.float64 n = s * (q * 2 ^ k)
           ∧ (s = 1 ∨ s = -1) ∧ 0 ≤ q ≤ 2 ^ 53 ∧ 0 ≤ k.
Proof.
  unfold Pd.float64. destruct (Z.abs n <=? 2 ^ 53) eqn:E.
  - apply Z.leb_le in E. destruct (decide (0 ≤ n)).
    + exists 1, n, 0. rewrite Z.pow_0_r. split; [lia|]. split; [by left|lia].
    + exists (-1), (- n), 0. rewrite Z.pow_0_r. split; [lia|].
      split; [by right|lia].
  - apply Z.leb_gt in E. cbv zeta.
    set (a := Z.abs n) in *.
    assert (0 < a) as Hpos by lia.
    pose proof (Z.log2_spec a Hpos) as [Hlo Hhi].
    set (e := Z.log2 a) in *.
    assert (53 ≤ e) as He.
    { apply Z.log2_le_pow2; [done|lia]. }
    set (ulp := 2 ^ (e - 52)).
    assert (0 < ulp) as Hulp by (apply Z.pow_pos_nonneg; lia).
    assert (0 ≤ a / ulp < 2 ^ 53) as Hq.
    { split; [apply Z.div_pos; lia|]. apply Z.div_lt_upper_bound; [done|].
      unfold ulp. rewrite <- Z.pow_add_r by lia.
      replace (e - 52 + 53) with (Z.succ e) by lia. done. }
    set (q' := if 2 * (a mod ulp) <? ulp then _ else _).
    assert (0 ≤ q' ≤ 2 ^ 53) as Hq'.
    { unfold q'. destruct (_ <? _); [lia|]. destruct (_ <? _); [lia|].
      destruct (Z.even _); lia. }
    exists (Z.sgn n), q', (e - 52). split; [done|]. split; [lia|].
    split; [done|lia].
Qed.

(** Rounding twice is rounding once. *)
Lemma float64_idemp (n : Z) : Pd.float64 (Pd.float64 n) = Pd.float64 n.
Proof.
  destruct (float64_double n) as (s & q & k & -> & Hs & Hq & Hk).
  by apply float64_fixed.
Qed.

Lemma as_dtype_idemp (t : Pd.dtype) (v : value) :
  Pd.as_dtype t (Pd.as_dtype t v) = Pd.as_dtype t v.
Proof. destruct t, v; simpl; by rewrite ?float64_idemp. Qed.

Lemma existsb_ints (l : list value) :
  Forall (λ v, ∃ n, v = VInt n) l →
  existsb Pd.is_str l = false ∧ existsb Pd.is_nan l = false.
Proof.
  induction 1 as [|v l [n ->] _ [IH1 IH2]]; [done|]. simpl. by rewrite IH1, IH2.
Qed.

Lemma dtype_of_ints (l : list value) :
  Forall (λ v, ∃ n, v = VInt n) l → Pd.dtype_of l = Pd.Int64.
Proof.
  intros [H1 H2]%existsb_ints. unfold Pd.dtype_of. by rewrite H1, H2.
Qed.

Lemma dtype_of_float (l : list value) :
  Pd.dtype_of l = Pd.Float64
  ↔ existsb Pd.is_str l = false ∧ existsb Pd.is_nan l = true.
Proof.
  unfold Pd.dtype_of.
  destruct (existsb Pd.is_str l), (existsb Pd.is_nan l); split;
    (done || by intros [??]).
Qed.

(** A column that has a maximum holds no string. *)
Lemma col_max_no_str (l : list value) (top : Z) :
  Pd.col_max l = Ok top → existsb Pd.is_str l = false.
Proof.
  unfold Pd.col_max. intros H. apply bind_ok in H as (ns & Hns & _).
  revert ns Hns. induction l as [|v l IH]; intros ns Hns; [done|].
  destruct v; simpl in *; [done| |by eapply IH].
  apply bind_ok in Hns as (ns' & Hns' & _). by eapply IH.
Qed.

(** A corpus whose records all have their number is a frame of integers. *)
Lemma retype_ints (records : list dict) :
  Forall (λ e, ∃ n, index_of e = VInt n) records →
  rows (Pd.retype "event_index" (Pd.of_records records)) = records.
Proof.
  intros H. unfold Pd.retype. simpl.
  rewrite dtype_of_ints by (apply Forall_fmap; exact H).
  rewrite <- (list_fmap_id records) at 2. apply list_fmap_ext.
  intros _ r _. by apply alter_id.
Qed.

Lemma retype_id (records : list dict) :
  Forall (λ e, ∃ n, index_of e = VInt n) records →
  Pd.retype "event_index" (Pd.of_records records) = Pd.of_records records.
Proof.
  intros H. pose proof (retype_ints records H) as E. unfold Pd.retype in *.
  simpl in *. by rewrite E.
Qed.

Lemma count_null_cons (c : string) (r : dict) (l : list dict) :
  Pd.count_null c (r :: l)
  = ((if decide (cell r c = VNaN) then 1 else 0) + Pd.count_null c l)%nat.
Proof.
  unfold Pd.count_null. rewrite filter_cons. by case_decide.
Qed.

Lemma count_null_app (c : string) (l1 l2 : list dict) :
  Pd.count_null c (l1 ++ l2) = (Pd.count_null c l1 + Pd.count_null c l2)%nat.
Proof. unfold Pd.count_null. by rewrite filter_app, length_app. Qed.

Lemma count_null_length (c : string) (l : list dict) :
  (Pd.count_null c l ≤ List.length l)%nat.
Proof.
  induction l as [|r l IH]; [done|]. rewrite count_null_cons. simpl.
  case_decide; lia.
Qed.

Lemma count_null_ints (c : string) (l : list dict) :
  Forall (λ r, ∃ n, cell r c = VInt n) l → Pd.count_null c l = 0%nat.
Proof.
  induction 1 as [|r l [n Hn] _ IH]; [done|]. rewrite count_null_cons, IH.
  rewrite decide_False; [done|]. by rewrite Hn.
Qed.

Lemma count_null_first_seen {K} `{EqDecision K} (key : dict → K)
    (c : string) (seen : list K) (l : list dict) :
  (Pd.count_null c (Pd.first_seen key seen l) ≤ Pd.count_null c l)%nat.
Proof.
  revert seen. induction l as [|r l IH]; intros seen; simpl; [done|].
  rewrite (count_null_cons c r l). case_decide.
  - specialize (IH seen). lia.
  - rewrite count_null_cons. specialize (IH (key r :: seen)). lia.
Qed.

(** [np.arange] on integers gives the numbers that [fill_null] counts. *)
Lemma fill_from_arange (c : string) (next : Z) (k : nat) (l : list dict) :
  (Pd.count_null c l ≤ k)%nat →
  Pd.fill_from c ((λ i, next + Z.of_nat i) <$> seq 0 k) l
  = Pd.fill_null c next l.
Proof.
  revert next k. induction l as [|r l IH]; intros next k Hk; [done|].
  rewrite count_null_cons in Hk. simpl.
  destruct (decide (cell r c = VNaN)) as [E|E].
  - rewrite E. destruct k as [|k]; [lia|]. simpl.
    rewrite Z.add_0_r. f_equal. rewrite <- fmap_S_seq, <- list_fmap_compose.
    rewrite <- (IH (next + 1) k) by lia. f_equal. apply list_fmap_ext.
    intros _ i _. simpl. lia.
  - destruct (cell r c); [..|done]; f_equal; apply IH; lia.
Qed.

(** The identifiers stay in a range that has room for the new ones. *)
Lemma fill_null_room (c : string) (lo hi next : Z) (l : list dict) :
  Forall (λ r, cell r c = VNaN ∨ ∃ n, cell r c = VInt n ∧ lo ≤ n ≤ hi) l →
  lo ≤ next → next + Z.of_nat (Pd.count_null c l) ≤ hi + 1 →
  Forall (λ r, ∃ n, cell r c = VInt n ∧ lo ≤ n ≤ hi) (Pd.fill_null c next l).
Proof.
  intros Hl. revert next. induction Hl as [|r l Hr _ IH]; intros next Hlo Hhi;
    simpl; [constructor|].
  rewrite count_null_cons in Hhi. destruct Hr as [E|(n & E & Hn)].
  - rewrite E in *. rewrite decide_True in Hhi by done. constructor.
    + exists next. rewrite cell_insert, decide_True by done. split; [done|lia].
    + apply IH; lia.
  - rewrite E in *. rewrite decide_False in Hhi by done. constructor; [eauto|].
    apply IH; lia.
Qed.

(** The saved identifiers of a run on an old corpus whose identifiers have
    room for the batch: no identifier is rounded, and the records without
    one are numbered from the largest old identifier on. *)
Lemma run_shape_exact
    (parse : string → option datetime) (strict : bool)
    (records events out : list dict) :
  Forall (λ e, e !! "event_index" = None) events →
  Forall (has_room (List.length events)) records →
  run parse strict (Some records) events = Ok out →
  ∃ df, normalize parse strict events = Ok df
    ∧ let fs := Pd.first_seen key_of [] (records ++ rows df) in
      Forall2 same_data out fs
      ∧ ∃ top, Pd.col_max (index_of <$> records) = Ok top
          ∧ index_of <$> out
            = index_of <$> Pd.fill_null "event_index" (top + 1) fs.
Proof.
  intros Hev Hroom Hrun.
  destruct (run_shape _ _ _ _ _ Hrun)
    as (df & Hdf & Hout & top & numbers & Htop & Hnum & Hidx & _).
  exists df. split; [done|]. cbv zeta in *. simpl in Hout.
  assert (Forall (λ e, ∃ n, index_of e = VInt n) records) as Hints.
  { eapply Forall_impl; [exact Hroom|]. intros e (n & Hn & _). eauto. }
  rewrite (retype_ints records Hints) in Htop, Hnum, Hidx.
  rewrite dtype_of_ints in Hnum by (by apply Forall_fmap).
  apply Ok_inj in Hnum as <-.
  rewrite fill_from_arange in Hidx by done.
  split; [done|]. exists top. split; [done|]. rewrite Hidx.
  set (fs := Pd.first_seen key_of [] (records ++ rows df)).
  pose proof (rows_without_index _ _ _ _ Hdf Hev) as Hno.
  apply col_max_ok in Htop as [(e & He & Hin)%list_elem_of_fmap _].
  rewrite Forall_forall in Hroom. destruct (Hroom e Hin) as (n & Hn & Hlo & Hhi).
  assert (n = top) as -> by congruence.
  apply Forall_fmap_ext_1.
  eapply Forall_impl;
    [apply (fill_null_room "event_index" (- 2 ^ 53) (2 ^ 53) (top + 1) fs)|].
  - apply Forall_forall. intros r Hr%first_seen_subset.
    apply elem_of_app in Hr as [Hr|Hr].
    + right. destruct (Hroom r Hr) as (m & Hm & ? & ?). exists m.
      split; [done|lia].
    + left. rewrite Forall_forall in Hno. by apply Hno.
  - lia.
  - assert (Pd.count_null "event_index" fs ≤ List.length events)%nat; [|lia].
    etrans; [apply count_null_first_seen|]. rewrite count_null_app.
    rewrite (count_null_ints _ records Hints).
    rewrite <- (normalize_length _ _ _ _ Hdf). apply count_null_length.
  - intros r (m & Hm & Hb). unfold index_of. rewrite Hm.
    destruct (Pd.dtype_of _); simpl; [done| |done].
    by rewrite float64_exact.
Qed.



(** X20.  Above 2^53 the identifiers are rounded: the column of the merged frame
    holds doubles, so the old records numbered 2^53 + 1 and 2^53 are both
    saved with the number 2^53; the new record is numbered 2^53 + 2. *)
Example identifier_above_2_53_is_rounded :
  let old title n := <["event_index" := VInt n]>
                       (<["date_dt" := VStr ""]>
                          (event title "" "10:00 AM" "11:00 AM")) in
  match run clock true
          (Some [old "Seminar" 9007199254740993; old "Lecture" 9007199254740992])
          scraped with
  | Ok out =>
      index_of <$> out
      = [VInt 9007199254740992; VInt 9007199254740992; VInt 9007199254740994]
  | Raise _ => False
  end.
Proof. vm_compute. reflexivity. Qed.

(** ** What [__main__] stores as start and end time *)

(** For a scraped record with an empty end time, the stored start time is
    the one [clean_starttime] returns, and the stored end time is the hour
    after that start time, or empty when it is no time: the text behind the
    dash of a range is never stored. *)
Lemma normalize_times
    (parse : string → option datetime) (strict : bool) (events : list dict) (df : DataFrame) :
  normalize parse strict events = Ok df →
  Forall2 (λ e r, ∀ s,
             e !! "starttime" = Some (VStr s) →
             e !! "endtime" = Some (VStr "") →
             let s' := if Py.contains "-" s
                       then Py.strip (Py.first (Py.split "-" s)) else s in
             cell r "starttime" = VStr s'
             ∧ cell r "endtime" = match one_hour_later parse s' with
                                  | Some x => VStr x
                                  | None => VStr ""
                                  end)
    events (rows df).
Proof.
  intros (_ & _ & Hrows)%normalize_rows. simpl in Hrows.
  rewrite Forall2_fmap_l in Hrows.
  apply Forall2_same_length_lookup_2; [by eapply Forall2_length|].
  intros i e r Hi Hr s Hs He s'.
  destruct (Forall2_lookup_lr _ _ _ _ _ _ Hrows Hi Hr) as (_ & _ & Hst & Hend).
  simpl in Hst, Hend.
  assert (∀ c v, e !! c = Some (VStr v) →
            cell (Pd.fill (VStr "") <$>
                    Pd.series (remove_dups (events ≫= Pd.keys)) e) c = VStr v)
    as Hcell.
  { intros c v Hc. rewrite cell_fillna_row. unfold cell. rewrite Hc.
    rewrite bool_decide_eq_true_2; [done|].
    apply (elem_of_columns_of_records events). exists e. split; [|by eexists].
    apply list_elem_of_lookup. eauto. }
  rewrite (Hcell _ _ Hs) in Hst. rewrite (Hcell _ _ He) in Hend.
  rewrite decide_True in Hend by done.
  destruct (clean_starttime_no_dash {["starttime" := VStr s]} s)
    as (s1 & Hs1 & Hno); [by rewrite lookup_singleton_eq|].
  assert (s1 = s') as ->.
  { unfold clean_starttime in Hs1. rewrite lookup_singleton_eq in Hs1.
    unfold s'. destruct (Py.contains "-" s); by injection Hs1. }
  rewrite Hs1 in Hst. injection Hst as Hst. rewrite <- Hst in *.
  split; [done|].
  rewrite (clean_endtime_no_dash parse _ s') in Hend;
    [|by rewrite lookup_insert_eq|done].
  rewrite lookup_insert_ne, lookup_singleton_eq in Hend by done.
  destruct (one_hour_later parse s'); by injection Hend.
Qed.

(** ** The matches of [findall] are pieces of the text *)

Lemma ends_with_refl (s : string) : ends_with s s.
Proof. by exists "". Qed.

Lemma ends_with_trans (s t u : string) :
  ends_with s t → ends_with t u → ends_with s u.
Proof.
  intros [p ->] [q ->]. exists (p +:+ q). by rewrite sapp_assoc.
Qed.

Lemma ends_with_tail (a : ascii) (s t : string) :
  ends_with s t → ends_with (String a s) t.
Proof. intros [p ->]. by exists (String a p). Qed.

Lemma rep_ends {A} (p : Re.cls) (lo : nat) (hi : option nat) (s : string)
    (k : string → option A) (x : A) :
  Re.rep p lo hi s k = Some x → ∃ s', ends_with s s' ∧ k s' = Some x.
Proof.
  revert lo hi. induction s as [|a s IH]; intros lo hi; simpl.
  - destruct lo; [|done]. intros H. exists "". split; [apply ends_with_refl|done].
  - assert ((match lo with O => k (String a s) | S _ => None end) = Some x →
            ∃ s', ends_with (String a s) s' ∧ k s' = Some x) as Hstop.
    { destruct lo; [|done]. intros H. eexists. split; [apply ends_with_refl|done]. }
    destruct (p a && negb (bool_decide (hi = Some 0%nat))); [|done].
    destruct (Re.rep p (pred lo) (pred <$> hi) s k) as [y|] eqn:E; [|done].
    intros [= ->]. destruct (IH _ _ E) as (s' & Hs' & Hk).
    exists s'. split; [by apply ends_with_tail|done].
Qed.

Lemma exec_ends {A} (r : Re.re) (s : string) (g : option string)
    (k : string → option string → option A) (x : A) :
  Re.exec r s g k = Some x → ∃ s' g', ends_with s s' ∧ k s' g' = Some x.
Proof.
  revert s g k. induction r as [|p|p lo hi|r1 IH1 r2 IH2|r1 IH1 r2 IH2|r IH];
    intros s g k; simpl.
  - intros H. exists s, g. split; [apply ends_with_refl|done].
  - destruct s as [|a s]; [done|]. destruct (p a); [|done].
    intros H. exists s, g. split; [|done]. apply ends_with_tail, ends_with_refl.
  - intros (s' & Hs' & Hk)%rep_ends. eauto.
  - intros (s1 & g1 & Hs1 & (s2 & g2 & Hs2 & Hk)%IH2)%IH1.
    exists s2, g2. split; [by eapply ends_with_trans|done].
  - destruct (Re.exec r1 s g k) as [y|] eqn:E.
    + intros [= ->]. by apply IH1 in E.
    + apply IH2.
  - intros (s' & g' & Hs' & Hk)%IH. eauto.
Qed.

Lemma length_sapp (s t : string) :
  String.length (s +:+ t) = (String.length s + String.length t)%nat.
Proof. induction s as [|a s IH]; simpl; [done|]. by rewrite IH. Qed.

Lemma substring_prefix (p t : string) :
  String.substring 0 (String.length p) (p +:+ t) = p.
Proof.
  induction p as [|a p IH]; simpl.
  - by destruct t.
  - by rewrite IH.
Qed.

Lemma consumed_ends (p t : string) : Re.consumed (p +:+ t) t = p.
Proof.
  unfold Re.consumed. rewrite length_sapp.
  replace (String.length p + String.length t - String.length t)%nat
    with (String.length p) by lia.
  apply substring_prefix.
Qed.

(** A match of a pattern inside one group is the text in front of what
    follows it. *)
Lemma match_at_group (r : Re.re) (s g rest : string) :
  Re.match_at (Re.Grp r) s = Some (g, rest) → s = g +:+ rest.
Proof.
  unfold Re.match_at. simpl.
  intros (s' & g' & [p ->] & [= <- <-])%exec_ends. simpl.
  by rewrite consumed_ends.
Qed.

Lemma scan_hits (r : Re.re) (skip : nat) (s g : string) :
  Re.Hit g ∈ Re.scan r skip s →
  ∃ t rest, ends_with s t ∧ Re.match_at r t = Some (g, rest).
Proof.
  revert skip. induction s as [|a s IH]; intros skip.
  - destruct skip; simpl; [|by intros ?%elem_of_nil].
    destruct (Re.match_at r "") as [[g' rest]|] eqn:E; [|by intros ?%elem_of_nil].
    intros [[= ->]|?%elem_of_nil]%elem_of_cons; [|done].
    exists "", rest. split; [apply ends_with_refl|done].
  - assert (∀ k, Re.Hit g ∈ Re.scan r k s →
              ∃ t rest, ends_with (String a s) t ∧ Re.match_at r t = Some (g, rest))
      as Hrec.
    { intros k (t & rest & Ht & Hm)%IH. exists t, rest.
      split; [by apply ends_with_tail|done]. }
    destruct skip as [|k]; [|by apply Hrec].
    cbn [Re.scan].
    destruct (Re.match_at r (String a s)) as [[g' rest]|] eqn:E.
    + intros [[= ->]|Hin]%elem_of_cons.
      * exists (String a s), rest. split; [apply ends_with_refl|done].
      * destruct (_ - _)%nat; [|by eapply Hrec].
        apply elem_of_cons in Hin as [?|Hin]; [done|]. by eapply Hrec.
    + intros [?|Hin]%elem_of_cons; [done|]. by eapply Hrec.
Qed.

(** Every time that [re.findall] finds is a piece of the text, and the
    clock pattern matches the text from there on with exactly that piece. *)
Lemma findall_clock_sound (s g : string) :
  g ∈ Re.findall CLOCK s →
  ∃ pre post, s = pre +:+ g +:+ post
              ∧ Re.match_at CLOCK (g +:+ post) = Some (g, post).
Proof.
  unfold Re.findall. intros ([a|g'] & Hin & Hg)%list_elem_of_omap; [done|].
  injection Hg as ->.
  apply scan_hits in Hin as (t & rest & [pre ->] & Hm).
  pose proof (match_at_group _ _ _ _ Hm) as ->. eauto.
Qed.

(** ** Runs that return *)

Lemma returns_bind {A B} (m : result A) (k : A → result B) (a : A) :
  m = Ok a → returns (k a) → returns (m ≫= k).
Proof. by intros ->. Qed.

Lemma rmapM_returns {A B} (f : A → result B) (l : list A) :
  Forall (λ x, returns (f x)) l → returns (rmapM f l).
Proof.
  induction 1 as [|x l [y Hy] _ [ys IH]]; simpl; [by eexists|].
  rewrite Hy. simpl. rewrite IH. by eexists.
Qed.

Lemma has_fields_lookup (r : dict) (c : string) :
  has_fields r → c ∈ FIELDS → ∃ s, r !! c = Some (VStr s).
Proof.
  intros Hr Hc. destruct (Hr c Hc) as [s Hs]. exists s.
  unfold cell in Hs. by destruct (r !! c) as [v|]; simplify_eq/=.
Qed.

Lemma has_fields_insert (r : dict) (c : string) (v : value) :
  has_fields r → (c ∈ FIELDS → ∃ s, v = VStr s) → has_fields (<[c := v]> r).
Proof.
  intros Hr Hv c' Hc'. rewrite cell_insert. case_decide as E; [|by apply Hr].
  subst c'. by apply Hv.
Qed.

Lemma clean_starttime_returns (r : dict) (s : string) :
  r !! "starttime" = Some (VStr s) → ∃ s', clean_starttime r = Ok (VStr s').
Proof.
  intros Hr. destruct (clean_starttime_no_dash r s Hr) as (s' & Hs' & _). eauto.
Qed.

Lemma clean_endtime_returns
    (parse : string → option datetime) (r : dict) (s : string) :
  r !! "starttime" = Some (VStr s) → is_Some (r !! "endtime") →
  returns (clean_endtime parse r).
Proof.
  intros Hs [v Hv]. unfold clean_endtime. rewrite Hs, Hv.
  destruct (Py.contains "-" s); [by eexists|].
  destruct (one_hour_later parse s); by eexists.
Qed.

Lemma some_empty_endtime (P : dict → Prop) (events rs : list dict) :
  Forall2 (λ e r, P r ∧ cell r "endtime" = cell e "endtime") events rs →
  Exists (λ e, cell e "endtime" = VStr "") events →
  forallb (λ r, negb (bool_decide (cell r "endtime" = VStr ""))) rs = false.
Proof.
  induction 1 as [|e r events rs [_ Hr] _ IH]; intros Hex; simpl.
  - by apply Exists_nil in Hex.
  - apply Exists_cons in Hex as [He|Hex].
    + rewrite bool_decide_eq_true_2; [done|]. by rewrite Hr.
    + rewrite IH by done. apply andb_false_r.
Qed.

(** The frame of a batch of well-formed scraped records is built: the batch
    is not empty, every record holds the fields as text and a date that
    [clean_date_format] accepts, and, under the strict assignment, some
    record has an empty end time. *)
Lemma normalize_returns
    (parse : string → option datetime) (strict : bool) (events : list dict) :
  events ≠ [] →
  Forall has_fields events →
  Forall (λ e, returns (clean_date_format parse (cell e "date"))) events →
  (strict = true → Exists (λ e, cell e "endtime" = VStr "") events) →
  returns (normalize parse strict events).
Proof.
  intros Hne Hev Hdate Hstrict. unfold normalize. cbv zeta.
  set (df0 := Pd.fillna (VStr "") (Pd.of_records events)).
  assert (∀ c, c ∈ FIELDS → c ∈ columns df0) as Hcols0.
  { intros c Hc. apply (elem_of_columns_of_records events).
    destruct events as [|e events]; [done|]. exists e. split; [by left|].
    apply Forall_cons in Hev as [He _].
    destruct (has_fields_lookup e c He Hc) as [s ->]. by eexists. }
  assert (Forall2 (λ e r, has_fields r ∧ cell r "endtime" = cell e "endtime"
                          ∧ cell r "date" = cell e "date")
            events (rows df0)) as H0.
  { unfold df0, Pd.fillna. simpl. apply Forall2_fmap_r.
    apply Forall_Forall2_diag. eapply Forall_impl; [exact Hev|].
    intros e He.
    assert (∀ c, c ∈ FIELDS →
              cell (Pd.fill (VStr "") <$>
                      Pd.series (remove_dups (events ≫= Pd.keys)) e) c = cell e c)
      as Hc.
    { intros c Hc. rewrite cell_fillna_row.
      rewrite bool_decide_eq_true_2 by by apply Hcols0.
      by destruct (He c Hc) as [s ->]. }
    split; [|split].
    - intros c Hc'. rewrite (Hc c Hc'). by apply He.
    - apply Hc. right. by left.
    - apply Hc. by left. }
  (* the dates *)
  eapply (returns_bind _ _ ((λ r, cell r "date") <$> rows df0)).
  { unfold Pd.col. rewrite bool_decide_eq_true_2; [done|]. apply Hcols0. by left. }
  assert (returns (rmapM (clean_date_format parse)
                     ((λ r, cell r "date") <$> rows df0))) as [dts Hdts].
  { apply rmapM_returns, Forall_fmap.
    eapply Forall2_Forall_r; [exact H0|].
    eapply Forall_impl; [exact Hdate|].
    intros e He r (_ & _ & Hr). simpl. by rewrite Hr. }
  apply (returns_bind _ _ dts Hdts).
  set (df1 := Pd.set_col "date_dt" (VStr <$> dts) df0).
  assert (Forall2 (λ e r, has_fields r ∧ cell r "endtime" = cell e "endtime")
            events (rows df1)) as H1.
  { apply rmapM_ok, Forall2_fmap_l in Hdts.
    assert (Forall2 (λ (r : dict) (v : value), True) (rows df0) (VStr <$> dts)) as Hlen.
    { apply Forall2_fmap_r. eapply Forall2_impl; [exact Hdts|done]. }
    apply (zip_with_Forall2 _ (λ r v, <["date_dt" := v]> r)) in Hlen.
    eapply Forall2_trans; [|exact H0|exact Hlen].
    intros e r0 r1 (Hf & He & _) (v & _ & ->). split.
    - apply has_fields_insert; [done|].
      unfold FIELDS, KEY. rewrite !elem_of_cons, elem_of_nil.
      intros [?|[?|[?|[?|[?|[?|[?|[?|[]]]]]]]]]; discriminate.
    - by rewrite cell_insert. }
  assert ("starttime" ∈ FIELDS) as Hstf by (right; right; by left).
  assert ("endtime" ∈ FIELDS) as Hetf by (right; by left).
  assert (∀ c, c ∈ FIELDS → c ∈ columns df1) as Hcols1.
  { intros c Hc. apply elem_of_set_col_columns. left. by apply Hcols0. }
  (* the start times *)
  assert (returns (Pd.apply clean_starttime df1)) as [starts Hst].
  { unfold Pd.apply. apply rmapM_returns.
    eapply Forall2_Forall_r; [exact H1|]. apply Forall_true.
    intros e r [Hf _]. destruct (Hf "starttime" Hstf) as [s Hs].
    destruct (clean_starttime_returns (Pd.series (columns df1) r) s) as [s' Hs'].
    { rewrite lookup_series, bool_decide_eq_true_2 by by apply Hcols1.
      by rewrite Hs. }
    by eexists. }
  apply (returns_bind _ _ starts Hst).
  set (df2 := Pd.set_col "starttime" starts df1).
  assert (Forall2 (λ e r, has_fields r ∧ cell r "endtime" = cell e "endtime")
            events (rows df2)) as H2.
  { unfold Pd.apply in Hst. apply rmapM_ok in Hst.
    apply (zip_with_Forall2 _ (λ r v, <["starttime" := v]> r)) in Hst.
    eapply Forall2_trans; [|exact H1|exact Hst].
    intros e r1 r2 (Hf & He) (v & Hv & ->). split.
    - apply has_fields_insert; [done|]. intros _.
      destruct (Hf "starttime" Hstf) as [s Hs].
      destruct (clean_starttime_returns (Pd.series (columns df1) r1) s) as [s' Hs'].
      { rewrite lookup_series, bool_decide_eq_true_2 by by apply Hcols1.
        by rewrite Hs. }
      rewrite Hs' in Hv. injection Hv as <-. by eexists.
    - by rewrite cell_insert. }
  assert (∀ c, c ∈ FIELDS → c ∈ columns df2) as Hcols2.
  { intros c Hc. apply elem_of_set_col_columns. left. by apply Hcols1. }
  (* the end times *)
  rewrite bool_decide_eq_true_2 by by apply Hcols2.
  assert (strict && forallb (λ r, negb (bool_decide (cell r "endtime" = VStr "")))
                      (rows df2) = false) as ->.
  { destruct strict; [|done]. simpl.
    eapply some_empty_endtime; [exact H2|by apply Hstrict]. }
  assert (returns (rmapM (set_endtime parse (columns df2)) (rows df2)))
    as [rows' Hrows'].
  { apply rmapM_returns. eapply Forall2_Forall_r; [exact H2|]. apply Forall_true.
    intros e r [Hf _]. unfold set_endtime. case_bool_decide; [|by eexists].
    destruct (Hf "starttime" Hstf) as [s Hs].
    destruct (clean_endtime_returns parse (Pd.series (columns df2) r) s) as [v Hv].
    - rewrite lookup_series, bool_decide_eq_true_2 by by apply Hcols2.
      by rewrite Hs.
    - rewrite lookup_series, bool_decide_eq_true_2 by by apply Hcols2.
      by eexists.
    - rewrite Hv. by eexists. }
  apply (returns_bind _ _ rows' Hrows'). by eexists.
Qed.

Lemma drop_duplicates_returns (cs : list string) (df : DataFrame) :
  (∀ c, c ∈ cs → c ∈ columns df) →
  Pd.drop_duplicates cs df
  = Ok (mk_frame (columns df)
          (Pd.first_seen (λ r, cell r <$> cs) [] (rows df))).
Proof.
  intros Hcs. unfold Pd.drop_duplicates.
  destruct (filter _ cs) as [|c l] eqn:E; [done|].
  assert (c ∈ filter (λ c, c ∉ columns df) cs) as Hc by (rewrite E; by left).
  apply list_elem_of_filter in Hc as [Hn Hc]. by apply Hcs in Hc.
Qed.

Lemma ints_returns (l : list value) :
  Forall (λ v, ∃ n, v = VInt n) l →
  ∃ ns, Pd.ints l = Ok ns ∧ List.length ns = List.length l.
Proof.
  induction 1 as [|v l [n ->] _ (ns & Hns & Hlen)]; simpl; [by eexists|].
  rewrite Hns. simpl. eexists. split; [done|]. simpl. by rewrite Hlen.
Qed.

Lemma col_max_returns (l : list value) :
  l ≠ [] → Forall (λ v, ∃ n, v = VInt n) l → returns (Pd.col_max l).
Proof.
  intros Hne (ns & Hns & Hlen)%ints_returns. unfold Pd.col_max. rewrite Hns. simpl.
  destruct ns as [|n ns]; [|by eexists]. by destruct l.
Qed.

Lemma fill_null_ints (c : string) (next : Z) (l : list dict) :
  Forall (λ r, cell r c = VNaN ∨ ∃ n, cell r c = VInt n) l →
  Forall (λ r, ∃ n, cell r c = VInt n) (Pd.fill_null c next l).
Proof.
  intros H. revert next. induction H as [|r l Hr _ IH]; intros next; simpl.
  - constructor.
  - destruct Hr as [->|[n Hn]].
    + constructor; [|apply IH]. exists next. by rewrite cell_insert, decide_True.
    + rewrite Hn. constructor; [by eexists|apply IH].
Qed.

Lemma astype_int_returns (c : string) (l : list dict) :
  Forall (λ r, ∃ n, cell r c = VInt n) l → rmapM (Pd.astype_int c) l = Ok l.
Proof.
  induction 1 as [|r l [n Hn] _ IH]; [done|]. cbn [rmapM].
  assert (Pd.astype_int c r = Ok r) as -> by (unfold Pd.astype_int; by rewrite Hn).
  simpl. by rewrite IH.
Qed.

(** A run on a well-formed batch saves a corpus: the batch as in
    [normalize_returns], its records without identifier, and the corpus
    file absent or holding at least one record, each with its identifier. *)
Lemma run_returns
    (parse : string → option datetime) (strict : bool)
    (former : option (list dict)) (events : list dict) :
  events ≠ [] →
  Forall has_fields events →
  Forall (λ e, e !! "event_index" = None) events →
  Forall (λ e, returns (clean_date_format parse (cell e "date"))) events →
  (strict = true → Exists (λ e, cell e "endtime" = VStr "") events) →
  match former with
  | None => True
  | Some records =>
      records ≠ [] ∧ Forall (λ e, ∃ n, index_of e = VInt n) records
  end →
  returns (run parse strict former events).
Proof.
  intros Hne Hev Hno Hdate Hstrict Hformer.
  destruct (normalize_returns parse strict events Hne Hev Hdate Hstrict)
    as [df Hdf].
  unfold run. apply (returns_bind _ _ df Hdf).
  destruct (normalize_rows _ _ _ _ Hdf) as (Hcols & _ & _).
  assert (∀ c, c ∈ KEY → c ∈ columns df) as Hkey.
  { intros c Hc. apply Hcols. left.
    apply (elem_of_columns_of_records events).
    destruct events as [|e events]; [done|]. exists e. split; [by left|].
    apply Forall_cons in Hev as [He _].
    destruct (has_fields_lookup e c He) as [s ->]; [|by eexists].
    right. by right. }
  destruct former as [records|]; simpl.
  - destruct Hformer as [Hrne Hint]. rewrite (retype_id records Hint).
    rewrite drop_duplicates_returns.
    2: { intros c Hc. apply elem_of_app.
         destruct (decide (c ∈ remove_dups (records ≫= Pd.keys))); [by left|].
         right. apply list_elem_of_filter. split; [done|by apply Hkey]. }
    simpl.
    assert (Pd.col (Pd.of_records records) "event_index"
            = Ok (index_of <$> records)) as ->.
    { unfold Pd.col. rewrite bool_decide_eq_true_2; [done|].
      apply elem_of_columns_of_records.
      destruct records as [|e records]; [done|]. exists e. split; [by left|].
      apply Forall_cons in Hint as [[n Hn] _]. unfold index_of, cell in Hn.
      destruct (e !! "event_index"); [by eexists|done]. }
    simpl.
    destruct (col_max_returns (index_of <$> records)) as [top Htop].
    { by destruct records. }
    { apply Forall_fmap. eapply Forall_impl; [exact Hint|done]. }
    rewrite Htop. simpl.
    rewrite !(dtype_of_ints (index_of <$> records)) by by apply Forall_fmap.
    eapply returns_bind; [reflexivity|]. rewrite fill_from_arange by done.
    set (t := Pd.dtype_of _).
    rewrite astype_int_returns; [by eexists|].
    apply Forall_fmap.
    eapply Forall_impl;
      [apply (fill_null_ints "event_index"), Forall_forall|].
    + intros r [Hr|Hr]%first_seen_subset%elem_of_app.
      * right. rewrite Forall_forall in Hint. by apply Hint.
      * left. pose proof (rows_without_index _ _ _ _ Hdf Hno) as Hnan.
        rewrite Forall_forall in Hnan. by apply Hnan.
    + intros r [n Hn]. simpl. rewrite cell_alter_dtype, decide_True, Hn by done.
      destruct t; simpl; eauto.
  - rewrite drop_duplicates_returns by done. by eexists.
Qed.

(** The stored corpus and the scraped batch of the examples are of that
    kind. *)
Example run_returns_on_the_examples :
  returns (run clock true (Some stored) scraped)
  ∧ returns (run clock true None scraped).
Proof.
  assert (Forall has_fields scraped) as Hf.
  { unfold scraped. repeat constructor; intros c Hc;
      unfold FIELDS, KEY in Hc; rewrite !elem_of_cons, elem_of_nil in Hc;
      destruct Hc as [->|[->|[->|[->|[->|[->|[->|[->|[]]]]]]]]];
      eexists; vm_compute; reflexivity. }
  assert (Forall (λ e : dict, e !! "event_index" = None) scraped) as Hno.
  { apply (bool_decide_unpack _). vm_compute. exact I. }
  assert (Forall (λ e, returns (clean_date_format clock (cell e "date"))) scraped)
    as Hd.
  { unfold scraped. repeat constructor; eexists; vm_compute; reflexivity. }
  assert (Exists (λ e, cell e "endtime" = VStr "") scraped) as He.
  { left. vm_compute. reflexivity. }
  split; apply run_returns; try done.
  split; [done|]. repeat constructor. exists 7. vm_compute. reflexivity.
Qed.

(** ** The topic vectors *)

(** C9.  When the vectors are computed, with a model that gives vectors of
    as many numbers as it is asked components: the records handed to
    [save_json] for the vector store are as many as the records of the
    corpus; they have, in the order of the corpus, the identifiers of the
    frame of the corpus, which are the identifiers of the records when each
    record has its number; and every vector has 30 numbers, the number of
    components the code asks for. *)
Theorem vector_store_shape
    (unidecode stem : string → string) (tokenize : string → list string)
    (matrix F : Type) (tfidf : list string → result matrix)
    (svd : nat → matrix → result (list (list F)))
    (corpus : list dict) (store : list (entry F)) :
  (∀ K X vectors,
     svd K X = Ok vectors → Forall (λ v, List.length v = K) vectors) →
  vectorize unidecode stem tokenize tfidf svd corpus = Ok store →
  List.length store = List.length corpus
  ∧ entry_index <$> store
    = index_of <$> rows (Pd.retype "event_index" (Pd.of_records corpus))
  ∧ (Forall (λ e, ∃ n, index_of e = VInt n) corpus →
     entry_index <$> store = index_of <$> corpus)
  ∧ Forall (λ e, List.length (entry_vector e) = N_COMPONENTS) store
  ∧ N_COMPONENTS = 30%nat.
Proof.
  intros Hsvd H. unfold vectorize in H. cbv zeta in H.
  set (events_df := Pd.retype "event_index" (Pd.of_records corpus)) in *.
  apply bind_ok in H as (text_columns & _ & H).
  apply bind_ok in H as (events_text & _ & H).
  apply bind_ok in H as (X_tfidf & _ & H).
  apply bind_ok in H as (lsa_vectors & Hlsa & H).
  case_bool_decide as Hlen; [|done].
  apply bind_ok in H as (event_index & Hcol & H). apply Ok_inj in H as <-.
  apply col_ok in Hcol as [_ ->]. fold index_of.
  assert (List.length (rows events_df) = List.length corpus) as Hrows.
  { unfold events_df, Pd.retype. simpl. by rewrite length_fmap. }
  assert (entry_index <$> zip_with mk_entry (index_of <$> rows events_df)
                            lsa_vectors
          = index_of <$> rows events_df) as Hidx.
  { apply fmap_zip_with_l; [done|]. rewrite length_fmap. lia. }
  split; [|split; [done|split; [|split; [|done]]]].
  - rewrite length_zip_with, length_fmap. lia.
  - intros Hint. rewrite Hidx. unfold events_df. by rewrite retype_ints.
  - assert (Forall (λ v, List.length v = N_COMPONENTS)
              (entry_vector <$> zip_with mk_entry (index_of <$> rows events_df)
                                  lsa_vectors)) as Hvec.
    { rewrite fmap_zip_with_r; [by eapply Hsvd|done|].
      rewrite length_fmap. lia. }
    by rewrite Forall_fmap in Hvec.
Qed.

Lemma vector_store_shape_witness :
  ∃ store, vectorize id id one_word unit_tfidf zero_svd stored = Ok store
           ∧ entry_index <$> store = [VInt 7]
           ∧ Forall (λ e, List.length (entry_vector e) = 30%nat) store.
Proof.
  assert (match vectorize id id one_word unit_tfidf zero_svd stored with
          | Ok l => True
          | Raise _ => False
          end) as Hok by (vm_compute; exact I).
  remember (vectorize id id one_word unit_tfidf zero_svd stored) as m eqn:Hrun.
  destruct m as [store|e]; [|exact (False_ind _ Hok)].
  symmetry in Hrun. exists store. split; [reflexivity|].
  destruct (vector_store_shape id id one_word nat Z unit_tfidf zero_svd
              stored store) as (_ & _ & Hidx & Hvec & _); [|exact Hrun|].
  - intros K X vectors [= <-]. apply Forall_replicate. apply length_replicate.
  - split; [|exact Hvec]. rewrite Hidx; [reflexivity|].
    repeat constructor. exists 7. vm_compute. reflexivity.
Defined.

(** * Further properties *)

(** ** What the normalisation leaves alone *)

(** X1.  Lines 2256 to 2260 keep the records of the batch in their number
    and order and change three fields only.  Of a scraped record, a field
    other than [date_dt], [starttime] and [endtime] is stored as scraped; a
    field the record lacks while another record of the batch has it is
    stored as the empty string; an end time that is not empty is stored as
    scraped. *)
Theorem normalize_keeps_the_other_fields
    (parse : string → option datetime) (strict : bool) (events : list dict)
    (df : DataFrame) :
  normalize parse strict events = Ok df →
  Forall2 (λ e r,
      (∀ c v, c ∉ ["date_dt"; "starttime"; "endtime"] →
         e !! c = Some v → v ≠ VNaN → cell r c = v)
      ∧ (∀ c e', c ∉ ["date_dt"; "starttime"; "endtime"] →
           e !! c = None → e' ∈ events → is_Some (e' !! c) →
           cell r c = VStr "")
      ∧ (∀ v, e !! "endtime" = Some v → v ≠ VNaN → v ≠ VStr "" →
           cell r "endtime" = v))
    events (rows df).
Proof.
  intros (_ & _ & Hrows)%normalize_rows. cbv zeta in Hrows.
  change (rows (Pd.fillna (VStr "") (Pd.of_records events)))
    with ((λ r, Pd.fill (VStr "") <$> Pd.series (columns (Pd.of_records events)) r)
            <$> events) in Hrows.
  rewrite Forall2_fmap_l in Hrows.
  apply Forall2_same_length_lookup in Hrows as [Hlen Hrows].
  apply Forall2_same_length_lookup. split; [done|].
  intros i e r Hi Hr. specialize (Hrows i e r Hi Hr) as (Hc & _ & _ & He).
  apply list_elem_of_lookup_2 in Hi.
  remember (columns (Pd.of_records events)) as cols eqn:Ecols.
  assert (∀ c, (∃ e', e' ∈ events ∧ is_Some (e' !! c)) →
            cell (Pd.fill (VStr "") <$> Pd.series cols e) c
            = Pd.fill (VStr "") (cell e c)) as Hfill.
  { intros c Hin. rewrite cell_fillna_row, bool_decide_eq_true_2; [done|].
    subst cols. by apply elem_of_columns_of_records. }
  assert (∀ c, c ∉ ["date_dt"; "starttime"; "endtime"] →
            cell r c = cell (Pd.fill (VStr "") <$> Pd.series cols e) c) as Hcell.
  { intros c Hc3. unfold cell. by rewrite (Hc c Hc3). }
  split; [|split].
  - intros c v Hc3 Hv Hnan. rewrite (Hcell c Hc3), Hfill by eauto.
    unfold cell. rewrite Hv. simpl. by destruct v.
  - intros c e' Hc3 Hv He' Hsome. rewrite (Hcell c Hc3), Hfill by eauto.
    unfold cell. by rewrite Hv.
  - intros v Hv Hnan Hne. rewrite Hfill in He by eauto.
    assert (Pd.fill (VStr "") (cell e "endtime") = v) as E.
    { unfold cell. rewrite Hv. simpl. by destruct v. }
    rewrite E in He. by rewrite decide_False in He.
Qed.

Lemma normalize_keeps_the_other_fields_witness :
  ∃ df, normalize clock true scraped = Ok df
        ∧ Forall2 (λ e r, cell r "title" = cell e "title"
                          ∧ cell r "date" = cell e "date")
            scraped (rows df).
Proof.
  assert (match normalize clock true scraped with
          | Ok df => True
          | Raise _ => False
          end) as Hok by (vm_compute; exact I).
  remember (normalize clock true scraped) as m eqn:Hrun.
  destruct m as [df|e]; [|exact (False_ind _ Hok)].
  symmetry in Hrun. exists df. split; [reflexivity|].
  pose proof (normalize_keeps_the_other_fields _ _ _ _ Hrun) as H.
  apply Forall2_same_length_lookup in H as [Hlen H].
  apply Forall2_same_length_lookup. split; [exact Hlen|].
  assert (Forall (λ e : dict, ∀ c, c ∈ ["title"; "date"] →
                    ∃ s, e !! c = Some (VStr s)) scraped) as Hall.
  { unfold scraped. repeat constructor; intros c Hc;
      rewrite !elem_of_cons, elem_of_nil in Hc;
      destruct Hc as [->|[->|[]]]; eexists; vm_compute; reflexivity. }
  intros i e r Hi Hr. destruct (H i e r Hi Hr) as (Hk & _ & _).
  pose proof (proj1 (Forall_forall _ _) Hall e (list_elem_of_lookup_2 _ _ _ Hi))
    as Hs.
  split.
  - destruct (Hs "title") as [s E]; [repeat constructor|].
    unfold cell at 2. rewrite E. apply (Hk _ _); [|exact E|discriminate].
    rewrite !elem_of_cons, elem_of_nil. intros [?|[?|[?|[]]]]; discriminate.
  - destruct (Hs "date") as [s E]; [repeat constructor|].
    unfold cell at 2. rewrite E. apply (Hk _ _); [|exact E|discriminate].
    rewrite !elem_of_cons, elem_of_nil. intros [?|[?|[?|[]]]]; discriminate.
Defined.

(** ** The start time, once cleaned *)

(** X2.  [clean_starttime] is idempotent: its result holds no dash, so on a
    record that carries the result it returns the result again.  A start
    time without a dash comes back as it is, not even trimmed. *)
Theorem clean_starttime_idempotent (r : dict) (s : string) :
  r !! "starttime" = Some (VStr s) →
  ∃ s', clean_starttime r = Ok (VStr s')
    ∧ Py.contains "-" s' = false
    ∧ clean_starttime (<["starttime" := VStr s']> r) = Ok (VStr s')
    ∧ (Py.contains "-" s = false → s' = s).
Proof.
  intros Hs. unfold clean_starttime. rewrite Hs.
  destruct (Py.contains "-" s) eqn:E.
  - assert (Py.contains "-" (Py.strip (Py.first (Py.split "-" s))) = false) as H
      by apply contains_strip, contains_first_split.
    eexists. split; [done|]. rewrite lookup_insert_eq, H. done.
  - exists s. by rewrite lookup_insert_eq, E.
Qed.

Lemma clean_starttime_idempotent_witness :
  clean_starttime (event "Seminar" "" " 10:00 AM - 12:00 PM" "")
    = Ok (VStr "10:00 AM")
  ∧ clean_starttime (event "Seminar" "" "10:00 AM" "") = Ok (VStr "10:00 AM")
  ∧ clean_starttime (event "Seminar" "" " 10:00 AM" "") = Ok (VStr " 10:00 AM").
Proof.
  assert (event "Seminar" "" " 10:00 AM - 12:00 PM" "" !! "starttime"
          = Some (VStr " 10:00 AM - 12:00 PM")) as H1
    by (vm_compute; reflexivity).
  assert (event "Seminar" "" " 10:00 AM" "" !! "starttime"
          = Some (VStr " 10:00 AM")) as H2
    by (vm_compute; reflexivity).
  destruct (clean_starttime_idempotent _ _ H1) as (s1 & E1 & _ & _ & _).
  destruct (clean_starttime_idempotent _ _ H2) as (s2 & E2 & _ & _ & K2).
  split; [|split].
  - vm_compute. reflexivity.
  - vm_compute. reflexivity.
  - rewrite E2, K2; reflexivity.
Defined.

(** ** The clean-up of a date and the date patterns *)

Lemma sapp_nil_r (s : string) : s +:+ "" = s.
Proof. induction s as [|a s IH]; [done|]. by rewrite sapp_cons, IH. Qed.

Lemma contains_replace_go (c : ascii) (old new : string) (skip : nat) (s : string) :
  Py.contains c new = false → Py.contains c s = false →
  Py.contains c (Py.replace_go old new skip s) = false.
Proof.
  intros Hn. revert skip. induction s as [|a s IH]; intros skip Hs; [done|].
  simpl in Hs. apply orb_false_iff in Hs as [Ha Hs].
  cbn [Py.replace_go]. destruct skip; [|by apply IH].
  destruct (Py.startswith old (String a s)).
  - rewrite contains_app, Hn. by apply IH.
  - simpl. rewrite Ha. by apply IH.
Qed.

Lemma contains_replace_char (c : ascii) (new : string) (s : string) :
  Py.contains c new = false →
  Py.contains c (Py.replace (String c "") new s) = false.
Proof.
  intros Hn. unfold Py.replace. induction s as [|a s IH]; [done|].
  cbn [Py.replace_go Py.startswith String.length Nat.sub].
  rewrite andb_true_r. destruct (Py.eqc c a) eqn:E.
  - by rewrite contains_app, Hn, IH.
  - simpl. rewrite IH, orb_false_r. unfold Py.eqc in *.
    by rewrite Ascii.eqb_sym.
Qed.

Lemma contains_sub (c : ascii) (r : Re.re) (s : string) :
  Py.contains c s = false → Py.contains c (Re.sub r "" s) = false.
Proof.
  unfold Re.sub. generalize 0%nat as skip. induction s as [|a s IH]; intros skip Hs.
  - destruct skip; simpl; [|done]. by destruct (Re.match_at r "") as [[g rest]|].
  - simpl in Hs. apply orb_false_iff in Hs as [Ha Hs].
    destruct skip; [|by apply IH]. cbn [Re.scan].
    destruct (Re.match_at r (String a s)) as [[g rest]|]; cbn [foldr].
    + rewrite sapp_nil_l. destruct (_ - _)%nat; [|by apply IH].
      simpl. rewrite Ha. by apply IH.
    + simpl. rewrite Ha. by apply IH.
Qed.

Lemma cleanup_no_newline (d : string) :
  Py.contains (Py.chr 10) (cleanup d) = false.
Proof.
  unfold cleanup. cbv zeta.
  apply contains_strip, contains_replace_go; [done|].
  by apply contains_sub, contains_replace_char.
Qed.

(** X3.  The text that [clean_date_format] hands to the date patterns holds
    no dash and no line break, whatever the date was. *)
Theorem cleanup_has_no_dash_or_newline (d : string) :
  Py.contains "-" (cleanup d) = false
  ∧ Py.contains (Py.chr 10) (cleanup d) = false.
Proof.
  unfold cleanup. cbv zeta. split.
  - by apply contains_strip, contains_replace_char.
  - apply cleanup_no_newline.
Qed.

Lemma rep_dot_star {A} (s : string) (k : string → option A) (x : A) :
  Py.contains (Py.chr 10) s = false → k "" = Some x →
  Re.rep Re.dot 0 None s k = Some x.
Proof.
  intros Hs Hk. induction s as [|a s IH]; [done|].
  change (Py.eqc a (Py.chr 10) || Py.contains (Py.chr 10) s = false) in Hs.
  apply orb_false_iff in Hs as [Ha Hs].
  simpl. unfold Re.dot at 1. rewrite Ha. simpl. by rewrite IH.
Qed.

Lemma contains_ends_with (c : ascii) (s t : string) :
  ends_with s t → Py.contains c s = false → Py.contains c t = false.
Proof.
  intros [pre ->]. rewrite contains_app. by intros [_ ?]%orb_false_iff.
Qed.

Lemma exec_dot_star_end (r : Re.re) :
  ends_in_dot_star r →
  ∀ (s : string) (g : option string) (x : string * string),
    Py.contains (Py.chr 10) s = false →
    Re.exec r s g (λ rest g', Some (default "" g', rest)) = Some x →
    x.2 = "".
Proof.
  induction 1 as [|r1 r2 _ IH]; intros s g x Hs H.
  - simpl in H. rewrite (rep_dot_star _ _ (default "" g, "")) in H by done.
    by injection H as <-.
  - simpl in H. apply exec_ends in H as (s' & g' & Hs' & H).
    eapply IH; [|exact H]. by eapply contains_ends_with.
Qed.

Lemma PATS_end_in_dot_star (pat : Re.re) : pat ∈ PATS → ends_in_dot_star pat.
Proof.
  unfold PATS, PATTERNS. rewrite !elem_of_cons, elem_of_nil.
  intros [->|[->|[->|[->|[->|[->|[->|[->|[]]]]]]]]]; simpl;
    repeat constructor.
Qed.

(** X4.  On the cleaned text a date pattern that matches consumes the text
    to its end, so that [pat.sub(r"\1", d)] is the captured date and nothing
    else. *)
Theorem pattern_keeps_the_date_only (d : string) (pat : Re.re) :
  pat ∈ PATS →
  Re.matches pat (cleanup d) = true →
  ∃ g, Re.match_at pat (cleanup d) = Some (g, "")
       ∧ Re.sub_group1 pat (cleanup d) = g.
Proof.
  intros Hpat Hm. unfold Re.matches in Hm.
  apply bool_decide_eq_true in Hm as [[g rest] Hm].
  assert (rest = "") as ->.
  { change rest with ((g, rest).2).
    eapply (exec_dot_star_end pat); [by apply PATS_end_in_dot_star| |exact Hm].
    apply cleanup_no_newline. }
  exists g. split; [done|].
  unfold Re.sub_group1. rewrite Hm. apply sapp_nil_r.
Qed.

Lemma pattern_keeps_the_date_only_witness :
  ∃ g, Re.match_at (default Re.Eps (head PATS)) (cleanup "Tuesday, October 30, 2018 - 11:30am")
       = Some (g, "")
       ∧ Re.sub_group1 (default Re.Eps (head PATS)) (cleanup "Tuesday, October 30, 2018 - 11:30am")
         = g.
Proof.
  apply pattern_keeps_the_date_only.
  - exact (list_elem_of_here (default Re.Eps (head PATS)) (tail PATS)).
  - vm_compute. reflexivity.
Defined.

(** ** Where the times of [find_startend_time] stand in the text *)

Lemma scan_text (r : Re.re) (t : string) :
  ∀ (skip : nat) (pre s : string),
    t = pre +:+ s → String.length pre = skip →
    pieces_text (Re.scan (Re.Grp r) skip t) = s.
Proof.
  induction t as [|a t IH]; intros skip pre s Ht Hlen.
  - destruct pre; [|by rewrite sapp_cons in Ht].
    rewrite sapp_nil_l in Ht. subst s. simpl in Hlen. subst skip.
    cbn [Re.scan].
    destruct (Re.match_at (Re.Grp r) "") as [[g rest]|] eqn:E; [|done].
    apply match_at_group in E. destruct g; [|done]. done.
  - destruct skip as [|k].
    + destruct pre; [|done]. rewrite sapp_nil_l in Ht. subst s. clear Hlen.
      cbn [Re.scan].
      destruct (Re.match_at (Re.Grp r) (String a t)) as [[g rest]|] eqn:E.
      * apply match_at_group in E. cbn [pieces_text foldr].
        fold (pieces_text).
        destruct g as [|b g].
        -- rewrite sapp_nil_l in E. subst rest.
           replace (String.length (String a t) - String.length (String a t))%nat
             with 0%nat by lia.
           rewrite sapp_nil_l. cbn [foldr]. f_equal.
           by apply (IH 0%nat "").
        -- rewrite sapp_cons in E. injection E as <- ->.
           rewrite sapp_cons. cbn [String.length]. rewrite length_sapp.
           replace (S (String.length g + String.length rest)
                    - String.length rest)%nat
             with (S (String.length g)) by lia.
           do 2 f_equal. by apply (IH _ g).
      * cbn [pieces_text foldr]. f_equal. by apply (IH 0%nat "").
    + destruct pre as [|b pre]; [done|]. rewrite sapp_cons in Ht.
      injection Ht as <- ->. cbn [Re.scan]. apply (IH _ pre); [done|].
      simpl in Hlen. lia.
Qed.

Lemma hits_split (l : list Re.piece) (g : string) (gs : list string) :
  omap (λ p, match p with Re.Hit g => Some g | Re.Lit _ => None end) l = g :: gs →
  ∃ pre l', pieces_text l = pre +:+ g +:+ pieces_text l'
            ∧ omap (λ p, match p with Re.Hit g => Some g | Re.Lit _ => None end) l'
              = gs.
Proof.
  induction l as [|[a|g'] l IH]; intros H; [done|..].
  - simpl in H. destruct (IH H) as (pre & l' & E & Hl').
    exists (String a pre), l'. split; [|done].
    unfold pieces_text in *. cbn [foldr]. by rewrite E.
  - simpl in H. injection H as -> <-. exists "", l. done.
Qed.

Lemma rep_ends_shorter {A} (p : Re.cls) (lo : nat) (hi : option nat) (s : string)
    (k : string → option A) (x : A) :
  Re.rep p (S lo) hi s k = Some x →
  ∃ s', (String.length s' < String.length s)%nat ∧ k s' = Some x.
Proof.
  destruct s as [|a s]; [done|]. cbn [Re.rep].
  destruct (p a && negb (bool_decide (hi = Some 0%nat))); [|done].
  destruct (Re.rep p (pred (S lo)) (pred <$> hi) s k) as [y|] eqn:E; [|done].
  intros [= ->]. apply rep_ends in E as (s' & [pre ->] & Hk).
  exists s'. split; [|done]. cbn [String.length]. rewrite length_sapp. lia.
Qed.

Lemma match_not_empty (p : Re.cls) (r : Re.re) (t g rest : string) :
  Re.match_at (Re.Grp (Re.Seq (Re.Rep p 1 None) r)) t = Some (g, rest) → g ≠ "".
Proof.
  intros H. pose proof (match_at_group _ _ _ _ H) as Ht.
  unfold Re.match_at in H. cbn [Re.exec] in H.
  apply rep_ends_shorter in H as (s1 & Hlen & H).
  apply exec_ends in H as (s2 & g2 & [pre ->] & H).
  injection H as _ <-. intros ->. rewrite sapp_nil_l in Ht. subst t.
  rewrite length_sapp in Hlen. lia.
Qed.

(** A match of the clock pattern is not empty. *)
Lemma clock_match_not_empty (t g rest : string) :
  Re.match_at CLOCK t = Some (g, rest) → g ≠ "".
Proof. apply match_not_empty. Qed.

(** X5.  The two times that [find_startend_time] returns stand in the text
    one after the other without overlapping, and there is no end time
    without a start time. *)
Theorem find_startend_time_in_text (s a b : string) :
  find_startend_time s = (a, b) →
  (∃ pre mid post, s = pre +:+ a +:+ mid +:+ b +:+ post)
  ∧ (b ≠ "" → a ≠ "")
  ∧ (a ≠ "" → a ∈ Re.findall CLOCK s).
Proof.
  unfold find_startend_time. intros H.
  pose proof (scan_text (Re.seqs
    [Re.plus Re.digit; Re.ch ":"; Re.plus Re.digit; Re.opt Re.space;
     Re.alts
       [Re.lit "AM"; Re.lit "PM"; Re.lit "am"; Re.lit "pm";
        Re.seqs [Re.ch "A"; Re.any; Re.ch "M"; Re.any];
        Re.seqs [Re.ch "P"; Re.any; Re.ch "M"; Re.any];
        Re.seqs [Re.ch "a"; Re.any; Re.ch "m"; Re.any];
        Re.seqs [Re.ch "p"; Re.any; Re.ch "m"; Re.any]]]) s 0%nat "" s
    eq_refl eq_refl) as Htext.
  fold CLOCK in Htext.
  assert (∀ g, g ∈ Re.findall CLOCK s → g ≠ "") as Hne.
  { intros g (pre & post & _ & Hm)%findall_clock_sound.
    by eapply clock_match_not_empty. }
  unfold Re.findall in *.
  destruct (omap _ (Re.scan CLOCK 0 s)) as [|t0 [|t1 [|t2 l]]] eqn:E.
  - injection H as <- <-. split; [|done]. exists s, "", "". 
    by rewrite !sapp_nil_r.
  - injection H as <- <-. apply hits_split in E as (pre & l' & Ht & _).
    split; [|split; [done|intros _; left]].
    exists pre, (pieces_text l'), "". rewrite <- Htext, Ht.
    by rewrite !sapp_nil_r.
  - injection H as <- <-. pose proof E as E'.
    apply hits_split in E as (pre & l' & Ht & E).
    apply hits_split in E as (mid & l'' & Ht' & _).
    split; [|split; [|intros _; left]].
    + exists pre, mid, (pieces_text l''). by rewrite <- Htext, Ht, Ht'.
    + intros _. apply Hne. left.
  - injection H as <- <-. split; [|done]. exists s, "", "".
    by rewrite !sapp_nil_r.
Qed.

Lemma find_startend_time_in_text_witness :
  ∃ pre mid post,
    "Talk from 2:00 PM to 3:00 PM" = pre +:+ "2:00 PM" +:+ mid +:+ "3:00 PM" +:+ post.
Proof.
  assert (find_startend_time "Talk from 2:00 PM to 3:00 PM"
          = ("2:00 PM", "3:00 PM")) as H by (vm_compute; reflexivity).
  exact (proj1 (find_startend_time_in_text _ _ _ H)).
Defined.

(** ** The fields a run needs, and the columns of what it saves *)

(** The saved records all have the same fields: the columns of the last
    frame. *)
Lemma run_columns
    (parse : string → option datetime) (strict : bool) (former : option (list dict))
    (events out : list dict) :
  run parse strict former events = Ok out →
  ∃ (df : DataFrame) (cols : list string), normalize parse strict events = Ok df
    ∧ (∀ c, c ∈ KEY → c ∈ cols)
    ∧ (∀ c, c ∈ cols ↔
            c ∈ columns df
            ∨ (∃ e, e ∈ existing former ∧ is_Some (e !! c))
            ∨ (former = None ∧ c = "event_index"))
    ∧ (∀ o c, o ∈ out → is_Some (o !! c) ↔ c ∈ cols).
Proof.
  unfold run. intros H. apply bind_ok in H as (df & Hdf & H).
  exists df. destruct former as [records|]; simpl in H.
  - apply bind_ok in H as (dd & Hdd & H).
    apply drop_duplicates_ok in Hdd as (Hkey & Hcols & Hrows).
    apply bind_ok in H as (idx & Hidx & H).
    apply bind_ok in H as (top & Htop & H).
    apply bind_ok in H as (numbers & Hnum & H).
    apply bind_ok in H as (rows'' & Hast & H). apply Ok_inj in H as <-.
    exists (columns dd). split; [done|]. split; [|split].
    + intros c Hc. rewrite Hcols. by apply Hkey.
    + intros c. rewrite Hcols. unfold Pd.concat. simpl.
      rewrite elem_of_app, list_elem_of_filter.
      pose proof (elem_of_columns_of_records records c) as Hfc. simpl in Hfc.
      split.
      * intros [Hc|[_ Hc]]; [right; left; by apply Hfc|by left].
      * intros [Hc|[He|[? _]]]; [|left; by apply Hfc|done].
        destruct (decide (c ∈ remove_dups (records ≫= Pd.keys)));
          [by left|by right].
    + intros o c Ho. unfold Pd.to_dict in Ho. simpl in Ho.
      apply list_elem_of_fmap in Ho as (r & -> & _).
      rewrite lookup_series. case_bool_decide; [|by split; [intros []|]].
      split; [done|by eexists].
  - apply bind_ok in H as (dd & Hdd & H).
    apply drop_duplicates_ok in Hdd as (Hkey & Hcols & Hrows).
    apply Ok_inj in H as <-.
    set (vals := VInt <$> Pd.arange (List.length (rows dd))).
    exists (columns (Pd.set_col "event_index" vals dd)).
    split; [done|]. split; [|split].
    + intros c Hc. apply elem_of_set_col_columns. left. rewrite Hcols.
      by apply Hkey.
    + intros c. rewrite elem_of_set_col_columns, Hcols. simpl. split.
      * intros [?|?]; [by left|by right; right].
      * intros [?|[(e & []%elem_of_nil & _)|[_ ?]]]; [by left|by right].
    + intros o c Ho. unfold Pd.to_dict in Ho.
      apply list_elem_of_fmap in Ho as (r & -> & _).
      rewrite lookup_series. case_bool_decide; [|by split; [intros []|]].
      split; [done|by eexists].
Qed.

Lemma normalize_needs
    (parse : string → option datetime) (strict : bool) (events : list dict)
    (df : DataFrame) (c : string) :
  normalize parse strict events = Ok df →
  c ∈ ["date"; "starttime"; "endtime"] →
  ∃ e, e ∈ events ∧ is_Some (e !! c).
Proof.
  intros H Hc. pose proof (normalize_rows _ _ _ _ H) as (Hcols & Hend & Hrows).
  cbv zeta in Hcols, Hrows.
  change (columns (Pd.fillna (VStr "") (Pd.of_records events)))
    with (columns (Pd.of_records events)) in Hcols.
  change (rows (Pd.fillna (VStr "") (Pd.of_records events)))
    with ((λ r, Pd.fill (VStr "") <$> Pd.series (columns (Pd.of_records events)) r)
            <$> events) in Hrows.
  rewrite Forall2_fmap_l in Hrows.
  assert ("date" ∈ columns (Pd.of_records events)) as Hdate.
  { unfold normalize in H. cbv zeta in H.
    apply bind_ok in H as (dates & Hdates & _).
    by apply col_ok in Hdates as [? _]. }
  apply elem_of_columns_of_records.
  rewrite !elem_of_cons, elem_of_nil in Hc.
  destruct Hc as [->|[->|[->|[]]]]; [done| |].
  - apply elem_of_columns_of_records in Hdate as (e0 & (i & Hi)%list_elem_of_lookup_1 & _).
    destruct (Forall2_lookup_l _ _ _ _ _ Hrows Hi) as (r & _ & _ & _ & Hst & _).
    rewrite cell_fillna_row in Hst. case_bool_decide; [done|].
    by vm_compute in Hst.
  - apply Hcols in Hend as [?|[?|?]]; [done|done|done].
Qed.

(** X6.  A run saves a corpus only if every field it works on occurs in the
    batch: [date], [starttime] and [endtime] in some scraped record, and each
    of the six key fields in some scraped record or in some record of the old
    corpus.  Otherwise the run raises. *)
Theorem run_needs_every_field
    (parse : string → option datetime) (strict : bool) (former : option (list dict))
    (events out : list dict) :
  run parse strict former events = Ok out →
  (∀ c, c ∈ ["date"; "starttime"; "endtime"] →
     ∃ e, e ∈ events ∧ is_Some (e !! c))
  ∧ (∀ c, c ∈ KEY →
       ∃ e, e ∈ (existing former ++ events)%list ∧ is_Some (e !! c)).
Proof.
  intros (df & cols & Hdf & Hkey & Hcols & _)%run_columns.
  split; [intros c Hc; by eapply normalize_needs|].
  intros c Hc. pose proof Hc as Hk. apply Hkey, Hcols in Hc.
  assert (∀ c', (∃ e, e ∈ events ∧ is_Some (e !! c')) →
            ∃ e, e ∈ (existing former ++ events)%list ∧ is_Some (e !! c')) as Hr.
  { intros c' (e & He & Hs). exists e. split; [|done]. apply elem_of_app. by right. }
  destruct Hc as [Hc|[(e & He & Hs)|[_ ->]]].
  - apply normalize_rows in Hdf as Hn. destruct Hn as (Hcc & _ & _).
    apply Hcc in Hc as [Hc|[-> | ->]].
    + apply Hr. by apply elem_of_columns_of_records.
    + unfold KEY in Hk. rewrite !elem_of_cons, elem_of_nil in Hk.
      by destruct Hk as [?|[?|[?|[?|[?|[?|[]]]]]]].
    + apply Hr. eapply normalize_needs; [done|]. rewrite !elem_of_cons. auto.
  - exists e. split; [|done]. apply elem_of_app. by left.
  - unfold KEY in Hk. rewrite !elem_of_cons, elem_of_nil in Hk.
    by destruct Hk as [?|[?|[?|[?|[?|[?|[]]]]]]].
Qed.

Lemma run_needs_every_field_witness :
  ∃ e, e ∈ (existing (Some stored) ++ scraped)%list ∧ is_Some (e !! "owner").
Proof.
  assert (match run clock true (Some stored) scraped with
          | Ok l => True
          | Raise _ => False
          end) as Hok by (vm_compute; exact I).
  remember (run clock true (Some stored) scraped) as m eqn:Hrun.
  destruct m as [out|e]; [|exact (False_ind _ Hok)].
  symmetry in Hrun.
  apply (proj2 (run_needs_every_field _ _ _ _ _ Hrun) "owner").
  unfold KEY. rewrite !elem_of_cons. auto.
Defined.

(** ** A corpus file that holds an empty list *)

(** X7.  When the corpus file exists but holds the empty list, a batch that
    a first run would have stored makes the run raise [KeyError] on
    [event_index]: the frame of the old corpus has no column at all. *)
Theorem empty_corpus_file_raises
    (parse : string → option datetime) (strict : bool) (events out : list dict) :
  run parse strict None events = Ok out →
  run parse strict (Some []) events = Raise (KeyError "event_index").
Proof.
  intros H. unfold run in *. apply bind_ok in H as (df & Hdf & H).
  rewrite Hdf. simpl in *.
  apply bind_ok in H as (dd & Hdd & _).
  apply drop_duplicates_ok in Hdd as (Hkey & _ & _).
  rewrite drop_duplicates_returns; [done|].
  intros c Hc. simpl. apply list_elem_of_filter. split; [|by apply Hkey].
  apply not_elem_of_nil.
Qed.

Lemma empty_corpus_file_raises_witness :
  run clock true (Some []) scraped = Raise (KeyError "event_index").
Proof.
  assert (match run clock true None scraped with
          | Ok l => True
          | Raise _ => False
          end) as Hok by (vm_compute; exact I).
  remember (run clock true None scraped) as m eqn:Hrun.
  destruct m as [out|e]; [|exact (False_ind _ Hok)].
  symmetry in Hrun.
  exact (empty_corpus_file_raises _ _ _ _ Hrun).
Defined.

(** ** The corpus only grows at its end *)

(** With an old corpus of distinct keys, the records a run looks at are the
    old ones followed by the admitted new ones. *)
Lemma first_seen_old_corpus (records l : list dict) :
  NoDup (key_of <$> records) →
  Pd.first_seen key_of [] (records ++ l)
  = (records ++ Pd.first_seen key_of (reverse (key_of <$> records)) l)%list.
Proof.
  intros Hnd. rewrite first_seen_app.
  rewrite first_seen_id; [|done|intros ? _; apply not_elem_of_nil].
  by rewrite app_nil_r.
Qed.

Lemma fill_from_app (c : string) (vals : list Z) (l1 l2 : list dict) :
  Forall (λ r, ∃ n, cell r c = VInt n) l1 →
  Pd.fill_from c vals (l1 ++ l2) = (l1 ++ Pd.fill_from c vals l2)%list.
Proof.
  induction 1 as [|r l1 [n Hn] _ IH]; simpl; [done|]. by rewrite Hn, IH.
Qed.

(** An identifier between -2^53 and 2^53 is the same in every column. *)
Lemma as_dtype_room (t : Pd.dtype) (count : nat) (e : dict) :
  has_room count e → Pd.as_dtype t (index_of e) = index_of e.
Proof.
  intros (n & -> & Hlo & Hhi). destruct t; simpl; [done| |done].
  rewrite float64_exact; [done|lia].
Qed.

(** X8.  With an old corpus of distinct keys and of identifiers between
    -2^53 and 2^53, which a column of doubles holds as they are, the saved
    corpus starts with the old records, each at its place and with all its
    cells, and the new records come behind them; a run adds at most as many
    records as the batch holds. *)
Theorem corpus_is_append_only
    (parse : string → option datetime) (strict : bool)
    (records events out : list dict) :
  NoDup (key_of <$> records) →
  Forall (has_room 0) records →
  run parse strict (Some records) events = Ok out →
  Forall2 (λ o e, ∀ c, cell o c = cell e c)
    (take (List.length records) out) records
  ∧ (List.length records ≤ List.length out
     ≤ List.length records + List.length events)%nat.
Proof.
  intros Hnd Hroom Hrun.
  assert (Forall (λ e, ∃ n, index_of e = VInt n) records) as Hint.
  { eapply Forall_impl; [exact Hroom|]. intros e (n & Hn & _). eauto. }
  destruct (run_shape _ _ _ _ _ Hrun)
    as (df & Hdf & Hsame & top & numbers & _ & _ & Hidx & _).
  cbv zeta in *. simpl in Hsame. rewrite (retype_ints records Hint) in Hidx.
  rewrite first_seen_old_corpus in Hsame, Hidx by done.
  set (new := Pd.first_seen key_of (reverse (key_of <$> records)) (rows df)) in *.
  set (t := Pd.dtype_of _) in *.
  rewrite fill_from_app in Hidx by done.
  split.
  - apply (Forall2_take _ _ _ (List.length records)) in Hsame.
    rewrite take_app_length in Hsame.
    apply (f_equal (take (List.length records))) in Hidx.
    rewrite <- !fmap_take, take_app_length in Hidx.
    apply Forall2_same_length_lookup in Hsame as [Hlen Hsame].
    apply Forall2_same_length_lookup. split; [done|].
    intros i o e Ho He c. destruct (decide (c = "event_index")) as [->|Hc].
    + apply (f_equal (λ l, l !! i)) in Hidx.
      rewrite !list_lookup_fmap, Ho, He in Hidx. simpl in Hidx.
      injection Hidx as Hidx. fold (index_of o). rewrite Hidx.
      apply (as_dtype_room t 0). rewrite Forall_forall in Hroom.
      apply Hroom. by eapply list_elem_of_lookup_2.
    + by apply (Hsame i o e).
  - apply Forall2_length in Hsame. rewrite Hsame, length_app.
    pose proof (first_seen_length key_of (reverse (key_of <$> records)) (rows df))
      as Hle.
    fold new in Hle. rewrite (normalize_length _ _ _ _ Hdf) in Hle. lia.
Qed.

Lemma corpus_is_append_only_witness :
  ∃ out, run clock true (Some stored) scraped = Ok out
         ∧ Forall2 (λ o e, ∀ c, cell o c = cell e c) (take 1 out) stored.
Proof.
  assert (match run clock true (Some stored) scraped with
          | Ok l => True
          | Raise _ => False
          end) as Hok by (vm_compute; exact I).
  remember (run clock true (Some stored) scraped) as m eqn:Hrun.
  destruct m as [out|e]; [|exact (False_ind _ Hok)].
  symmetry in Hrun. exists out. split; [reflexivity|].
  refine (proj1 (corpus_is_append_only clock true stored scraped out _ _ Hrun)).
  - apply (bool_decide_unpack _). vm_compute. exact I.
  - repeat constructor. exists 7. split; [vm_compute; reflexivity|].
    split; vm_compute; discriminate.
Defined.

(** ** A second run on the same batch *)

Lemma first_seen_all_seen {K} `{EqDecision K} (key : dict → K) (seen : list K)
    (l : list dict) :
  (∀ r, r ∈ l → key r ∈ seen) → Pd.first_seen key seen l = [].
Proof.
  induction l as [|r l IH]; intros Hl; simpl; [done|].
  rewrite decide_True by (apply Hl; left).
  apply IH. intros r' Hr'. apply Hl. by right.
Qed.

(** The key of a normalised row does not depend on the date parser. *)
Lemma normalized_key_any_parser
    (parse parse' : string → option datetime) (r0 r r' : dict) :
  normalized parse r0 r → normalized parse' r0 r' → key_of r = key_of r'.
Proof.
  intros (Hs & _ & Hst & _) (Hs' & _ & Hst' & _).
  assert (cell r "starttime" = cell r' "starttime") as E by congruence.
  assert (∀ c, c ∉ ["date_dt"; "starttime"; "endtime"] → cell r c = cell r' c)
    as Hc.
  { intros c Hc. unfold cell. by rewrite Hs, Hs'. }
  unfold key_of, KEY. simpl.
  rewrite E, (Hc "owner"), (Hc "location"), (Hc "title"),
    (Hc "description"), (Hc "url"); [done|..];
    rewrite !elem_of_cons, elem_of_nil; intros [?|[?|[?|[]]]]; discriminate.
Qed.

(** No saved record lacks its identifier. *)
Lemma run_index_not_missing
    (parse : string → option datetime) (strict : bool) (former : option (list dict))
    (events out : list dict) :
  run parse strict former events = Ok out →
  Forall (λ o, cell o "event_index" ≠ VNaN) out.
Proof.
  intros (df & _ & _ & Hidx)%run_shape. cbv zeta in Hidx.
  assert (Forall (λ v, v ≠ VNaN) (index_of <$> out)) as H.
  { destruct former as [records|].
    - destruct Hidx as (top & numbers & _ & _ & _ & Hint). apply Forall_fmap.
      eapply Forall_impl; [exact Hint|]. intros o [n Hn]. simpl.
      by rewrite Hn.
    - rewrite Hidx. apply Forall_fmap, Forall_forall. done. }
  rewrite Forall_fmap in H. exact H.
Qed.

Lemma fill_from_id (c : string) (vals : list Z) (l : list dict) :
  Forall (λ r, cell r c ≠ VNaN) l → Pd.fill_from c vals l = l.
Proof.
  induction 1 as [|r l Hr _ IH]; simpl; [done|].
  destruct (cell r c); by rewrite ?IH.
Qed.

(** The identifiers of the batch are those the scrapers wrote, whatever
    the date parser. *)
Lemma normalize_index
    (parse : string → option datetime) (strict : bool) (events : list dict)
    (df : DataFrame) :
  normalize parse strict events = Ok df →
  index_of <$> rows df
  = index_of <$> rows (Pd.fillna (VStr "") (Pd.of_records events)).
Proof.
  intros (_ & _ & Hrows)%normalize_rows. cbv zeta in Hrows.
  apply list_eq_Forall2, Forall2_fmap, Forall2_flip.
  eapply Forall2_impl; [exact Hrows|]. intros r0 r (Hs & _). simpl.
  unfold index_of, cell. rewrite Hs; [done|].
  rewrite !elem_of_cons, elem_of_nil. intros [?|[?|[?|[]]]]; discriminate.
Qed.

(** X9.  A second run on the same batch changes nothing: fed the corpus that
    a run has saved and the batch of that run again, the merge saves exactly
    that corpus, with the same records, fields and identifiers, whatever the
    date parser and the version of pandas of the second run.  The
    identifiers of the second run are doubles when the batch brings none:
    those a run wrote next to an old corpus are doubles already, and those
    of a run without corpus file, 0, 1, 2, ..., are doubles up to 2^53. *)
Theorem rerun_changes_nothing
    (parse parse' : string → option datetime) (strict strict' : bool)
    (former : option (list dict)) (events out out' : list dict) :
  (former = None → Z.of_nat (List.length events) ≤ 2 ^ 53) →
  run parse strict former events = Ok out →
  run parse' strict' (Some out) events = Ok out' →
  out' = out.
Proof.
  intros Hsize Hrun Hrun'.
  destruct (run_shape _ _ _ _ _ Hrun) as (df & Hdf & Hsame & Hidx).
  destruct (run_columns _ _ _ _ _ Hrun) as (df_ & cols & Hdf_ & _ & Hcols & Hdom).
  rewrite Hdf in Hdf_. apply Ok_inj in Hdf_ as <-.
  destruct (run_shape _ _ _ _ _ Hrun')
    as (df' & Hdf' & Hsame' & top' & numbers' & _ & _ & Hidx' & _).
  destruct (run_columns _ _ _ _ _ Hrun')
    as (df'_ & cols' & Hdf'_ & _ & Hcols' & Hdom').
  rewrite Hdf' in Hdf'_. apply Ok_inj in Hdf'_ as <-.
  pose proof (run_index_not_missing _ _ _ _ _ Hrun) as Hnan.
  cbv zeta in *. simpl in Hsame', Hcols'.
  set (fs := Pd.first_seen key_of [] (existing former ++ rows df)) in *.
  assert (key_of <$> out = key_of <$> fs) as Hkeys by by apply same_data_keys.
  assert (NoDup (key_of <$> out)) as Hnd.
  { rewrite Hkeys. apply first_seen_NoDup. }
  (* the rows of the second frame have the keys of the rows of the first *)
  pose proof (normalize_rows _ _ _ _ Hdf) as (Hc1 & _ & Hrows).
  pose proof (normalize_rows _ _ _ _ Hdf') as (Hc2 & _ & Hrows').
  cbv zeta in *.
  assert (∀ r', r' ∈ rows df' → key_of r' ∈ reverse (key_of <$> out)) as Hseen.
  { intros r' (i & Hi)%list_elem_of_lookup_1.
    destruct (Forall2_lookup_r _ _ _ _ _ Hrows' Hi) as (r0 & Hi0 & Hn').
    destruct (Forall2_lookup_l _ _ _ _ _ Hrows Hi0) as (r & Hr & Hn).
    rewrite (normalized_key_any_parser _ _ _ _ _ Hn' Hn).
    apply elem_of_reverse. rewrite Hkeys.
    destruct (first_seen_complete key_of [] (existing former ++ rows df) r)
      as [[]%elem_of_nil|?]; [|done].
    apply elem_of_app. right. by eapply list_elem_of_lookup_2. }
  (* the identifiers of the first run *)
  assert (Forall (λ o, ∃ n, index_of o = VInt n) out) as Hint.
  { destruct former as [records|].
    - by destruct Hidx as (? & ? & _ & _ & _ & ?).
    - assert (Forall (λ v, ∃ n, v = VInt n) (index_of <$> out)) as H.
      { rewrite Hidx. apply Forall_fmap, Forall_forall. intros i _. simpl.
        eauto. }
      by rewrite Forall_fmap in H. }
  rewrite (retype_ints out Hint) in Hidx'.
  set (t' := Pd.dtype_of (index_of <$> (out ++ rows df')%list)) in *.
  assert (Forall (λ o, Pd.as_dtype t' (index_of o) = index_of o) out) as Hfix.
  { destruct t' eqn:Et'; [by apply Forall_forall| |by apply Forall_forall].
    unfold t' in Et'. apply dtype_of_float in Et' as [Hstr Hnone].
    rewrite fmap_app, existsb_app in Hstr, Hnone.
    rewrite (normalize_index _ _ _ _ Hdf') in Hstr, Hnone.
    rewrite <- (normalize_index _ _ _ _ Hdf) in Hstr, Hnone.
    destruct (existsb_ints (index_of <$> out)) as [Es En];
      [by apply Forall_fmap|].
    rewrite Es in Hstr. rewrite En in Hnone. simpl in Hstr, Hnone.
    destruct former as [records|].
    - destruct Hidx as (top & numbers & Htop & _ & Hidx & _).
      assert (Pd.dtype_of
                (index_of <$>
                 (rows (Pd.retype "event_index" (Pd.of_records records))
                  ++ rows df)%list) = Pd.Float64) as Et.
      { apply dtype_of_float. rewrite fmap_app, !existsb_app, Hstr, Hnone.
        rewrite (col_max_no_str _ _ Htop). split; [done|apply orb_true_r]. }
      rewrite Et in Hidx.
      apply Forall_forall. intros o (i & Hi)%list_elem_of_lookup_1.
      apply (f_equal (λ l, l !! i)) in Hidx.
      rewrite !list_lookup_fmap, Hi in Hidx. simpl in Hidx.
      destruct (Pd.fill_from _ _ _ !! i) as [r|]; [|done].
      simpl in Hidx. injection Hidx as ->.
      apply (as_dtype_idemp Pd.Float64).
    - apply Forall_forall. intros o (i & Hi)%list_elem_of_lookup_1.
      apply (f_equal (λ l, l !! i)) in Hidx.
      rewrite !list_lookup_fmap, Hi in Hidx. simpl in Hidx.
      destruct (seq 0 (List.length fs) !! i) as [j|] eqn:Ej; [|done].
      simpl in Hidx. injection Hidx as ->.
      apply lookup_seq in Ej as [-> Hj]. simpl.
      pose proof (first_seen_length key_of [] (existing None ++ rows df)) as Hle.
      fold fs in Hle. simpl in Hle. rewrite (normalize_length _ _ _ _ Hdf) in Hle.
      rewrite float64_exact; [done|]. specialize (Hsize eq_refl). lia. }
  rewrite first_seen_old_corpus in Hsame', Hidx' by done.
  rewrite first_seen_all_seen, app_nil_r in Hsame', Hidx' by done.
  rewrite fill_from_id in Hidx' by done.
  rewrite (Forall_fmap_ext_1 _ _ _ Hfix) in Hidx'.
  apply list_eq_Forall2.
  apply Forall2_same_length_lookup in Hsame' as [Hlen Hsame'].
  apply Forall2_same_length_lookup. split; [done|].
  intros i o' o Ho' Ho.
  assert (∀ c, cell o' c = cell o c) as Hcell.
  { intros c. destruct (decide (c = "event_index")) as [->|Hc].
    - apply (f_equal (λ l, l !! i)) in Hidx'.
      rewrite !list_lookup_fmap, Ho', Ho in Hidx'. by injection Hidx'.
    - by apply (Hsame' i o' o). }
  apply list_elem_of_lookup_2 in Ho', Ho.
  apply map_eq. intros c. specialize (Hcell c). unfold cell in Hcell.
  pose proof (Hdom' o' c Ho') as D'. pose proof (Hdom o c Ho) as D.
  assert (c ∈ cols' ↔ c ∈ cols) as Hcc.
  { rewrite Hcols'. split.
    - intros [Hc|[(e & He & Hs)|[? _]]]; [|by apply (Hdom e c He)|done].
      apply Hcols. left. apply Hc1. by apply Hc2.
    - intros Hc. right. left. exists o. split; [done|]. by apply D. }
  destruct (o' !! c) as [v'|] eqn:E'; destruct (o !! c) as [v|] eqn:E;
    simpl in Hcell.
  - by rewrite Hcell.
  - exfalso. assert (is_Some (@None value)) as []; [|done].
    apply D, Hcc, D'. by eexists.
  - exfalso. assert (is_Some (@None value)) as []; [|done].
    apply D', Hcc, D. by eexists.
  - done.
Qed.

Lemma rerun_changes_nothing_witness :
  ∃ out, run clock true (Some stored) scraped = Ok out
         ∧ run clock true (Some out) scraped = Ok out.
Proof.
  assert (match run clock true (Some stored) scraped with
          | Ok l => match run clock true (Some l) scraped with
                    | Ok _ => True
                    | Raise _ => False
                    end
          | Raise _ => False
          end) as Hok by (vm_compute; exact I).
  remember (run clock true (Some stored) scraped) as m eqn:Hrun.
  destruct m as [out|e]; [|exact (False_ind _ Hok)].
  remember (run clock true (Some out) scraped) as m' eqn:Hrun'.
  destruct m' as [out'|e]; [|exact (False_ind _ Hok)].
  symmetry in Hrun, Hrun'. exists out. split; [reflexivity|].
  rewrite Hrun'. f_equal.
  refine (rerun_changes_nothing _ _ _ _ _ _ _ _ _ Hrun Hrun'). discriminate.
Defined.

(** ** The calendar export: events that are passed over *)

Lemma convert_fields_raises
    (soup_text unidecode : string → string) (int : string → option Z)
    (event : element) (key : string) (keys : list string) :
  key ∈ keys →
  (∀ d, failed (convert_field soup_text unidecode int event d key) = true) →
  ∀ d, failed (convert_fields soup_text unidecode int event d keys) = true.
Proof.
  intros Hin Hkey. induction keys as [|k keys IH]; intros d; [by apply elem_of_nil in Hin|].
  simpl. destruct (decide (k = key)) as [->|Hne].
  - specialize (Hkey d).
    by destruct (convert_field soup_text unidecode int event d key).
  - apply elem_of_cons in Hin as [->|Hin]; [done|].
    destruct (convert_field soup_text unidecode int event d k); [|done].
    by apply IH.
Qed.

Lemma fetch_events_app
    (soup_text unidecode : string → string) (int : string → option Z)
    (l1 l2 : list element) :
  fetch_events soup_text unidecode int (l1 ++ l2)
  = (fetch_events soup_text unidecode int l1
     ++ fetch_events soup_text unidecode int l2)%list.
Proof.
  induction l1 as [|e l1 IH]; simpl; [done|].
  destruct (convert_event_to_dict soup_text unidecode int e); [|done].
  by rewrite IH.
Qed.

(** X10.  [fetch_events] passes over an event of the export that lacks one
    of the thirteen children, that has no text in its start or its end time,
    or whose url ends in a slash: [convert_event_to_dict] raises on it, and
    the list of events is the one without it. *)
Theorem incomplete_event_is_passed_over
    (soup_text unidecode : string → string) (int : string → option Z)
    (event : element) (key : string) :
  key ∈ EXPORT_KEYS →
  find key event = None
  ∨ (key ∈ ["starttime"; "endtime"]
     ∧ ∃ text, find key event = Some text ∧ default "" text = "")
  ∨ (key = "url" ∧ int "" = None
     ∧ ∃ u, find key event = Some (Some (u +:+ "/"))) →
  failed (convert_event_to_dict soup_text unidecode int event) = true
  ∧ ∀ before after,
      fetch_events soup_text unidecode int (before ++ event :: after)
      = fetch_events soup_text unidecode int (before ++ after).
Proof.
  intros Hkey Hbad.
  assert (failed (convert_event_to_dict soup_text unidecode int event) = true)
    as Hfail.
  { apply (convert_fields_raises _ _ _ _ key); [done|]. intros d.
    unfold convert_field.
    destruct Hbad as [->|[(Ht & text & -> & Hempty)|(-> & Hint & u & ->)]].
    - done.
    - cbv zeta. rewrite Hempty.
      rewrite !elem_of_cons, elem_of_nil in Ht.
      by destruct Ht as [->|[->|[]]].
    - cbv zeta. simpl default.
      change (Py.eqs "url" "description") with false.
      change (Py.eqs "url" "starttime" || Py.eqs "url" "endtime") with false.
      change (Py.eqs "url" "url") with true. cbv iota.
      rewrite bool_decide_eq_true_2 by (by destruct u).
      change (u +:+ "/") with (u +:+ String "/" "").
      rewrite last_split by done. by rewrite Hint. }
  split; [done|]. intros before after.
  rewrite !fetch_events_app. f_equal. simpl.
  by destruct (convert_event_to_dict soup_text unidecode int event).
Qed.

Lemma incomplete_event_is_passed_over_witness :
  fetch_events id id int_decimal
    [export_event "15:30:00" "16:00:00" "http://www.upenn.edu/calendar/123";
     export_event "15:30:00" "" "http://www.upenn.edu/calendar/124"]
  = fetch_events id id int_decimal
      [export_event "15:30:00" "16:00:00" "http://www.upenn.edu/calendar/123"].
Proof.
  refine (proj2 (incomplete_event_is_passed_over id id int_decimal
                   (export_event "15:30:00" "" "http://www.upenn.edu/calendar/124")
                   "endtime" _ _)
            [export_event "15:30:00" "16:00:00" "http://www.upenn.edu/calendar/123"]
            []).
  - unfold EXPORT_KEYS. rewrite !elem_of_cons. auto.
  - right. left. split; [rewrite !elem_of_cons; auto|].
    exists (Some ""). split; reflexivity.
Defined.

(** ** The calendar export: the times *)

Lemma strptime_two_digits :
  forallb (λ h, forallb (λ m, forallb (λ s,
    match Strptime.strptime
            (Datetime.pad2 (Z.of_nat h) +:+ ":" +:+ Datetime.pad2 (Z.of_nat m)
               +:+ ":" +:+ Datetime.pad2 (Z.of_nat s)) with
    | Ok t => (year t =? 1900) && (month t =? 1) && (day t =? 1)
              && (hour t =? Z.of_nat h) && (minute t =? Z.of_nat m)
    | Raise _ => false
    end) (seq 0 60)) (seq 0 60)) (seq 0 24) = true.
Proof. vm_cast_no_check (eq_refl true). Qed.

Lemma strptime_padded (h m s : Z) :
  0 ≤ h < 24 → 0 ≤ m < 60 → 0 ≤ s < 60 →
  Strptime.strptime (Datetime.pad2 h +:+ ":" +:+ Datetime.pad2 m
                       +:+ ":" +:+ Datetime.pad2 s)
  = Ok (mk_datetime 1900 1 1 h m).
Proof.
  intros Hh Hm Hs.
  pose proof (proj1 (forallb_forall _ _) strptime_two_digits (Z.to_nat h)
                ltac:(apply in_seq; lia)) as H1. cbv beta in H1.
  pose proof (proj1 (forallb_forall _ _) H1 (Z.to_nat m)
                ltac:(apply in_seq; lia)) as H2. cbv beta in H2.
  pose proof (proj1 (forallb_forall _ _) H2 (Z.to_nat s)
                ltac:(apply in_seq; lia)) as H. cbv beta in H.
  clear H1 H2. rewrite !Z2Nat.id in H by lia.
  destruct (Strptime.strptime _) as [[y mo d h' m']|]; [|done].
  simpl in H. rewrite !andb_true_iff, !Z.eqb_eq in H.
  by destruct H as [[[[-> ->] ->] ->] ->].
Qed.

(** X11.  A start or end time of the export, written as [HH:MM:SS] on the
    24-hour clock, is stored on the 12-hour clock as two digits for the
    hour, two for the minute and [AM] or [PM]; the seconds are dropped. *)
Theorem export_time_on_the_12_hour_clock
    (soup_text unidecode : string → string) (int : string → option Z)
    (event : element) (event_dict : dict) (key : string) (h m s : Z) :
  key ∈ ["starttime"; "endtime"] →
  0 ≤ h < 24 → 0 ≤ m < 60 → 0 ≤ s < 60 →
  find key event
  = Some (Some (Datetime.pad2 h +:+ ":" +:+ Datetime.pad2 m
                  +:+ ":" +:+ Datetime.pad2 s)) →
  convert_field soup_text unidecode int event event_dict key
  = Ok (<[key := VStr (Datetime.pad2 (Datetime.hour12 h) +:+ ":"
                         +:+ Datetime.pad2 m +:+ " "
                         +:+ (if h <? 12 then "AM" else "PM"))]> event_dict).
Proof.
  intros Hkey Hh Hm Hs Hfind. unfold convert_field. rewrite Hfind.
  cbv zeta. simpl default. rewrite strptime_padded by done.
  rewrite !elem_of_cons, elem_of_nil in Hkey.
  by destruct Hkey as [->|[->|[]]].
Qed.

Lemma export_time_on_the_12_hour_clock_witness :
  convert_field id id int_decimal
    (export_event "15:30:00" "00:05:59" "http://www.upenn.edu/calendar/123")
    ∅ "endtime"
  = Ok {["endtime" := VStr "12:05 AM"]}.
Proof.
  refine (export_time_on_the_12_hour_clock id id int_decimal
            (export_event "15:30:00" "00:05:59" "http://www.upenn.edu/calendar/123")
            ∅ "endtime" 0 5 59 _ _ _ _ _).
  - rewrite !elem_of_cons. auto.
  - lia.
  - lia.
  - lia.
  - reflexivity.
Defined.

(** ** The time of a MindCORE article *)

Lemma split_two_dashes (c : ascii) (pre mid post : string) :
  ∃ a b d l, Py.split c (pre +:+ String c (mid +:+ String c post))
             = a :: b :: d :: l.
Proof.
  rewrite !split_app_sep.
  destruct (split_nonempty c pre) as (a & la & ->).
  destruct (split_nonempty c mid) as (b & lb & ->).
  destruct (split_nonempty c post) as (d & ld & ->).
  destruct la as [|a' la]; simpl.
  - destruct lb as [|b' lb]; simpl; eauto.
  - destruct la as [|a'' la]; simpl; eauto.
Qed.

(** X12.  [extract_mindcore_event_detail] on the time of an article, once
    stripped: without a dash it is the start time and the end time is
    empty; with one dash the two sides are the start and the end time as
    they stand, blanks included, and [clean_starttime] keeps that start
    time; with two dashes or more the function raises [ValueError]. *)
Theorem mindcore_time_range (event : article) (href : option string) :
  article_link event = Some href →
  let event_time := default "" (Py.strip <$> article_time event) in
  (Py.contains "-" event_time = false →
   ∃ r, extract_mindcore_event_detail event = Ok r
        ∧ r !! "starttime" = Some (VStr event_time)
        ∧ r !! "endtime" = Some (VStr ""))
  ∧ (∀ pre post, event_time = pre +:+ "-" +:+ post →
       Py.contains "-" pre = false → Py.contains "-" post = false →
       ∃ r, extract_mindcore_event_detail event = Ok r
            ∧ r !! "starttime" = Some (VStr pre)
            ∧ r !! "endtime" = Some (VStr post)
            ∧ clean_starttime r = Ok (VStr pre))
  ∧ (∀ pre mid post, event_time = pre +:+ "-" +:+ mid +:+ "-" +:+ post →
       extract_mindcore_event_detail event = Raise ValueError).
Proof.
  intros Hlink event_time. unfold extract_mindcore_event_detail.
  rewrite Hlink. cbv zeta. fold event_time.
  generalize (default "" (Py.strip <$> article_title event)) as title.
  generalize (default "" (article_date event)) as date.
  generalize (default "" (Py.strip <$> article_content event)) as description.
  generalize (default "" href) as event_url.
  generalize event_time as t. clear. intros t event_url description date title.
  split; [|split].
  - intros ->. eexists. split; [reflexivity|]. split; reflexivity.
  - intros pre post -> Hpre Hpost.
    rewrite contains_app. simpl Py.contains at 2.
    rewrite orb_true_r. change ("-" +:+ post) with (String "-" post).
    rewrite split_app_sep.
    rewrite (split_no_sep "-" pre), (split_no_sep "-" post) by done. simpl.
    eexists. split; [reflexivity|].
    assert (∀ r : dict, r !! "starttime" = Some (VStr pre) →
              clean_starttime r = Ok (VStr pre)) as Hclean.
    { intros r Hr. unfold clean_starttime. by rewrite Hr, Hpre. }
    split; [reflexivity|]. split; [reflexivity|]. by apply Hclean.
  - intros pre mid post ->.
    rewrite contains_app. simpl Py.contains at 2. rewrite orb_true_r.
    change ("-" +:+ mid +:+ "-" +:+ post)
      with (String "-" (mid +:+ String "-" post)).
    by destruct (split_two_dashes "-" pre mid post) as (a & b & d & l & ->).
Qed.

Lemma mindcore_time_range_witness :
  ∃ r, extract_mindcore_event_detail
         (mk_article (Some "Colloquium: Ada Lovelace") (Some "February 6, 2019")
            (Some "A talk") (Some " 10:00 AM - 11:00 AM ") (Some (Some "/event/1")))
       = Ok r
       ∧ r !! "starttime" = Some (VStr "10:00 AM ")
       ∧ r !! "endtime" = Some (VStr " 11:00 AM")
       ∧ clean_starttime r = Ok (VStr "10:00 AM ").
Proof.
  refine (proj1 (proj2 (mindcore_time_range
                          (mk_article (Some "Colloquium: Ada Lovelace")
                             (Some "February 6, 2019") (Some "A talk")
                             (Some " 10:00 AM - 11:00 AM ")
                             (Some (Some "/event/1")))
                          (Some "/event/1") eq_refl))
            "10:00 AM " " 11:00 AM" _ _ _); reflexivity.
Defined.

(** ** The text of an element *)

Lemma join_empty_cons (x : string) (l : list string) :
  Py.join "" (x :: l) = x +:+ Py.join "" l.
Proof.
  destruct l as [|y l].
  - simpl. by rewrite sapp_nil_r.
  - cbn [Py.join]. by rewrite sapp_nil_l.
Qed.

Lemma join_truthy (parts : list (option string)) :
  Py.join "" (omap truthy parts)
  = foldr (λ p acc, default "" p +:+ acc) "" parts.
Proof.
  induction parts as [|p parts IH]; [done|].
  cbn [foldr]. rewrite <- IH.
  destruct p as [[|a s]|]; cbn [omap list_omap truthy default].
  - done.
  - by rewrite join_empty_cons.
  - done.
Qed.

(** X13.  [stringify_children] returns the text of the element, then the
    text and the tail of each of its children in their order, then the tail
    of the element.  A missing or empty text adds nothing, and the text of
    the elements below the children is not part of the result. *)
Theorem stringify_children_text (n : node) :
  stringify_children n
  = default "" (node_text n)
    +:+ foldr (λ c acc, default "" (node_text c) +:+ default "" (node_tail c)
                        +:+ acc)
          (default "" (node_tail n)) (getchildren n).
Proof.
  unfold stringify_children. cbv zeta. rewrite join_truthy.
  cbn [app foldr]. f_equal. rewrite foldr_app. cbn [foldr].
  rewrite sapp_nil_r.
  induction (getchildren n) as [|c cs IH]; [done|].
  cbn [mbind list_bind app foldr]. simpl. by rewrite IH.
Qed.

(** ** The corpus file, written and read back *)

(** *** Decimal numerals *)

Lemma num_go_app (acc : Z) (a b : string) :
  Dateutil.num_go acc (a +:+ b) = Dateutil.num_go (Dateutil.num_go acc a) b.
Proof.
  revert acc. induction a as [|c a IH]; intros acc; [done|].
  rewrite sapp_cons. simpl. apply IH.
Qed.

Lemma digits_app (d t : string) :
  Dateutil.digits d = (d, "") →
  Dateutil.digits (d +:+ t) = (d +:+ (Dateutil.digits t).1, (Dateutil.digits t).2).
Proof.
  induction d as [|a d IH]; intros H.
  - rewrite !sapp_nil_l. by destruct (Dateutil.digits t).
  - rewrite !sapp_cons. cbn [Dateutil.digits] in *.
    destruct (Py.isdigit a); [|done].
    destruct (Dateutil.digits d) as [d1 r1] eqn:E. injection H as -> ->.
    rewrite IH by done. done.
Qed.

Lemma pretty_N_char_digit (k : N) :
  (k < 10)%N →
  Py.isdigit (pretty_N_char k) = true
  ∧ Z.of_N (Py.ord (pretty_N_char k)) - 48 = Z.of_N k
  ∧ (0 < k → pretty_N_char k ≠ "0"%char)%N.
Proof.
  intros Hk.
  assert (k = 0 ∨ k = 1 ∨ k = 2 ∨ k = 3 ∨ k = 4 ∨ k = 5 ∨ k = 6 ∨ k = 7
          ∨ k = 8 ∨ k = 9)%N as Hc by lia.
  destruct Hc as [->|[->|[->|[->|[->|[->|[->|[->|[->| ->]]]]]]]]];
    (split; [reflexivity|split; [reflexivity|]]); try done; lia.
Qed.

(** What [pretty] prints for a natural number: digits that read as the
    number, the first of them not [0]. *)
Lemma pretty_N_go_digits (x : N) :
  ∃ d, (∀ s, pretty_N_go x s = d +:+ s)
       ∧ Dateutil.digits d = (d, "")
       ∧ Dateutil.num d = Z.of_N x
       ∧ ((0 < x)%N → ∃ a d', d = String a d' ∧ a ≠ "0"%char).
Proof.
  induction (N.lt_wf_0 x) as [x _ IH].
  destruct (decide (x = 0%N)) as [->|Hx].
  { exists "". split; [done|]. split; [done|]. split; [done|]. lia. }
  assert (0 < x)%N as Hpos by lia.
  destruct (IH (x `div` 10)%N) as (dq & Hgo & Hdig & Hnum & Hfirst).
  { apply N.div_lt; lia. }
  destruct (pretty_N_char_digit (x `mod` 10)%N) as (Hc1 & Hc2 & Hc3).
  { apply N.mod_lt. lia. }
  set (c := pretty_N_char (x `mod` 10)) in *.
  exists (dq +:+ String c ""). split; [|split; [|split]].
  - intros s. rewrite pretty_N_go_step, Hgo by done. by rewrite sapp_assoc.
  - rewrite digits_app by done. simpl. by rewrite Hc1.
  - unfold Dateutil.num in *. rewrite num_go_app, Hnum. simpl.
    rewrite Hc2. pose proof (N.div_mod x 10 ltac:(done)) as Hdm.
    revert Hdm. generalize (x `div` 10)%N (x `mod` 10)%N. lia.
  - intros _. destruct (decide (x `div` 10 = 0)%N) as [Hq|Hq].
    + assert (dq = "") as ->.
      { specialize (Hgo ""). rewrite Hq, pretty_N_go_0, sapp_nil_r in Hgo. done. }
      exists c, "". split; [done|]. apply Hc3.
      rewrite N.mod_small; [done|]. by apply N.div_small_iff in Hq.
    + destruct Hfirst as (a & d' & -> & Ha); [by apply N.neq_0_lt_0|].
      exists a, (d' +:+ String c ""). by rewrite sapp_cons.
Qed.

Lemma pretty_pos_digits (p : positive) :
  ∃ a d, pretty (Z.pos p) = String a d
         ∧ Dateutil.digits (String a d) = (String a d, "")
         ∧ Dateutil.num (String a d) = Z.pos p
         ∧ a ≠ "0"%char.
Proof.
  destruct (pretty_N_go_digits (N.pos p)) as (d & Hgo & Hdig & Hnum & Hfirst).
  destruct Hfirst as (a & d' & -> & Ha); [lia|].
  exists a, d'. split; [|done].
  change (pretty (Z.pos p)) with (pretty_N_go (N.pos p) "").
  by rewrite Hgo, sapp_nil_r.
Qed.

Lemma digits_first (a : ascii) (d : string) :
  Dateutil.digits (String a d) = (String a d, "") → Py.isdigit a = true.
Proof. simpl. by destruct (Py.isdigit a). Qed.

Lemma pretty_Z_cases (n : Z) :
  pretty n = "0"
  ∨ (∃ a d, pretty n = String a d
            ∧ Dateutil.digits (String a d) = (String a d, "")
            ∧ Dateutil.num (String a d) = n ∧ a ≠ "0"%char)
  ∨ (∃ a d, pretty n = String "-" (String a d)
            ∧ Dateutil.digits (String a d) = (String a d, "")
            ∧ - Dateutil.num (String a d) = n ∧ a ≠ "0"%char).
Proof.
  destruct n as [|p|p].
  - by left.
  - right. left. destruct (pretty_pos_digits p) as (a & d & ? & ? & ? & ?).
    by exists a, d.
  - right. right. destruct (pretty_pos_digits p) as (a & d & Hp & ? & Hn & ?).
    exists a, d. split; [|split; [done|split; [|done]]].
    + change (pretty (Z.neg p)) with ("-" +:+ pretty (Z.pos p)). by rewrite Hp.
    + rewrite Hn. done.
Qed.

(** *** The reader on what [Json.dumps] writes *)

Lemma string_body_escape (a : ascii) (t : string) :
  Json.string_body (Json.escape a +:+ t)
  = '(u, r) ← Json.string_body t; Some (String a u, r).
Proof. destruct a as [[] [] [] [] [] [] [] []]; reflexivity. Qed.

Lemma string_body_escape_all (s rest : string) :
  Json.string_body (Json.escape_all s +:+ String Json.dq rest) = Some (s, rest).
Proof.
  induction s as [|a s IH]; [reflexivity|].
  cbn [Json.escape_all]. by rewrite sapp_assoc, string_body_escape, IH.
Qed.

Lemma quote_app (k t : string) :
  Json.quote k +:+ t
  = String Json.dq (Json.escape_all k +:+ String Json.dq t).
Proof.
  unfold Json.quote, Json.str1. by rewrite sapp_cons, sapp_assoc.
Qed.

Lemma natural_nonzero (a : ascii) (t : string) :
  a ≠ "0"%char →
  Json.natural (String a t)
  = let '(ds, r) := Dateutil.digits (String a t) in
    match ds with
    | EmptyString => None
    | _ => Some (Dateutil.num ds, r)
    end.
Proof. destruct a as [[] [] [] [] [] [] [] []]; done. Qed.

Lemma value_of_digit (f : nat) (a : ascii) (t : string) :
  Py.isdigit a = true →
  Json.value_of (S f) (String a t)
  = '(n, r') ← Json.natural (String a t); Some (Json.JInt n, r').
Proof. destruct a as [[] [] [] [] [] [] [] []]; done. Qed.

Lemma is_ws_digit (a : ascii) : Py.isdigit a = true → Json.is_ws a = false.
Proof. destruct a as [[] [] [] [] [] [] [] []]; done. Qed.

Lemma natural_digits (a : ascii) (d t : string) :
  Dateutil.digits (String a d) = (String a d, "") →
  Dateutil.digits t = ("", t) →
  a ≠ "0"%char →
  Json.natural (String a d +:+ t) = Some (Dateutil.num (String a d), t).
Proof.
  intros Hd Ht Ha. rewrite sapp_cons, natural_nonzero by done.
  rewrite <- sapp_cons, digits_app, Ht by done. simpl.
  by rewrite sapp_nil_r.
Qed.

Lemma value_of_scalar (f : nat) (v : value) (t : string) :
  Dateutil.digits t = ("", t) →
  Json.value_of (S f) (Json.dumps_value v +:+ t) = Some (to_json v, t).
Proof.
  intros Ht. destruct v as [s|n|]; cbn [Json.dumps_value to_json].
  - rewrite quote_app.
    change (Json.value_of (S f) (String Json.dq ?x))
      with ('(u, r') ← Json.string_body x; Some (Json.JStr u, r')).
    by rewrite string_body_escape_all.
  - destruct (pretty_Z_cases n)
      as [E|[(a & d & -> & Hd & <- & Ha)|(a & d & -> & Hd & <- & Ha)]].
    + assert (n = 0) as -> by (by apply (inj pretty)). reflexivity.
    + rewrite sapp_cons, value_of_digit by (by eapply digits_first).
      by rewrite <- sapp_cons, natural_digits.
    + rewrite sapp_cons.
      change (Json.value_of (S f) (String "-" ?x))
        with ('(n, r') ← Json.natural x; Some (Json.JInt (- n), r')).
      by rewrite natural_digits.
  - reflexivity.
Qed.

Lemma skip_ws_value (v : value) (t : string) :
  Json.skip_ws (Json.dumps_value v +:+ t) = Json.dumps_value v +:+ t.
Proof.
  destruct v as [s|n|]; cbn [Json.dumps_value]; [by rewrite quote_app| |done].
  destruct (pretty_Z_cases n) as [->|[(a & d & -> & Hd & _)|(a & d & -> & _)]];
    [done| |done].
  rewrite sapp_cons. simpl. by rewrite is_ws_digit by (by eapply digits_first).
Qed.

Lemma member_app (kv : string * value) (t : string) :
  member kv +:+ t
  = String Json.dq (Json.escape_all kv.1
      +:+ String Json.dq (String ":" (String " " (Json.dumps_value kv.2 +:+ t)))).
Proof. unfold member. by rewrite !sapp_assoc, quote_app. Qed.

Lemma join_cons_cons (sep x y : string) (l : list string) :
  Py.join sep (x :: y :: l) = x +:+ sep +:+ Py.join sep (y :: l).
Proof. reflexivity. Qed.

Lemma members_unfold (f : nat) (r0 : string) :
  Json.members (S f) (String Json.dq r0)
  = '(k, r) ← Json.string_body r0;
    match Json.skip_ws r with
    | String ":" r1 =>
        '(v, r2) ← Json.value_of f (Json.skip_ws r1);
        match Json.skip_ws r2 with
        | String "," r3 =>
            '(l, r') ← Json.members f (Json.skip_ws r3);
            Some ((k, v) :: l, r')
        | String "}" r3 => Some ([(k, v)], r3)
        | _ => None
        end
    | _ => None
    end.
Proof. reflexivity. Qed.

(** One member of an object, followed by a comma or by the closing brace. *)
Lemma members_step (f : nat) (kv : string * value) (t : string) :
  Dateutil.digits t = ("", t) →
  Json.members (S (S f)) (member kv +:+ t)
  = match Json.skip_ws t with
    | String "," r3 =>
        '(l, r') ← Json.members (S f) (Json.skip_ws r3);
        Some ((kv.1, to_json kv.2) :: l, r')
    | String "}" r3 => Some ([(kv.1, to_json kv.2)], r3)
    | _ => None
    end.
Proof.
  intros Ht. rewrite member_app, members_unfold, string_body_escape_all.
  remember (Json.dumps_value kv.2 +:+ t) as X eqn:EX.
  cbn [mbind option_bind]. simpl Json.skip_ws. subst X.
  change (Json.skip_ws (String " " ?x)) with (Json.skip_ws x).
  by rewrite skip_ws_value, value_of_scalar.
Qed.

Lemma member_length (kv : string * value) : (1 ≤ String.length (member kv))%nat.
Proof.
  pose proof (member_app kv "") as H. rewrite sapp_nil_r in H. rewrite H.
  simpl. lia.
Qed.

Lemma skip_ws_member (kv : string * value) (t : string) :
  Json.skip_ws (member kv +:+ t) = member kv +:+ t.
Proof. by rewrite member_app. Qed.

Lemma members_items (kvs : list (string * value)) :
  ∀ (kv : string * value) (rest : string) (f : nat),
    (String.length (Py.join ", " (member <$> kv :: kvs)) ≤ f)%nat →
    Json.members (S f) (Py.join ", " (member <$> kv :: kvs) +:+ String "}" rest)
    = Some (to_members (kv :: kvs), rest).
Proof.
  induction kvs as [|kv' kvs IH]; intros kv rest f Hf.
  - cbn [fmap list_fmap Py.join] in *.
    destruct f as [|f]; [pose proof (member_length kv); lia|].
    by rewrite members_step.
  - rewrite !fmap_cons, join_cons_cons in *.
    rewrite !length_sapp in Hf. pose proof (member_length kv).
    destruct f as [|f]; [lia|].
    rewrite !sapp_assoc, members_step by done.
    change (", " +:+ ?x) with (String "," (String " " x)).
    change (Json.skip_ws (String "," ?x)) with (String "," x).
    cbv iota.
    change (Json.skip_ws (String " " ?x)) with (Json.skip_ws x).
    rewrite <- fmap_cons.
    assert (∀ t, Json.skip_ws (Py.join ", " (member <$> kv' :: kvs) +:+ t)
                 = Py.join ", " (member <$> kv' :: kvs) +:+ t) as Hskip.
    { intros t. rewrite fmap_cons. destruct kvs; cbn [fmap list_fmap Py.join].
      - apply skip_ws_member.
      - rewrite !sapp_assoc. apply skip_ws_member. }
    rewrite Hskip, IH; [done|]. rewrite fmap_cons.
    change (String.length ", ") with 2%nat in Hf. lia.
Qed.

Lemma dumps_members (r : dict) :
  Json.dumps r = String "{" (Py.join ", " (member <$> map_to_list r) +:+ "}").
Proof. reflexivity. Qed.

Lemma value_of_object (f : nat) (x : string) (a : ascii) (y : string) :
  Json.skip_ws x = String a y → a ≠ "}"%char →
  Json.value_of (S f) (String "{" x)
  = '(l, r') ← Json.members f (String a y); Some (Json.JObj l, r').
Proof.
  intros E Ha.
  transitivity (match Json.skip_ws x with
                | String "}" r' => Some (Json.JObj [], r')
                | r1 => '(l, r') ← Json.members f r1; Some (Json.JObj l, r')
                end); [reflexivity|].
  rewrite E. by destruct a as [[] [] [] [] [] [] [] []].
Qed.

Lemma value_of_array (f : nat) (x : string) (a : ascii) (y : string) :
  Json.skip_ws x = String a y → a ≠ "]"%char →
  Json.value_of (S f) (String "[" x)
  = '(l, r') ← Json.elements f (String a y); Some (Json.JArr l, r').
Proof.
  intros E Ha.
  transitivity (match Json.skip_ws x with
                | String "]" r' => Some (Json.JArr [], r')
                | r1 => '(l, r') ← Json.elements f r1; Some (Json.JArr l, r')
                end); [reflexivity|].
  rewrite E. by destruct a as [[] [] [] [] [] [] [] []].
Qed.

(** The reader on the text of a record. *)
Lemma value_of_dumps (r : dict) (rest : string) (f : nat) :
  (String.length (Json.dumps r) ≤ f)%nat →
  Json.value_of f (Json.dumps r +:+ rest)
  = Some (Json.JObj (to_members (map_to_list r)), rest).
Proof.
  rewrite dumps_members. cbn [String.length]. rewrite length_sapp, sapp_cons, sapp_assoc.
  intros Hf. destruct f as [|f]; [lia|].
  destruct (map_to_list r) as [|kv kvs]; [done|].
  destruct f as [|f]; [simpl in Hf; lia|].
  change ("}" +:+ rest) with (String "}" rest).
  assert (∃ y, Py.join ", " (member <$> kv :: kvs) +:+ String "}" rest
               = String Json.dq y) as [y E].
  { destruct kvs; cbn [fmap list_fmap Py.join]; rewrite ?sapp_assoc, member_app;
      eauto. }
  rewrite (value_of_object _ _ Json.dq y); [|by rewrite E|done].
  rewrite <- E, members_items; [done|].
  change (String.length "}") with 1%nat in Hf. lia.
Qed.

Lemma elements_unfold (f : nat) (s : string) :
  Json.elements (S f) s
  = '(v, r) ← Json.value_of f s;
    match Json.skip_ws r with
    | String "," r1 =>
        '(l, r') ← Json.elements f (Json.skip_ws r1); Some (v :: l, r')
    | String "]" r1 => Some ([v], r1)
    | _ => None
    end.
Proof. reflexivity. Qed.

Lemma skip_ws_dumps (r : dict) (t : string) :
  Json.skip_ws (Json.dumps r +:+ t) = Json.dumps r +:+ t.
Proof. by rewrite dumps_members. Qed.

Lemma elements_records (rs : list dict) :
  ∀ (r : dict) (rest : string) (f : nat),
    (String.length (Py.join ("," +:+ nl +:+ "  ") (Json.dumps <$> r :: rs)) ≤ f)%nat →
    Json.elements (S f)
      (Py.join ("," +:+ nl +:+ "  ") (Json.dumps <$> r :: rs)
         +:+ nl +:+ String "]" rest)
    = Some ((λ r, Json.JObj (to_members (map_to_list r))) <$> r :: rs, rest).
Proof.
  induction rs as [|r' rs IH]; intros r rest f Hf.
  - cbn [fmap list_fmap Py.join] in *.
    by rewrite elements_unfold, value_of_dumps.
  - rewrite !fmap_cons, join_cons_cons in *.
    rewrite !length_sapp in Hf.
    change (String.length "," + (String.length nl + String.length "  "))%nat
      with 4%nat in Hf.
    rewrite elements_unfold, !sapp_assoc, value_of_dumps by lia.
    destruct f as [|f]; [lia|].
    cbn [mbind option_bind].
    change (Json.skip_ws ("," +:+ ?x)) with (String "," x). cbv iota.
    change (Json.skip_ws (nl +:+ "  " +:+ ?x)) with (Json.skip_ws x).
    rewrite <- fmap_cons.
    assert (∀ t, Json.skip_ws (Py.join ("," +:+ nl +:+ "  ") (Json.dumps <$> r' :: rs) +:+ t)
                 = Py.join ("," +:+ nl +:+ "  ") (Json.dumps <$> r' :: rs) +:+ t)
      as Hskip.
    { intros t. rewrite fmap_cons. destruct rs; cbn [fmap list_fmap Py.join].
      - apply skip_ws_dumps.
      - rewrite !sapp_assoc. apply skip_ws_dumps. }
    rewrite Hskip, IH; [done|]. rewrite fmap_cons. lia.
Qed.

(** The whole file of [save_json] under [json.loads]. *)
Lemma loads_save_json (ls : list dict) :
  Json.loads (save_json ls)
  = Some (Json.JArr ((λ r, Json.JObj (to_members (map_to_list r))) <$> ls)).
Proof.
  destruct ls as [|r rs]; [reflexivity|].
  unfold Json.loads, save_json.
  set (J := Py.join ("," +:+ nl +:+ "  ") (Json.dumps <$> r :: rs)).
  change (Json.skip_ws ("[" +:+ nl +:+ "  " +:+ J +:+ nl +:+ "]"))
    with (String "[" (nl +:+ "  " +:+ J +:+ nl +:+ "]")).
  cbv zeta.
  assert (∀ t, Json.skip_ws (J +:+ t) = J +:+ t
               ∧ ∃ y, J +:+ t = String "{" y) as HJ.
  { intros t. unfold J. rewrite fmap_cons. destruct rs; cbn [fmap list_fmap Py.join].
    - rewrite skip_ws_dumps, dumps_members. eauto.
    - rewrite !sapp_assoc, skip_ws_dumps, dumps_members. eauto. }
  destruct (HJ (nl +:+ "]")) as [Hskip [y Ey]].
  rewrite (value_of_array _ _ "{" y); [| |done].
  - rewrite <- Ey. cbn [String.length]. rewrite !length_sapp.
    unfold J at 2. rewrite (elements_records rs r ""); [done|].
    fold J. lia.
  - change (Json.skip_ws (nl +:+ "  " +:+ ?x)) with (Json.skip_ws x).
    by rewrite Hskip.
Qed.

Lemma as_record_members (r : dict) :
  Json.as_record (Json.JObj (to_members (map_to_list r))) = Some r.
Proof.
  unfold Json.as_record.
  assert (∀ kvs, mapM (λ kv : string * Json.json,
                         v ← Json.as_value kv.2; Some (kv.1, v))
                   (to_members kvs) = Some kvs) as H.
  { intros kvs. apply mapM_Some. unfold to_members.
    apply Forall2_fmap_l, Forall_Forall2_diag, Forall_forall.
    intros [k v] _. by destruct v. }
  rewrite H. cbn. f_equal.
  rewrite <- (list_to_map_to_list r) at 2.
  apply list_to_map_proper.
  - rewrite fmap_reverse, reverse_Permutation. apply NoDup_fst_map_to_list.
  - apply reverse_Permutation.
Qed.

Lemma as_records_members (ls : list dict) :
  mapM Json.as_record ((λ r, Json.JObj (to_members (map_to_list r))) <$> ls)
  = Some ls.
Proof.
  apply mapM_Some, Forall2_fmap_l, Forall_Forall2_diag, Forall_forall.
  intros r _. apply as_record_members.
Qed.

(** X14.  What [save_json] writes, [__main__] reads back on the next run:
    [json.loads] accepts the whole text of the file, and the records it
    yields are the saved ones, each with the same fields and cells. *)
Theorem saved_corpus_is_read_back (ls : list dict) :
  ∃ j, read_whole Json.loads (save_json ls) = Ok j
       ∧ Json.as_records j = Some ls.
Proof.
  eexists. unfold read_whole, json_loads. rewrite loads_save_json.
  split; [reflexivity|]. apply as_records_members.
Qed.

(** ** The lines of the corpus file *)

Lemma escape_no_newline (a : ascii) :
  Py.contains (Py.chr 10) (Json.escape a) = false.
Proof. by destruct a as [[] [] [] [] [] [] [] []]. Qed.

Lemma escape_all_no_newline (s : string) :
  Py.contains (Py.chr 10) (Json.escape_all s) = false.
Proof.
  induction s as [|a s IH]; [done|].
  cbn [Json.escape_all]. by rewrite contains_app, escape_no_newline, IH.
Qed.

Lemma quote_no_newline (s : string) :
  Py.contains (Py.chr 10) (Json.quote s) = false.
Proof.
  unfold Json.quote. cbn [Py.contains].
  by rewrite contains_app, escape_all_no_newline.
Qed.

Lemma digits_no_newline (d : string) :
  Dateutil.digits d = (d, "") → Py.contains (Py.chr 10) d = false.
Proof.
  induction d as [|a d IH]; [done|]. cbn [Dateutil.digits Py.contains].
  destruct (Py.isdigit a) eqn:Ha; [|done].
  destruct (Dateutil.digits d) as [d1 r1]. intros [= -> ->].
  rewrite IH by done. by destruct a as [[] [] [] [] [] [] [] []].
Qed.

Lemma dumps_value_no_newline (v : value) :
  Py.contains (Py.chr 10) (Json.dumps_value v) = false.
Proof.
  destruct v as [s|n|]; cbn [Json.dumps_value]; [apply quote_no_newline| |done].
  destruct (pretty_Z_cases n) as [->|[(a & d & -> & Hd & _)|(a & d & -> & Hd & _)]];
    [done|by apply digits_no_newline|].
  exact (digits_no_newline _ Hd).
Qed.

Lemma join_no_newline (sep : string) (l : list string) :
  Py.contains (Py.chr 10) sep = false →
  Forall (λ x, Py.contains (Py.chr 10) x = false) l →
  Py.contains (Py.chr 10) (Py.join sep l) = false.
Proof.
  intros Hsep. induction 1 as [|x l Hx Hl IH]; [done|].
  destruct l as [|y l]; [done|].
  rewrite join_cons_cons, !contains_app, Hx, Hsep. done.
Qed.

(** A record is written on one line. *)
Lemma dumps_no_newline (r : dict) :
  Py.contains (Py.chr 10) (Json.dumps r) = false.
Proof.
  rewrite dumps_members. cbn [Py.contains]. rewrite contains_app.
  rewrite join_no_newline; [done|done|].
  apply Forall_fmap, Forall_forall. intros kv _. unfold member, compose.
  by rewrite !contains_app, quote_no_newline, dumps_value_no_newline.
Qed.

Lemma readlines_line (x rest : string) :
  Py.contains (Py.chr 10) x = false →
  readlines (x +:+ nl +:+ rest) = (x +:+ nl) :: readlines rest.
Proof.
  induction x as [|a x IH]; intros Hx; [done|].
  cbn [Py.contains] in Hx. apply orb_false_iff in Hx as [Ha Hx].
  rewrite !sapp_cons. cbn [readlines]. rewrite Ha, IH by done. done.
Qed.

Lemma readlines_last (x : string) :
  Py.contains (Py.chr 10) x = false → x ≠ "" → readlines x = [x].
Proof.
  induction x as [|a x IH]; intros Hx Hne; [done|].
  cbn [Py.contains] in Hx. apply orb_false_iff in Hx as [Ha Hx].
  cbn [readlines]. rewrite Ha. destruct x as [|b x]; [done|].
  by rewrite IH.
Qed.

(** X15.  [save_json] writes one record per line: the opening bracket on a
    line of its own, then each record on its line behind two blanks, a comma
    behind every record but the last, and the closing bracket on the last
    line, which has no line end. *)
Theorem save_json_one_record_per_line (ls : list dict) (r : dict) :
  readlines (save_json (ls ++ [r]))
  = (("[" +:+ nl)
     :: ((λ x, "  " +:+ Json.dumps x +:+ "," +:+ nl) <$> ls)
     ++ ["  " +:+ Json.dumps r +:+ nl; "]"])%list.
Proof.
  unfold save_json.
  change ("[" +:+ nl +:+ ?x) with (("[" +:+ nl) +:+ x).
  change ("[" +:+ nl) with ("[" +:+ nl +:+ "") at 1.
  rewrite sapp_assoc, sapp_assoc, readlines_line by done.
  rewrite sapp_nil_l. f_equal.
  induction ls as [|x ls IH].
  - cbn [app fmap list_fmap Py.join].
    rewrite <- !sapp_assoc.
    rewrite (sapp_assoc _ nl "]"), readlines_line; [done|].
    by rewrite contains_app, dumps_no_newline.
  - rewrite <- app_comm_cons, !fmap_cons.
    assert (∃ y l', Json.dumps <$> (ls ++ [r])%list = y :: l') as (y & l' & E).
    { destruct ls; simpl; eauto. }
    rewrite E, join_cons_cons, <- E.
    rewrite <- app_comm_cons, <- IH.
    rewrite !sapp_assoc.
    change ("," +:+ nl +:+ ?z) with (("," +:+ nl) +:+ z).
    rewrite <- (sapp_assoc (Json.dumps x)), <- (sapp_assoc "  ").
    rewrite <- (sapp_assoc _ "," nl) at 1.
    rewrite (sapp_assoc ("  " +:+ Json.dumps x +:+ ",") nl).
    rewrite readlines_line.
    + by rewrite !sapp_assoc.
    + by rewrite !contains_app, dumps_no_newline.
Qed.

(** ** [read_json] on a file with one record per line *)

Lemma loads_line (r : dict) :
  Json.loads (Json.dumps r +:+ nl)
  = Some (Json.JObj (to_members (map_to_list r))).
Proof.
  unfold Json.loads. rewrite skip_ws_dumps. cbv zeta.
  rewrite value_of_dumps by (rewrite length_sapp; lia).
  reflexivity.
Qed.

(** X16.  [read_json] reads the files that hold one [json.dumps] of a
    record per line: it returns the records of the lines in their order,
    each with the same fields and cells. *)
Theorem read_json_reads_one_record_per_line (ls : list dict) :
  ∃ js, read_json Json.loads
          (Some (foldr (λ r text, Json.dumps r +:+ nl +:+ text) "" ls))
        = Ok js
        ∧ mapM Json.as_record js = Some ls.
Proof.
  exists ((λ r, Json.JObj (to_members (map_to_list r))) <$> ls).
  split; [|apply as_records_members].
  unfold read_json. induction ls as [|r ls IH]; [done|].
  cbn [foldr]. rewrite readlines_line by apply dumps_no_newline.
  change (rmapM ?f (?x :: ?l)) with (y ← f x; ys ← rmapM f l; Ok (y :: ys)).
  assert (json_loads Json.loads (Json.dumps r +:+ nl)
          = Ok (Json.JObj (to_members (map_to_list r)))) as E.
  { unfold json_loads. by rewrite loads_line. }
  rewrite E, IH. reflexivity.
Qed.

(** ** The words that [preprocess] hands to the stemmer *)

Lemma contains_map (f : ascii → ascii) (a : ascii) (s : string) :
  Py.contains a (Text.map f s) = true →
  ∃ c, Py.contains c s = true ∧ a = f c.
Proof.
  induction s as [|b s IH]; [done|]. cbn [Text.map Py.contains].
  intros [Hb|Hs]%orb_true_iff.
  - exists b. split; [|symmetry; by apply eqc_true].
    unfold Py.eqc. by rewrite Ascii.eqb_refl.
  - destruct (IH Hs) as (c & Hc & ->). exists c. by rewrite Hc, orb_true_r.
Qed.

Lemma length_map (f : ascii → ascii) (s : string) :
  String.length (Text.map f s) = String.length s.
Proof. induction s as [|a s IH]; simpl; [done|]. by rewrite IH. Qed.

Lemma lowered_char (c : ascii) :
  let a := Text.lower c in
  let a' := if Text.punctuation a then " "%char else a in
  Text.punctuation a' = false ∧ Text.isupper_ascii a' = false.
Proof. by destruct c as [[] [] [] [] [] [] [] []]. Qed.

(** X17.  [preprocess] joins with single blanks the stems of the words that
    the tokenizer finds in the text it is handed.  That text is the one of
    [unidecode], lowered, with a blank in the place of every punctuation
    character: it has the same length and holds no punctuation and no
    capital letter [A-Z].  So, for a tokenizer whose words are made of
    characters of its text, no word handed to the stemmer holds punctuation
    or a capital letter [A-Z]; and the flag [stemming] changes nothing. *)
Theorem preprocess_words
    (unidecode stem : string → string) (tokenize : string → list string)
    (text : option string) (stemming : bool) :
  (∀ s w a, w ∈ tokenize s → Py.contains a w = true → Py.contains a s = true) →
  ∃ t,
    preprocess unidecode stem tokenize text stemming
    = Py.join " " (stem <$> tokenize t)
    ∧ String.length t = String.length (unidecode (default "" text))
    ∧ (∀ a, Py.contains a t = true →
            Text.punctuation a = false ∧ Text.isupper_ascii a = false)
    ∧ Forall (λ w, ∀ a, Py.contains a w = true →
                        Text.punctuation a = false
                        ∧ Text.isupper_ascii a = false) (tokenize t)
    ∧ preprocess unidecode stem tokenize text true
      = preprocess unidecode stem tokenize text false.
Proof.
  intros Htok. unfold preprocess. cbv zeta.
  set (t := Text.map _ (Text.map Text.lower _)).
  assert (∀ a, Py.contains a t = true →
               Text.punctuation a = false ∧ Text.isupper_ascii a = false) as Ht.
  { intros a Hin. unfold t in Hin. apply contains_map in Hin as (b & Hb & ->).
    apply contains_map in Hb as (c & _ & ->). apply lowered_char. }
  exists t. split; [by destruct stemming|]. split; [|split; [done|split; [|done]]].
  - unfold t. by rewrite !length_map.
  - apply Forall_forall. intros w Hw a Ha. by apply Ht, (Htok t w a).
Qed.

Lemma preprocess_words_witness :
  ∃ t, preprocess id id one_word (Some "Hi!") true
       = Py.join " " (id <$> one_word t)
       ∧ String.length t = 3%nat.
Proof.
  destruct (preprocess_words id id one_word (Some "Hi!") true)
    as (t & E & Hlen & _).
  - intros s w a ->%list_elem_of_singleton Ha. exact Ha.
  - exists t. split; [exact E|exact Hlen].
Defined.

(** ** The fields and the identifiers of the saved records *)

(** X18.  The records a run saves all have the same fields, and among them
    the date as scraped and as normalised, the two times, the six fields of
    the key and the identifier. *)
Theorem saved_records_share_their_fields
    (parse : string → option datetime) (strict : bool) (former : option (list dict))
    (events out : list dict) :
  run parse strict former events = Ok out →
  (∀ o o' c, o ∈ out → o' ∈ out → is_Some (o !! c) → is_Some (o' !! c))
  ∧ (∀ o c, o ∈ out →
       c ∈ "date" :: "date_dt" :: "endtime" :: "event_index" :: KEY →
       is_Some (o !! c)).
Proof.
  intros Hrun.
  destruct (run_columns _ _ _ _ _ Hrun) as (df & cols & Hdf & Hkey & Hcols & Hdom).
  split.
  - intros o o' c Ho Ho' Hc. apply (Hdom o' c Ho'). by apply (Hdom o c Ho).
  - intros o c Ho Hc. apply (Hdom o c Ho).
    pose proof (normalize_rows _ _ _ _ Hdf) as (Hcc & Hend & _).
    cbv zeta in Hcc.
    change (columns (Pd.fillna (VStr "") (Pd.of_records events)))
      with (columns (Pd.of_records events)) in Hcc.
    rewrite !elem_of_cons in Hc.
    destruct Hc as [->|[->|[->|[->|Hc]]]].
    + apply Hcols. left. apply Hcc. left. apply elem_of_columns_of_records.
      eapply normalize_needs; [done|]. rewrite !elem_of_cons. auto.
    + apply Hcols. left. apply Hcc. auto.
    + apply Hcols. by left.
    + apply Hcols. destruct former as [records|]; [|by right; right].
      right. left.
      destruct (run_shape _ _ _ _ _ Hrun)
        as (_ & _ & _ & top & numbers & Htop & _).
      apply col_max_ok in Htop as [(e & He & Hin)%list_elem_of_fmap _].
      unfold Pd.retype in Hin. simpl in Hin.
      apply list_elem_of_fmap in Hin as (r & -> & Hr).
      exists r. split; [done|]. unfold index_of in He.
      rewrite cell_alter_dtype, decide_True in He by done.
      unfold cell in He. destruct (r !! "event_index"); [by eexists|].
      simpl in He. by destruct (Pd.dtype_of _).
    + by apply Hkey.
Qed.

Lemma saved_records_share_their_fields_witness :
  ∃ out, run clock true (Some stored) scraped = Ok out
         ∧ ∀ o, o ∈ out → is_Some (o !! "event_index").
Proof.
  assert (match run clock true (Some stored) scraped with
          | Ok l => True
          | Raise _ => False
          end) as Hok by (vm_compute; exact I).
  remember (run clock true (Some stored) scraped) as m eqn:Hrun.
  destruct m as [out|e]; [|exact (False_ind _ Hok)].
  symmetry in Hrun. exists out. split; [reflexivity|].
  intros o Ho.
  apply (proj2 (saved_records_share_their_fields _ _ _ _ _ Hrun) o _ Ho).
  rewrite !elem_of_cons. auto.
Defined.

(** X19.  The identifiers stay distinct: when the records of the old corpus
    have distinct keys and distinct identifiers, each between -2^53 and 2^53
    less the size of the batch, so that no identifier is rounded in a column
    of doubles, and no scraped record brings an identifier, no two saved
    records have the same identifier. *)
Theorem identifiers_stay_distinct
    (parse : string → option datetime) (strict : bool) (former : option (list dict))
    (events out : list dict) :
  Forall (λ e, e !! "event_index" = None) events →
  Forall (has_room (List.length events)) (existing former) →
  NoDup (key_of <$> existing former) →
  NoDup (index_of <$> existing former) →
  run parse strict former events = Ok out →
  NoDup (index_of <$> out).
Proof.
  intros Hev Hroom Hnd Hni Hrun.
  assert (∀ a, Inj eq eq (λ i : nat, VInt (a + Z.of_nat i))) as Hinj.
  { intros a i j [= H]. lia. }
  destruct former as [records|]; simpl in *.
  - destruct (run_shape_exact _ _ _ _ _ Hev Hroom Hrun)
      as (df & Hdf & _ & top & Htop & ->).
    assert (Forall (λ e, ∃ n, index_of e = VInt n) records) as Hint.
    { eapply Forall_impl; [exact Hroom|]. intros e (n & Hn & _). eauto. }
    rewrite first_seen_old_corpus, fill_null_app, fmap_app by done.
    set (new := Pd.first_seen key_of (reverse (key_of <$> records)) (rows df)).
    assert (Forall (λ r, cell r "event_index" = VNaN) new) as Hnew.
    { apply Forall_forall. intros r Hr%first_seen_subset.
      pose proof (rows_without_index _ _ _ _ Hdf Hev) as H.
      rewrite Forall_forall in H. by apply H. }
    change (index_of <$> Pd.fill_null "event_index" (top + 1) new)
      with ((λ r, cell r "event_index")
              <$> Pd.fill_null "event_index" (top + 1) new).
    rewrite fill_null_all by done.
    apply NoDup_app. split; [done|]. split.
    + intros v Hv (i & -> & _)%list_elem_of_fmap.
      apply col_max_ok in Htop as [_ Hmax]. specialize (Hmax _ Hv). lia.
    + apply (NoDup_fmap_2 _), NoDup_seq.
  - destruct (run_shape _ _ _ _ _ Hrun) as (df & Hdf & _ & Hidx).
    cbv zeta in Hidx. rewrite Hidx.
    change (λ i : nat, VInt (Z.of_nat i)) with (λ i : nat, VInt (0 + Z.of_nat i)).
    apply (NoDup_fmap_2 _), NoDup_seq.
Qed.

Lemma identifiers_stay_distinct_witness :
  ∃ out, run clock true (Some stored) scraped = Ok out
         ∧ NoDup (index_of <$> out).
Proof.
  assert (match run clock true (Some stored) scraped with
          | Ok l => True
          | Raise _ => False
          end) as Hok by (vm_compute; exact I).
  remember (run clock true (Some stored) scraped) as m eqn:Hrun.
  destruct m as [out|e]; [|exact (False_ind _ Hok)].
  symmetry in Hrun. exists out. split; [reflexivity|].
  refine (identifiers_stay_distinct clock true (Some stored) scraped out
            _ _ _ _ Hrun).
  - apply (bool_decide_unpack _). vm_compute. exact I.
  - repeat constructor. exists 7. split; [vm_compute; reflexivity|].
    split; vm_compute; discriminate.
  - apply (bool_decide_unpack _). vm_compute. exact I.
  - apply (bool_decide_unpack _). vm_compute. exact I.
Defined.
